(** * reportscript.py: the weekly project report pipeline

    A shallow embedding of [src/reportscript.py] and the properties of its
    latest-file locator, configuration store, translation cache, batch
    translator and table processor.

    Conventions of the embedding:
    - a Python [str] is a [string]; every character stands for one code
      point below 256, so that [\d] is exactly ['0'..'9'] and the
      whitespace set of [str.strip] is the one of [isspace] below;
    - a cell of a table read by [pandas.read_csv] is a [str], a whole
      number, or the missing value [NaN];
    - the class attribute [Translator._cache], the log of calls made to the
      translation provider and the lines printed are threaded explicitly
      as a [state];
    - a raised exception is a value of [pyexc]. *)

From Stdlib Require Import ZArith Ascii String List Lia Sorting.Sorted.
From stdpp Require Import base option list strings gmap sorting pretty.

(** ** Python strings *)

Module PyStr.

(** [str.isspace] on the code points below 256: TAB..CR, FS..US, SPACE,
    NEL and NBSP. *)
Definition isspace (c : ascii) : bool :=
  let n := nat_of_ascii c in
  (((9 <=? n) && (n <=? 13)) || ((28 <=? n) && (n <=? 32))
   || (n =? 133) || (n =? 160))%nat.

Fixpoint lstrip (s : string) : string :=
  match s with
  | String c s' => if isspace c then lstrip s' else s
  | EmptyString => EmptyString
  end.

(** [rstrip] drops the trailing run of whitespace: a character is kept
    when it is not whitespace or when something is kept after it. *)
Fixpoint rstrip (s : string) : string :=
  match s with
  | String c s' =>
      match rstrip s' with
      | EmptyString => if isspace c then EmptyString else String c EmptyString
      | r => String c r
      end
  | EmptyString => EmptyString
  end.

Definition strip (s : string) : string := rstrip (lstrip s).

Fixpoint all_space (s : string) : bool :=
  match s with
  | String c s' => isspace c && all_space s'
  | EmptyString => true
  end.

(** Truth value of a string: [bool(s)]. *)
Definition truthy (s : string) : bool :=
  match s with EmptyString => false | _ => true end.

Fixpoint startswith (s p : string) : bool :=
  match p, s with
  | EmptyString, _ => true
  | String a p', String b s' => Ascii.eqb a b && startswith s' p'
  | String _ _, EmptyString => false
  end.

Fixpoint endswith_char (s : string) (c : ascii) : bool :=
  match s with
  | EmptyString => false
  | String a EmptyString => Ascii.eqb a c
  | String _ s' => endswith_char s' c
  end.

End PyStr.

(** ** Cells of a table

    A column in which every field is a whole number is read as a column of
    numbers, not of strings. [Num n] is the number [n]: the int [n], or
    the float [n.0] when the column has a missing value. Python makes no
    difference between the two when it tests them for equality, hashes
    them or compares them. *)

Inductive cell : Type :=
| NaN
| Str (s : string)
| Num (n : Z).

#[global] Instance cell_eq_dec : EqDecision cell.
Proof. solve_decision. Defined.

#[global] Instance cell_countable : Countable cell.
Proof.
  refine (inj_countable'
            (fun c => match c with
                      | NaN => None
                      | Str s => Some (inl s)
                      | Num n => Some (inr n)
                      end)
            (fun x => match x with
                      | None => NaN
                      | Some (inl s) => Str s
                      | Some (inr n) => Num n
                      end) _).
  by intros [].
Defined.

(** [pd.notna(text)] *)
Definition notna (text : cell) : bool :=
  match text with NaN => false | _ => true end.

(** [str(text)]; for a number, the digits of the int (a float has [.0]
    after them, which is not blank either). *)
Definition str (text : cell) : string :=
  match text with NaN => "nan" | Str s => s | Num n => pretty n end.

(** The guard of lines 112 and 144:
    [pd.notna(text) and str(text).strip() != ""]. *)
Definition has_text (text : cell) : bool :=
  notna text && negb (String.eqb (PyStr.strip (str text)) "").

(** ** The translation cache (class [Translator]) *)

(** A cache key [(text, src_lang, target_lang)]. *)
Abbreviation key := (cell * string * string)%type.

Definition key_text (k : key) : cell := k.1.1.

(** What a provider call does: it returns the translation ([inl]) or raises
    an exception whose message is given ([inr]). *)
Abbreviation response := (string + string)%type.

Record state : Type := mkState {
  cache  : gmap key string;   (* Translator._cache *)
  calls  : list key;          (* provider calls made so far, oldest first *)
  stdout : list string        (* lines printed *)
}.

Definition empty_state : state := mkState ∅ [] [].

Section Translator.

(** [GoogleTranslator(source, target).translate(text)]: the answer of the
    remote service may depend on everything asked before. *)
Variable provider : list key -> key -> response.

(** Lines 116-122, once the key has missed the cache. *)
Definition call_provider (st : state) (text : cell) (k : key) : cell * state :=
  match provider (calls st) k with
  | inl translated =>
      (Str translated,
       mkState (<[k := translated]> (cache st)) (calls st ++ [k]) (stdout st))
  | inr e =>
      (text,
       mkState (cache st) (calls st ++ [k])
               (stdout st ++ ["Error translating text: " +:+ e]))
  end.

(** [Translator.translate_text] (lines 109-123). *)
Definition translate_text (st : state) (text : cell) (src_lang target_lang : string)
  : cell * state :=
  if has_text text then
    let k : key := (text, src_lang, target_lang) in
    match cache st !! k with
    | Some cached => (Str cached, st)
    | None => call_provider st text k
    end
  else (text, st).

(** *** The two halves of a cache miss

    A worker thread that misses the cache waits for the provider; other
    workers run meanwhile. [start_task] is [translate_text] up to the
    moment the request of line 117 is issued, [finish_task] is the rest
    (lines 118-122). *)

Inductive task : Type :=
| Queued (text : cell)
| InFlight (text : cell) (k : key) (r : response)
| Finished (result : cell).

Definition start_task (st : state) (text : cell) (src_lang target_lang : string)
  : task * state :=
  if has_text text then
    let k : key := (text, src_lang, target_lang) in
    match cache st !! k with
    | Some cached => (Finished (Str cached), st)
    | None =>
        (InFlight text k (provider (calls st) k),
         mkState (cache st) (calls st ++ [k]) (stdout st))
    end
  else (Finished text, st).

Definition finish_task (st : state) (text : cell) (k : key) (r : response)
  : cell * state :=
  match r with
  | inl translated =>
      (Str translated, mkState (<[k := translated]> (cache st)) (calls st) (stdout st))
  | inr e =>
      (text, mkState (cache st) (calls st)
                     (stdout st ++ ["Error translating text: " +:+ e]))
  end.

(** ** The batch translator ([DataProcessor._batch_translate]) *)

(** Line 144: what is handed to the pool. *)
Definition batch_input (texts : list cell) : list cell :=
  (fun text => if has_text text then text else Str "") <$> texts.

(** [ThreadPoolExecutor(max_workers=10)] *)
Definition max_workers : nat := 10.

Definition in_flight (t : task) : bool :=
  match t with InFlight _ _ _ => true | _ => false end.

Definition queued (t : task) : bool :=
  match t with Queued _ => true | _ => false end.

(** One step of the pool: a free worker takes the oldest queued text, or
    a waiting worker gets its answer. *)
Inductive pool_step (src_lang target_lang : string)
  : list task * state -> list task * state -> Prop :=
| pool_start ts st i text t' st' :
    ts !! i = Some (Queued text) ->
    (forall j t, j < i -> ts !! j = Some t -> queued t = false) ->
    length (List.filter in_flight ts) < max_workers ->
    start_task st text src_lang target_lang = (t', st') ->
    pool_step src_lang target_lang (ts, st) (<[i := t']> ts, st')
| pool_finish ts st i text k r result st' :
    ts !! i = Some (InFlight text k r) ->
    finish_task st text k r = (result, st') ->
    pool_step src_lang target_lang (ts, st) (<[i := Finished result]> ts, st').

(** [_batch_translate] as a relation between the state before, the texts,
    and the list returned with the state after: [executor.map] yields the
    results in the order of the inputs once every task is finished. *)
Definition batch_translate (st : state) (texts : list cell)
           (src_lang target_lang : string) (out : list cell * state) : Prop :=
  rtc (pool_step src_lang target_lang)
      (Queued <$> batch_input texts, st) (Finished <$> out.1, out.2).

(** The schedule in which each text is finished before the next one is
    taken. *)
Fixpoint translate_each (st : state) (texts : list cell)
         (src_lang target_lang : string) : list cell * state :=
  match texts with
  | [] => ([], st)
  | text :: rest =>
      let (r, st1) := translate_text st text src_lang target_lang in
      let (rs, st2) := translate_each st1 rest src_lang target_lang in
      (r :: rs, st2)
  end.

Definition sequential_batch (st : state) (texts : list cell)
           (src_lang target_lang : string) : list cell * state :=
  translate_each st (batch_input texts) src_lang target_lang.

(** *** What a result of [translate_text] is

    Between the states [st0] and [st], the provider was asked for [k] and
    gave the answer [r]. *)
Definition answered (st0 st : state) (k : key) (r : response) : Prop :=
  exists pre post,
    calls st = calls st0 ++ pre ++ k :: post /\ provider (calls st0 ++ pre) k = r.

(** [result] is what [translate_text] returns for [text] in a run that
    starts in [st0] and has reached [st]: the text itself when it is blank;
    otherwise a value the cache held at the start or a translation the
    provider gave for its key, or the text itself after the provider
    failed. *)
Definition translation_of (st0 st : state) (text : cell)
           (src_lang target_lang : string) (result : cell) : Prop :=
  if has_text text then
    let k : key := (text, src_lang, target_lang) in
    (exists v, result = Str v
               /\ (cache st0 !! k = Some v \/ answered st0 st k (inl v)))
    \/ (result = text /\ exists e, answered st0 st k (inr e))
  else result = text.

(** The invariant of the pool: where each task stands with respect to the
    text it was given, which calls were made, and where the entries of the
    cache come from. *)
Definition task_inv (st0 st : state) (src_lang target_lang : string)
           (x : cell) (t : task) : Prop :=
  match t with
  | Queued text => text = x
  | InFlight text k r =>
      text = x /\ has_text x = true /\ k = (x, src_lang, target_lang)
      /\ answered st0 st k r
  | Finished result => translation_of st0 st x src_lang target_lang result
  end.

Definition asked_for (inputs : list cell) (src_lang target_lang : string)
           (k : key) : Prop :=
  exists x, x ∈ inputs /\ has_text x = true /\ k = (x, src_lang, target_lang).

Definition pool_inv (st0 : state) (inputs : list cell)
           (src_lang target_lang : string) (p : list task * state) : Prop :=
  Forall2 (task_inv st0 p.2 src_lang target_lang) inputs p.1
  /\ (exists new, calls p.2 = calls st0 ++ new
                  /\ Forall (asked_for inputs src_lang target_lang) new)
  /\ (forall k v, cache p.2 !! k = Some v ->
                  cache st0 !! k = Some v \/ answered st0 p.2 k (inl v)).

End Translator.

(** ** Exceptions *)

Inductive pyexc : Type :=
| KeyError (label : string)
| ValueError
| TypeError
| NotADirectoryError
| JSONDecodeError
| SystemExit (code : Z).

(** ** The latest-file locator ([get_latest_file]) *)

Module Locator.

(** *** The pattern [project_(\d{4}-\d{2}-\d{2})\.csv] *)

Inductive atom : Type :=
| Lit (c : ascii)
| Digit.

Definition is_digit (c : ascii) : bool :=
  let n := nat_of_ascii c in ((48 <=? n) && (n <=? 57))%nat.

Definition atom_matches (a : atom) (c : ascii) : bool :=
  match a with
  | Lit l => Ascii.eqb l c
  | Digit => is_digit c
  end.

Definition lits (s : string) : list atom := Lit <$> list_ascii_of_string s.

Definition pattern_head : list atom := lits "project_".
Definition pattern_group : list atom :=
  [Digit; Digit; Digit; Digit; Lit "-"; Digit; Digit; Lit "-"; Digit; Digit]%char.
Definition pattern_tail : list atom := lits ".csv".

(** Match a sequence of atoms at the start of [s]: the text matched and
    what follows it. *)
Fixpoint match_atoms (p : list atom) (s : string) : option (string * string) :=
  match p with
  | [] => Some (EmptyString, s)
  | a :: p' =>
      match s with
      | String c s' =>
          if atom_matches a c then
            match match_atoms p' s' with
            | Some (m, rest) => Some (String c m, rest)
            | None => None
            end
          else None
      | EmptyString => None
      end
  end.

(** The pattern matched at the start of [s]; the value is [group(1)]. *)
Definition match_here (s : string) : option string :=
  match match_atoms pattern_head s with
  | Some (_, s1) =>
      match match_atoms pattern_group s1 with
      | Some (g, s2) =>
          match match_atoms pattern_tail s2 with
          | Some _ => Some g
          | None => None
          end
      | None => None
      end
  | None => None
  end.

(** [re.search(file_pattern, filename)]: the leftmost match. *)
Fixpoint re_search (filename : string) : option string :=
  match match_here filename with
  | Some g => Some g
  | None =>
      match filename with
      | String _ rest => re_search rest
      | EmptyString => None
      end
  end.

(** *** [datetime.strptime(_, "%Y-%m-%d")] *)

Record datetime : Type := mkDate { year : Z; month : Z; day : Z }.

Definition digit_value (c : ascii) : Z := Z.of_nat (nat_of_ascii c) - 48.

Definition is_leap (y : Z) : bool :=
  (y mod 4 =? 0)%Z && (negb (y mod 100 =? 0)%Z || (y mod 400 =? 0)%Z).

Definition days_in_month (y m : Z) : Z :=
  if (m =? 2)%Z then (if is_leap y then 29 else 28)%Z
  else if ((m =? 4) || (m =? 6) || (m =? 9) || (m =? 11))%Z then 30%Z
  else 31%Z.

(** On a string of the shape the pattern captures, four digits, two
    digits and two digits separated by dashes, [strptime] raises
    [ValueError] ([None]) unless the year is at least 1, the month is in
    1..12 and the day exists in that month. It is applied to captured
    groups only. *)
Definition strptime (s : string) : option datetime :=
  match list_ascii_of_string s with
  | [y1; y2; y3; y4; _; m1; m2; _; d1; d2] =>
      let y := (1000 * digit_value y1 + 100 * digit_value y2
                + 10 * digit_value y3 + digit_value y4)%Z in
      let m := (10 * digit_value m1 + digit_value m2)%Z in
      let d := (10 * digit_value d1 + digit_value d2)%Z in
      if ((1 <=? y) && (1 <=? m) && (m <=? 12) && (1 <=? d)
          && (d <=? days_in_month y m))%Z
      then Some (mkDate y m d)
      else None
  | _ => None
  end.

(** [a > b] on datetimes. *)
Definition datetime_gt (a b : datetime) : bool :=
  ((year b <? year a)
   || ((year a =? year b)
       && ((month b <? month a)
           || ((month a =? month b) && (day b <? day a)))))%Z.

(** *** [os.path.join] (POSIX) *)

Definition join (a b : string) : string :=
  if PyStr.startswith b "/" then b
  else if negb (PyStr.truthy a) || PyStr.endswith_char a "/" then a +:+ b
  else a +:+ "/" +:+ b.

(** *** The directory *)

Inductive node : Type :=
| Missing
| RegularFile
| Directory (names : list string).

(** The test of line 43: [latest_date is None or d > latest_date]. *)
Definition beats (d : datetime) (latest_date : option datetime) : bool :=
  match latest_date with
  | None => true
  | Some d0 => datetime_gt d d0
  end.

(** The loop of lines 36-45, from the current [latest_file] and
    [latest_date]. *)
Fixpoint scan (folder_path : string) (names : list string)
         (latest_file : option string) (latest_date : option datetime)
  : pyexc + option string :=
  match names with
  | [] => inr latest_file
  | filename :: rest =>
      match re_search filename with
      | Some file_date_str =>
          match strptime file_date_str with
          | Some file_date =>
              if beats file_date latest_date
              then scan folder_path rest (Some (join folder_path filename))
                        (Some file_date)
              else scan folder_path rest latest_file latest_date
          | None => inl ValueError
          end
      | None => scan folder_path rest latest_file latest_date
      end
  end.

(** [not latest_file] *)
Definition falsy (latest_file : option string) : bool :=
  match latest_file with
  | None => true
  | Some p => negb (PyStr.truthy p)
  end.

(** [get_latest_file]: the lines printed and the value returned or the
    exception raised. *)
Definition get_latest_file (fs : string -> node) (folder_path : string)
  : list string * (pyexc + option string) :=
  match fs folder_path with
  | Missing => (["Folder not found: " +:+ folder_path], inr None)
  | RegularFile => ([], inl NotADirectoryError)
  | Directory names =>
      match scan folder_path names None None with
      | inl e => ([], inl e)
      | inr latest_file =>
          (if falsy latest_file
           then ["No matching files found in folder: " +:+ folder_path]
           else [],
           inr latest_file)
      end
  end.

(** The date embedded in a file name, when the name matches and the date
    exists. *)
Definition file_date (filename : string) : option datetime :=
  match re_search filename with
  | Some g => strptime g
  | None => None
  end.

(** Every name of the listing that matches the pattern embeds a date that
    exists. *)
Definition dates_valid (names : list string) : Prop :=
  Forall (fun f => forall g, re_search f = Some g -> is_Some (strptime g)) names.

End Locator.


(** ** The configuration store ([load_config], [save_config]) *)

Module Config.

(** The values the program stores: [None] or a string. *)
Inductive json : Type :=
| JNull
| JString (s : string).

(** [user_config.json]: absent, not readable as JSON, or a JSON object. *)
Inductive file : Type :=
| NoFile
| NotJson
| JsonObject (d : gmap string json).

Definition load_config (f : file) : pyexc + gmap string json :=
  match f with
  | JsonObject d => inr d
  | NotJson => inl JSONDecodeError
  | NoFile => inr (<["email" := JNull]> (<["credential_file" := JNull]> ∅))
  end.

(** Truth value of an argument that is [None] or a string. *)
Definition truthy (a : option string) : bool :=
  match a with
  | Some s => PyStr.truthy s
  | None => false
  end.

(** [config[label] = a] *)
Definition store (label : string) (a : option string) (config : gmap string json)
  : gmap string json :=
  <[label := match a with Some s => JString s | None => JNull end]> config.

(** [save_config]: the exception raised if any, the file afterwards and
    the lines printed. *)
Definition save_config (f : file) (email credential_file : option string)
  : (pyexc + unit) * file * list string :=
  match load_config f with
  | inl e => (inl e, f, [])
  | inr config =>
      let config := if truthy email then store "email" email config else config in
      let config :=
        if truthy credential_file
        then store "credential_file" credential_file config else config in
      (inr tt, JsonObject config, ["Configuration saved successfully!"])
  end.

(** What [load_config()] gives for a field: [config.get(label)]. *)
Definition stored (f : file) (label : string) : option (option json) :=
  match load_config f with
  | inr config => Some (config !! label)
  | inl _ => None
  end.

End Config.

(** ** Computations that print, use the translation cache and may raise *)

Definition M (A : Type) : Type := state -> (pyexc + A) * state.

#[global] Instance M_ret : MRet M := fun A x st => (inr x, st).

#[global] Instance M_bind : MBind M := fun A B f m st =>
  match m st with
  | (inr x, st') => f x st'
  | (inl e, st') => (inl e, st')
  end.

Definition raise {A : Type} (e : pyexc) : M A := fun st => (inl e, st).

Definition print (line : string) : M unit :=
  fun st => (inr tt, mkState (cache st) (calls st) (stdout st ++ [line])).

Definition lift {A : Type} (f : state -> A * state) : M A :=
  fun st => let (x, st') := f st in (inr x, st').

(** ** The table processor (class [DataProcessor]) *)

#[global] Instance cell_inhabited : Inhabited cell := populate NaN.

(** A [DataFrame] as [read_csv] builds it: the header and the rows; a row
    shorter than the header is missing its last cells. *)
Record dataframe : Type := mkFrame {
  columns : list string;
  values  : list (list cell)
}.

(** The published row (columns A to K). *)
Record report_row : Type := mkRow {
  Assignees   : cell;
  Title       : cell;
  Title_ja    : cell;
  body        : cell;
  body_ja     : cell;
  Repository  : cell;
  Status      : cell;
  plan_start  : cell;
  plan_finish : cell;
  real_start  : cell;
  real_finish : cell
}.

#[global] Instance report_row_eq_dec : EqDecision report_row.
Proof. solve_decision. Defined.

(** [df[label]] *)
Definition column (df : dataframe) (label : string) : M (list cell) :=
  match list_find (fun c => c = label) (columns df) with
  | Some (i, _) => mret ((fun row => row !!! i) <$> values df)
  | None => raise (KeyError label)
  end.

(** [formatted_df[label] = values] for a list of values: pandas raises
    [ValueError] unless the list has the length of the index. *)
Definition list_column (index_length : nat) (col : list cell) : M (list cell) :=
  if decide (length col = index_length) then mret col else raise ValueError.

Definition name_replacements : gmap string string :=
  list_to_map
    [("dhanukakarunasena", "Dhanuka"); ("malcolmSansen", "Malcom");
     ("shimizu39", "Prashanti"); ("shimizuSarun", "Saran");
     ("SonSansen", "Son"); ("HtetSansen", "Htet")].

(** [Series.replace(d)] *)
Definition replace (d : gmap string string) (col : list cell) : list cell :=
  (fun c => match c with
            | Str s => match d !! s with Some s' => Str s' | None => c end
            | _ => c
            end) <$> col.

(** The columns of [formatted_df], aligned on the index of the first. *)
Definition frame_rows (c1 c2 c3 c4 c5 c6 c7 c8 c9 c10 c11 : list cell)
  : list report_row :=
  imap (fun i a =>
          mkRow a (c2 !!! i) (c3 !!! i) (c4 !!! i) (c5 !!! i) (c6 !!! i)
                (c7 !!! i) (c8 !!! i) (c9 !!! i) (c10 !!! i) (c11 !!! i)) c1.

Definition fill (c : cell) : cell :=
  match c with NaN => Str "" | _ => c end.

(** [fillna("")] *)
Definition fillna (rows : list report_row) : list report_row :=
  (fun r => mkRow (fill (Assignees r)) (fill (Title r)) (fill (Title_ja r))
                  (fill (body r)) (fill (body_ja r)) (fill (Repository r))
                  (fill (Status r)) (fill (plan_start r)) (fill (plan_finish r))
                  (fill (real_start r)) (fill (real_finish r))) <$> rows.

(** Ascending order of the keys of a column: [<=] on [str] compares code
    points, [<=] on numbers their values, missing values come last. Python
    has no order between a [str] and a number ([comparable] below); here
    the numbers are put first, which makes the order total. *)
Definition cell_leb (a b : cell) : bool :=
  match a, b with
  | Str x, Str y => String.leb x y
  | Num x, Num y => (x <=? y)%Z
  | Num _, Str _ => true
  | Str _, Num _ => false
  | _, NaN => true
  | NaN, _ => false
  end.

Definition by_assignee (r1 r2 : report_row) : Prop :=
  cell_leb (Assignees r1) (Assignees r2) = true.

#[global] Instance by_assignee_dec : RelDecision by_assignee.
Proof. intros r1 r2. unfold by_assignee. apply _. Defined.

Definition is_str (c : cell) : bool :=
  match c with Str _ => true | _ => false end.

Definition is_num (c : cell) : bool :=
  match c with Num _ => true | _ => false end.

(** Whether the keys of a column can be sorted: the missing values are set
    aside, and [<] is defined between the others when they are all
    strings or all numbers. Sorting keys of both kinds compares a [str]
    with a number, which raises [TypeError]. *)
Definition comparable (keys : list cell) : bool :=
  forallb is_str (List.filter notna keys)
  || forallb is_num (List.filter notna keys).

(** An [Assignees] column as it is read: it holds no number, or it holds
    numbers only and has no missing value. Those are the columns whose
    keys are [comparable] once the missing values are filled with the
    empty string. *)
Definition no_number (col : list cell) : bool :=
  forallb (fun c => negb (is_num c)) col.

Definition one_kind (col : list cell) : bool :=
  no_number col || forallb is_num col.


(** A sort that keeps that promise. *)
Definition merge_rows (rows : list report_row) : list report_row :=
  merge_sort by_assignee rows.


(** *** The default [kind] of sort

    [sort_values] hands the keys to numpy's [argsort] with [kind]
    [quicksort]. On a column of strings of at most 16 rows that sort is an
    insertion sort: the rows are taken from the first to the last, and
    each one is moved up past the rows whose key is greater than its own.
    It ends above the first row with a greater key, below the rows that
    have its key. *)
Definition key_ltb (r1 r2 : report_row) : bool :=
  negb (cell_leb (Assignees r2) (Assignees r1)).

Fixpoint insert_row (r : report_row) (sorted : list report_row)
  : list report_row :=
  match sorted with
  | [] => [r]
  | r' :: rest =>
      if key_ltb r r' then r :: sorted else r' :: insert_row r rest
  end.

Definition insertion_sort (rows : list report_row) : list report_row :=
  foldl (fun sorted r => insert_row r sorted) [] rows.

Definition small_quicksort : nat := 16.

Section DefaultKind.

(** What numpy does otherwise is not embedded: a longer column is cut in
    parts around a pivot before the parts are sorted, and a column of
    numbers has a routine of its own. *)
Variable numpy_sort : list report_row -> list report_row.

Definition quicksort_rows (rows : list report_row) : list report_row :=
  if forallb is_str (Assignees <$> rows)
     && bool_decide (length rows <= small_quicksort)
  then insertion_sort rows
  else numpy_sort rows.

End DefaultKind.

Section Pipeline.

(** The thread pool of [_batch_translate], as the function it computes
    with the schedule it follows. *)
Variable pool : state -> list cell -> string -> string -> list cell * state.

(** [DataFrame.sort_values(by="Assignees")] with the default [kind], on
    keys that can be compared. *)
Variable sort_values : list report_row -> list report_row.

(** [pd.read_csv(path, delimiter=";", encoding="utf-8")]: the table, or
    the message of the exception raised. *)
Variable read_csv : string -> string + dataframe.

(** The requests sent to the spreadsheet service. *)
Variable request : Type.

(** Lines 253-263, from authentication to the column widths: the requests
    sent and the exception raised, if any. *)
Variable upload : list report_row -> list request * (pyexc + unit).

(** [DataProcessor.load_data] *)
Definition load_data (file_path : string) : M dataframe :=
  match read_csv file_path with
  | inr df => mret df
  | inl e =>
      _ ← print ("Error loading CSV file: " +:+ e);
      raise (SystemExit 1)
  end.

(** [DataProcessor.process_data] up to the sort: the table
    [formatted_df.fillna("")] of line 173. *)
Definition before_sort (df : dataframe) : M (list report_row) :=
  assignees ← column df "Assignees";
  let assignees := replace name_replacements assignees in
  title ← column df "Title";
  title_ja ← lift (fun st => pool st title "en" "ja");
  title_ja ← list_column (length assignees) title_ja;
  body_ ← column df "body";
  body_ja_ ← lift (fun st => pool st body_ "en" "ja");
  body_ja_ ← list_column (length assignees) body_ja_;
  repository ← column df "Repository";
  status ← column df "Status";
  plan_start_ ← column df "plan start";
  plan_finish_ ← column df "plan finish";
  real_start_ ← column df "real start";
  real_finish_ ← column df "real finish";
  mret (fillna (frame_rows assignees title title_ja body_ body_ja_ repository
                            status plan_start_ plan_finish_ real_start_
                            real_finish_)).

(** [sort_values(by="Assignees")] on the rows of that table. *)
Definition sort_by_assignees (rows : list report_row) : M (list report_row) :=
  if comparable (Assignees <$> rows) then mret (sort_values rows)
  else raise TypeError.

(** [DataProcessor.process_data] *)
Definition process_data (df : dataframe) : M (list report_row) :=
  rows ← before_sort df;
  sort_by_assignees rows.

(** [WeeklyProjectReport.generate_report]: how the run ends, the state and
    the requests sent to the spreadsheet service. *)
Definition generate_report (csv_file : string) (st : state)
  : (pyexc + unit) * state * list request :=
  match (df ← load_data csv_file; process_data df) st with
  | (inr rows, st') => let (sent, r) := upload rows in (r, st', sent)
  | (inl e, st') => (inl e, st', [])
  end.

End Pipeline.

(** The exit status of the interpreter. *)
Definition exit_status (r : pyexc + unit) : Z :=
  match r with
  | inr _ => 0
  | inl (SystemExit code) => code
  | inl _ => 1
  end.

(** The columns [process_data] reads, in the order it reads them. *)
Definition required_columns : list string :=
  ["Assignees"; "Title"; "body"; "Repository"; "Status"; "plan start";
   "plan finish"; "real start"; "real finish"].

(** ** Counting and looking up in the pool *)

(** The tasks a worker has taken among those whose text satisfies [P]. *)
Fixpoint started (P : cell -> bool) (inputs : list cell) (ts : list task) : nat :=
  match inputs, ts with
  | x :: inputs', t :: ts' =>
      (if P x && negb (queued t) then 1 else 0) + started P inputs' ts'
  | _, _ => 0
  end.

(** [text] is not blank and its key is [k]. *)
Definition asks (src_lang target_lang : string) (k : key) (text : cell) : bool :=
  has_text text && bool_decide ((text, src_lang, target_lang) = k).

(** How many of the calls of a log are for the key [k]. *)
Definition count_calls (k : key) (log : list key) : nat :=
  length (List.filter (fun k' => bool_decide (k' = k)) log).

(** What the batch gives for a text when only the cache [c] is used. *)
Definition from_cache (c : gmap key string) (src_lang target_lang : string)
           (text : cell) : cell :=
  if has_text text then
    match c !! (text, src_lang, target_lang) with
    | Some cached => Str cached
    | None => text
    end
  else Str "".

(** ** The shape of the date in a file name *)

(** Four digits, a dash, two digits, a dash, two digits. *)
Definition date_shaped (g : string) : bool :=
  match list_ascii_of_string g with
  | [y1; y2; y3; y4; s1; m1; m2; s2; d1; d2] =>
      forallb Locator.is_digit [y1; y2; y3; y4; m1; m2; d1; d2]
      && Ascii.eqb s1 "-" && Ascii.eqb s2 "-"
  | _ => false
  end.

(** ** What a computation of the table processor asks the provider *)

(** Whatever [m] does, the calls it makes to the provider satisfy [Q], and
    the value it returns, if it returns one, satisfies [P]. *)
Definition yields {A : Type} (P : A -> Prop) (Q : key -> Prop) (m : M A) : Prop :=
  forall st r st',
    m st = (r, st') ->
    (exists new, calls st' = calls st ++ new /\ Forall Q new)
    /\ forall x, r = inr x -> P x.

(** [col] is the column [df[label]]. *)
Definition is_column (df : dataframe) (label : string) (col : list cell) : Prop :=
  forall st, column df label st = (inr col, st).

(** A call for a text of the [Title] or [body] column that is not blank,
    from English to Japanese. *)
Definition title_or_body (df : dataframe) (k : key) : Prop :=
  k = (key_text k, "en", "ja")
  /\ has_text (key_text k) = true
  /\ exists label col,
      (label = "Title" \/ label = "body")
      /\ is_column df label col /\ key_text k ∈ col.

(** The columns copied from the table, with the field of the published row
    each one goes to. *)
Definition passed_through : list (string * (report_row -> cell)) :=
  [("Title", Title); ("body", body); ("Repository", Repository);
   ("Status", Status); ("plan start", plan_start);
   ("plan finish", plan_finish); ("real start", real_start);
   ("real finish", real_finish)].

(** The cells of a published row, columns A to K. *)
Definition cells_of (r : report_row) : list cell :=
  [Assignees r; Title r; Title_ja r; body r; body_ja r; Repository r;
   Status r; plan_start r; plan_finish r; real_start r; real_finish r].

(** ** Asking the user ([get_email], [get_credential_file]) *)

Module Prompt.

Import Config.

(** [not v] for what [config.get(label)] gives. *)
Definition unset (v : option json) : bool :=
  match v with
  | Some (JString s) => negb (PyStr.truthy s)
  | Some JNull | None => true
  end.

(** [get_email]: [typed] is the line the user enters if asked. The result
    is the value returned or the exception raised, the file afterwards and
    what was written to the terminal. *)
Definition get_email (f : file) (typed : string)
  : (pyexc + string) * file * list string :=
  match load_config f with
  | inl e => (inl e, f, [])
  | inr config =>
      match config !! "email" with
      | Some (JString s) =>
          if PyStr.truthy s then (inr s, f, [])
          else
            let email := PyStr.strip typed in
            let '(r, f', out) := save_config f (Some email) None in
            (match r with inl e => inl e | inr _ => inr email end, f',
             "Please enter your email address: " :: out)
      | _ =>
          let email := PyStr.strip typed in
          let '(r, f', out) := save_config f (Some email) None in
          (match r with inl e => inl e | inr _ => inr email end, f',
           "Please enter your email address: " :: out)
      end
  end.

(** The test of line 95:
    [not credential_file or not os.path.exists(credential_file)]. *)
Definition dialog_needed (credential_file : option json)
           (exists_ : string -> bool) : bool :=
  unset credential_file
  || negb (exists_ (match credential_file with
                    | Some (JString s) => s
                    | _ => EmptyString
                    end)).

(** [get_credential_file]: [exists_] is [os.path.exists] and [chosen] is
    what the file dialog of [ask_for_file] returns if it is opened (the
    empty string when the user cancels). *)
Definition get_credential_file (f : file) (exists_ : string -> bool)
           (chosen : string)
  : (pyexc + option string) * file * list string :=
  match load_config f with
  | inl e => (inl e, f, [])
  | inr config =>
      let credential_file := config !! "credential_file" in
      if dialog_needed credential_file exists_
      then
        if PyStr.truthy chosen then
          let '(r, f', out) := save_config f None (Some chosen) in
          (match r with inl e => inl e | inr _ => inr (Some chosen) end, f',
           "Please select the credential file." :: out)
        else
          (inr None, f,
           ["Please select the credential file."; "No file selected. Exiting."])
      else
        (inr (match credential_file with
              | Some (JString s) => Some s
              | _ => None
              end), f, [])
  end.

End Prompt.

(** ** The spreadsheet service (class [GoogleSheetManager]) and the run *)

Module Sheets.

Import Locator.

(** *** [strftime('%Y-%m-%d')], for a year of four digits *)

Definition digit_char (d : Z) : ascii := ascii_of_nat (Z.to_nat (48 + d)).

Definition strftime (d : datetime) : string :=
  String (digit_char (year d / 1000))
 (String (digit_char (year d / 100 mod 10))
 (String (digit_char (year d / 10 mod 10))
 (String (digit_char (year d mod 10))
 (String "-"
 (String (digit_char (month d / 10))
 (String (digit_char (month d mod 10))
 (String "-"
 (String (digit_char (day d / 10))
 (String (digit_char (day d mod 10)) EmptyString))))))))).

(** A date [datetime.now()] can give, from the year 1000 on. *)
Definition calendar_date (d : datetime) : Prop :=
  (1000 <= year d <= 9999 /\ 1 <= month d <= 12
   /\ 1 <= day d <= days_in_month (year d) (month d))%Z.

(** Line 257. *)
Definition worksheet_name (now : datetime) : string :=
  "project_" +:+ strftime now.

(** *** Requests and exceptions *)

Record cell_format : Type := mkFormat {
  backgroundColor     : Z * Z * Z;
  foregroundColor     : Z * Z * Z;
  bold                : bool;
  horizontalAlignment : string;
  verticalAlignment   : string;
  wrapStrategy        : string
}.

(** One call of a method of [gspread], [oauth2client] or
    [gspread_formatting]. *)
Inductive request : Type :=
| Authorize (creds_file : string) (scope : list string)
| Open (name : string)
| Create (name : string)
| Share (email perm_type role : string)
| Worksheet (title : string)
| AddWorksheet (title rows cols : string)
| Clear
| Update (values : list (list cell)) (range_name : string)
| FormatCellRange (range : string) (fmt : cell_format)
| SetColumnWidth (col : string) (width : Z).

(** What such a call may raise, with the text of the exception. *)
Inductive remote_exc : Type :=
| SpreadsheetNotFound (msg : string)
| WorksheetNotFound (msg : string)
| OtherError (msg : string).

Definition message (e : remote_exc) : string :=
  match e with
  | SpreadsheetNotFound msg | WorksheetNotFound msg | OtherError msg => msg
  end.

Inductive exc : Type :=
| Python (e : pyexc)
| Remote (e : remote_exc).

(** *** The run: the process, the requests sent, the configuration file *)

Record world : Type := mkWorld {
  proc   : state;
  sent   : list request;
  config : Config.file
}.

Definition W (A : Type) : Type := world -> (exc + A) * world.

#[global] Instance W_ret : MRet W := fun A x w => (inr x, w).

#[global] Instance W_bind : MBind W := fun A B f m w =>
  match m w with
  | (inr x, w') => f x w'
  | (inl e, w') => (inl e, w')
  end.

Definition throw {A : Type} (e : exc) : W A := fun w => (inl e, w).

Definition say (lines : list string) : W unit :=
  fun w =>
    (inr tt,
     mkWorld (mkState (cache (proc w)) (calls (proc w))
                      (stdout (proc w) ++ lines))
             (sent w) (config w)).

(** A computation of the table processor, run in the process. *)
Definition in_process {A : Type} (m : M A) : W A :=
  fun w =>
    match m (proc w) with
    | (inr x, st') => (inr x, mkWorld st' (sent w) (config w))
    | (inl e, st') => (inl (Python e), mkWorld st' (sent w) (config w))
    end.

(** [sys.exit(1)] *)
Definition exit1 {A : Type} : W A := throw (Python (SystemExit 1)).

Section Service.

(** The service: whether a request raises, given the requests sent before
    it. *)
Variable service : list request -> request -> option remote_exc.

Definition call (r : request) : W unit :=
  fun w =>
    let w' := mkWorld (proc w) (sent w ++ [r]) (config w) in
    match service (sent w) r with
    | None => (inr tt, w')
    | Some e => (inl (Remote e), w')
    end.

Definition scope : list string :=
  ["https://spreadsheets.google.com/feeds";
   "https://www.googleapis.com/auth/drive"].

(** [authenticate] (lines 182-190) *)
Definition authenticate (creds_file : string) : W unit :=
  fun w =>
    match call (Authorize creds_file scope) w with
    | (inr _, w') => (inr tt, w')
    | (inl (Remote e), w') =>
        (_ ← say ["Error during authentication: " +:+ message e]; exit1) w'
    | (inl e, w') => (inl e, w')
    end.

(** [get_or_create_spreadsheet] (lines 192-199) *)
Definition get_or_create_spreadsheet (spreadsheet_name : string) : W unit :=
  fun w =>
    match call (Open spreadsheet_name) w with
    | (inr _, w') =>
        say ["Spreadsheet '" +:+ spreadsheet_name +:+ "' already exists."] w'
    | (inl (Remote (SpreadsheetNotFound _)), w') =>
        (_ ← call (Create spreadsheet_name);
         say ["Spreadsheet '" +:+ spreadsheet_name +:+ "' created."]) w'
    | (inl e, w') => (inl e, w')
    end.

(** [share_spreadsheet] (lines 201-203) *)
Definition share_spreadsheet (email role : string) : W unit :=
  call (Share email "user" role).

(** [get_or_create_worksheet] (lines 205-213) *)
Definition get_or_create_worksheet (name : string) : W unit :=
  fun w =>
    match call (Worksheet name) w with
    | (inr _, w') => say ["Worksheet '" +:+ name +:+ "' already exists."] w'
    | (inl (Remote (WorksheetNotFound _)), w') =>
        (_ ← call (AddWorksheet name "1000" "20");
         say ["Worksheet '" +:+ name +:+ "' created."]) w'
    | (inl e, w') => (inl e, w')
    end.

(** The header of [formatted_df] and the cells of a row, columns A to K. *)
Definition header : list string :=
  ["Assignees"; "Title"; "タイトル"; "body"; "ボディー"; "Repository";
   "Status"; "plan start"; "plan finish"; "real start"; "real finish"].

Definition row_cells (r : report_row) : list cell := cells_of r.

(** [update_data] (lines 215-221) *)
Definition update_data (rows : list report_row) : W unit :=
  _ ← call Clear;
  let data := (Str <$> header) :: (row_cells <$> rows) in
  _ ← call (Update data "A1");
  say ["Data uploaded successfully!"].

Definition header_format : cell_format :=
  mkFormat (0, 0, 0)%Z (1, 1, 1)%Z true "CENTER" "MIDDLE" "WRAP".

(** [apply_formatting] (lines 223-233) *)
Definition apply_formatting (header_range : string) : W unit :=
  call (FormatCellRange header_range header_format).

(** [set_column_widths] (lines 235-239) *)
Fixpoint set_column_widths (column_widths : list (string * Z)) : W unit :=
  match column_widths with
  | [] => mret tt
  | (col, width) :: rest =>
      _ ← call (SetColumnWidth col width);
      set_column_widths rest
  end.

Definition column_widths : list (string * Z) :=
  [("A", 150); ("B", 400); ("C", 400); ("D", 600); ("E", 600); ("F", 150);
   ("G", 150); ("H", 100); ("I", 100); ("J", 100); ("K", 100)]%Z.

(** Lines 253-263 of [generate_report]. *)
Definition publish (creds_file spreadsheet_name email : string)
           (now : datetime) (rows : list report_row) : W unit :=
  _ ← authenticate creds_file;
  _ ← get_or_create_spreadsheet spreadsheet_name;
  _ ← share_spreadsheet email "writer";
  _ ← get_or_create_worksheet (worksheet_name now);
  _ ← update_data rows;
  _ ← apply_formatting "A1:K1";
  set_column_widths column_widths.

Variable pool : state -> list cell -> string -> string -> list cell * state.
Variable sort_values : list report_row -> list report_row.
Variable read_csv : string -> string + dataframe.

(** [WeeklyProjectReport.generate_report] with the calls to the service
    spelled out. *)
Definition generate_report (csv_file creds_file spreadsheet_name email : string)
           (now : datetime) : W unit :=
  rows ← in_process (df ← load_data read_csv csv_file;
                     process_data pool sort_values df);
  publish creds_file spreadsheet_name email now rows.

(** *** The script (lines 267-284) *)

Variable fs : string -> node.
Variable typed : string.
Variable chosen : string.

(** [os.path.exists] *)
Definition path_exists (path : string) : bool :=
  match fs path with Missing => false | _ => true end.

(** [get_latest_file], run in the process. *)
Definition locate (folder_path : string) : W (option string) :=
  fun w =>
    let (out, r) := get_latest_file fs folder_path in
    match r with
    | inr latest_file => (_ ← say out; mret latest_file) w
    | inl e => (_ ← say out; throw (Python e)) w
    end.

(** A function on the configuration file, run in the process. *)
Definition with_config {A : Type}
           (op : Config.file -> (pyexc + A) * Config.file * list string)
  : W A :=
  fun w =>
    let '(r, f', out) := op (config w) in
    let w' := mkWorld (mkState (cache (proc w)) (calls (proc w))
                               (stdout (proc w) ++ out))
                      (sent w) f' in
    match r with
    | inr x => (inr x, w')
    | inl e => (inl (Python e), w')
    end.

Definition main (exe_path : string) (now : datetime) : W unit :=
  let folder_path := join (join exe_path "..") "extract" in
  csv_file_path ← locate folder_path;
  match csv_file_path with
  | Some csv_file =>
      if PyStr.truthy csv_file then
        credentials_file ←
          with_config (fun f => Prompt.get_credential_file f path_exists chosen);
        match credentials_file with
        | Some creds_file =>
            if PyStr.truthy creds_file then
              user_email ← with_config (fun f => Prompt.get_email f typed);
              generate_report csv_file creds_file "project_report" user_email
                              now
            else exit1
        | None => exit1
        end
      else _ ← say ["CSV file is required."]; exit1
  | None => _ ← say ["CSV file is required."]; exit1
  end.

(** *** Which requests may be followed by another

    A request is let through when the service accepts it, or when it is
    the lookup of a spreadsheet or of a worksheet that is not found. *)
Definition benign (log : list request) (r : request) : Prop :=
  service log r = None
  \/ (exists name msg,
        r = Open name /\ service log r = Some (SpreadsheetNotFound msg))
  \/ (exists title msg,
        r = Worksheet title /\ service log r = Some (WorksheetNotFound msg)).

(** Every request [m] sends is let through, the last one excepted when
    [m] raises. *)
Definition orderly {A : Type} (m : W A) : Prop :=
  forall w r w',
    m w = (r, w') ->
    exists new,
      sent w' = sent w ++ new
      /\ forall i q, new !! i = Some q ->
                     (S i < length new \/ exists x, r = inr x) ->
                     benign (sent w ++ take i new) q.

(** The requests of a run that succeeds, given whether the spreadsheet and
    the worksheet had to be created. *)
Definition success_trace (creds_file spreadsheet_name email : string)
           (now : datetime) (rows : list report_row) (created added : bool)
  : list request :=
  [Authorize creds_file scope; Open spreadsheet_name]
  ++ (if created then [Create spreadsheet_name] else [])
  ++ [Share email "user" "writer"; Worksheet (worksheet_name now)]
  ++ (if added then [AddWorksheet (worksheet_name now) "1000" "20"] else [])
  ++ [Clear; Update ((Str <$> header) :: (row_cells <$> rows)) "A1";
      FormatCellRange "A1:K1" header_format]
  ++ ((fun cw : string * Z => SetColumnWidth cw.1 cw.2) <$> column_widths).

End Service.

End Sheets.

(** ** Sample data *)

Module Samples.

(** A provider that answers, and one that is down. *)
Definition ja_provider : list key -> key -> response :=
  fun _ k => inl ("ja:" +:+ str (key_text k)).

Definition down_provider : list key -> key -> response :=
  fun _ _ => inr "connection refused".

Definition hello : key := (Str "Hello", "en", "ja").

(** Two issues of the same assignee. *)
Definition two_issues : dataframe :=
  mkFrame required_columns
    [ [Str "SonSansen"; Str "first"; NaN; Str "api"; Str "Todo";
       NaN; NaN; NaN; NaN];
      [Str "SonSansen"; Str "second"; NaN; Str "api"; Str "Done";
       NaN; NaN; NaN; NaN] ].

Definition first_issue : report_row :=
  mkRow (Str "Son") (Str "first") (Str "ja:first") (Str "") (Str "")
        (Str "api") (Str "Todo") (Str "") (Str "") (Str "") (Str "").

Definition second_issue : report_row :=
  mkRow (Str "Son") (Str "second") (Str "ja:second") (Str "") (Str "")
        (Str "api") (Str "Done") (Str "") (Str "") (Str "") (Str "").

Definition two_issues_state : state :=
  mkState (<[(Str "second", "en", "ja") := "ja:second"]>
             (<[(Str "first", "en", "ja") := "ja:first"]> ∅))
          [(Str "first", "en", "ja"); (Str "second", "en", "ja")] [].

(** Three issues, the first and the last of the same assignee. *)
Definition three_issues : dataframe :=
  mkFrame required_columns
    [ [Str "shimizu39"; Str "first"; NaN; Str "api"; Str "Todo";
       NaN; NaN; NaN; NaN];
      [Str "HtetSansen"; Str "second"; NaN; Str "api"; Str "Done";
       NaN; NaN; NaN; NaN];
      [Str "shimizu39"; Str "third"; NaN; Str "web"; Str "Todo";
       NaN; NaN; NaN; NaN] ].

Definition issue (assignee title repository status : string) : report_row :=
  mkRow (Str assignee) (Str title) (Str ("ja:" +:+ title)) (Str "") (Str "")
        (Str repository) (Str status) (Str "") (Str "") (Str "") (Str "").

Definition three_issues_state : state :=
  mkState (<[(Str "third", "en", "ja") := "ja:third"]>
             (<[(Str "second", "en", "ja") := "ja:second"]>
                (<[(Str "first", "en", "ja") := "ja:first"]> ∅)))
          [(Str "first", "en", "ja"); (Str "second", "en", "ja");
           (Str "third", "en", "ja")] [].


(** A table without the [body] column. *)
Definition no_body : dataframe :=
  mkFrame ["Assignees"; "Title"; "Repository"; "Status"]
    [ [Str "shimizu39"; Str "first"; Str "api"; Str "Todo"] ].

Definition read_no_body : string -> string + dataframe :=
  fun _ => inr no_body.

Definition read_nothing : string -> string + dataframe :=
  fun _ => inl "No such file or directory".

(** An upload that sends one request and succeeds. *)
Definition upload_ok : list report_row -> list unit * (pyexc + unit) :=
  fun _ => ([tt], inr tt).

Definition extract (names : list string) : string -> Locator.node :=
  fun path => if String.eqb path "extract" then Locator.Directory names
              else Locator.Missing.

Definition saved : Config.file :=
  Config.JsonObject
    (<["email" := Config.JString "a@example.org"]>
       (<["credential_file" := Config.JString "key.json"]> ∅)).

End Samples.

(** ** More sample data *)

Module MoreSamples.

Import Samples.

Definition three_texts : list cell := [Str ""; Str " "; Str "a"].

Definition three_texts_state : state :=
  mkState (<[(Str "a", "en", "ja") := "ja:a"]> ∅) [(Str "a", "en", "ja")] [].

(** A state in which the translation of [Hello] is cached already. *)
Definition warm_state : state :=
  mkState (<[hello := "konnichiwa"]> ∅) [] [].

Definition today : Locator.datetime := Locator.mkDate 2024 3 15.

(** The working directory of a run: the exported files in [../extract]
    and the key file. *)
Definition disk : string -> Locator.node :=
  fun path =>
    if String.eqb path "../extract" then
      Locator.Directory ["project_2024-03-15.csv"; "project_2024-01-01.csv"]
    else if String.eqb path "key.json" then Locator.RegularFile
    else Locator.Missing.

Definition empty_disk : string -> Locator.node := fun _ => Locator.Missing.

Definition read_two_issues : string -> string + dataframe :=
  fun _ => inr two_issues.

(** A service that accepts everything, and one that rejects the key. *)
Definition ok_service : list Sheets.request -> Sheets.request
                        -> option Sheets.remote_exc :=
  fun _ _ => None.

Definition no_auth : list Sheets.request -> Sheets.request
                     -> option Sheets.remote_exc :=
  fun _ r =>
    match r with
    | Sheets.Authorize _ _ => Some (Sheets.OtherError "invalid key")
    | _ => None
    end.

Definition fresh_world : Sheets.world := Sheets.mkWorld empty_state [] saved.

Definition said : list string :=
  ["Spreadsheet 'project_report' already exists.";
   "Worksheet 'project_2024-03-15' already exists.";
   "Data uploaded successfully!"].

(** The run when the two issues have been published. *)
Definition published_world : Sheets.world :=
  Sheets.mkWorld
    (mkState (cache two_issues_state) (calls two_issues_state) said)
    (Sheets.success_trace "key.json" "project_report" "a@example.org" today
                          [first_issue; second_issue] false false)
    saved.

End MoreSamples.

(** * Properties *)

(** ** Python strings *)

Lemma rstrip_empty s : PyStr.rstrip s = "" <-> PyStr.all_space s = true.
Proof.
  induction s as [|c s IH]; simpl; [done|].
  destruct (PyStr.rstrip s) eqn:Hr, (PyStr.isspace c); simpl; split; try done.
  - intros _. by apply IH.
  - intros Hs. apply IH in Hs. done.
Qed.

Lemma lstrip_all_space s : PyStr.all_space (PyStr.lstrip s) = PyStr.all_space s.
Proof.
  induction s as [|c s IH]; simpl; [done|].
  destruct (PyStr.isspace c) eqn:Hc; simpl; [done|]. by rewrite Hc.
Qed.

(** [s.strip() == ""] exactly when [s] is empty or made of whitespace. *)
Lemma strip_empty s : PyStr.strip s = "" <-> PyStr.all_space s = true.
Proof. unfold PyStr.strip. by rewrite rstrip_empty, lstrip_all_space. Qed.

Lemma has_text_Str s : has_text (Str s) = negb (PyStr.all_space s).
Proof.
  unfold has_text; simpl. destruct (PyStr.all_space s) eqn:Hs; simpl.
  - apply strip_empty in Hs. by rewrite Hs.
  - destruct (String.eqb_spec (PyStr.strip s) "") as [He|]; [|done].
    apply strip_empty in He. congruence.
Qed.

Lemma pretty_N_go_text x s :
  PyStr.all_space s = false -> PyStr.all_space (pretty_N_go x s) = false.
Proof.
  revert s. induction (N.lt_wf_0 x) as [x _ IH]; intros s Hs.
  destruct (decide (x = 0%N)) as [->|Hx]; [by rewrite pretty_N_go_0|].
  rewrite pretty_N_go_step by lia. apply IH; [apply N.div_lt; lia|].
  simpl. by rewrite Hs, andb_false_r.
Qed.

Lemma pretty_Z_text (n : Z) : PyStr.all_space (pretty n) = false.
Proof.
  assert (forall x : N, PyStr.all_space (pretty x) = false) as HN.
  { intros x. unfold pretty, pretty_N. case_decide; [done|].
    rewrite pretty_N_go_step by lia. apply pretty_N_go_text.
    unfold pretty_N_char. by repeat case_match. }
  unfold pretty, pretty_Z. by destruct n as [|p|p]; [|apply HN|].
Qed.

(** A number is not blank. *)
Lemma has_text_Num n : has_text (Num n) = true.
Proof.
  unfold has_text; simpl.
  destruct (String.eqb_spec (PyStr.strip (pretty n)) "") as [He|]; [|done].
  apply strip_empty in He. by rewrite pretty_Z_text in He.
Qed.

(** ** The translation cache *)

Section TranslatorFacts.

Variable provider : list key -> key -> response.

Lemma translate_text_no_text st text src tgt :
  has_text text = false -> translate_text provider st text src tgt = (text, st).
Proof. intros H. unfold translate_text. by rewrite H. Qed.

Lemma translate_text_hit st text src tgt v :
  has_text text = true ->
  cache st !! (text, src, tgt) = Some v ->
  translate_text provider st text src tgt = (Str v, st).
Proof. intros H Hc. unfold translate_text. rewrite H. cbv zeta. by rewrite Hc. Qed.

Lemma translate_text_miss st text src tgt :
  has_text text = true ->
  cache st !! (text, src, tgt) = None ->
  translate_text provider st text src tgt
  = call_provider provider st text (text, src, tgt).
Proof. intros H Hc. unfold translate_text. rewrite H. cbv zeta. by rewrite Hc. Qed.

(** C5. A text that is empty or blank once stripped, or missing, is
    returned as it is, and the state is the same afterwards: no entry is
    added to the cache and the provider is not called. In particular
    [translate_text("", "en", "ja")] returns [""]. *)
Theorem translate_text_blank st s src tgt :
  PyStr.strip s = "" ->
  translate_text provider st (Str s) src tgt = (Str s, st)
  /\ cache (translate_text provider st (Str s) src tgt).2 = cache st
  /\ calls (translate_text provider st (Str s) src tgt).2 = calls st
  /\ translate_text provider st (Str "") "en" "ja" = (Str "", st)
  /\ translate_text provider st NaN src tgt = (NaN, st).
Proof.
  intros Hs.
  assert (translate_text provider st (Str s) src tgt = (Str s, st)) as ->.
  { apply translate_text_no_text. rewrite has_text_Str.
    apply strip_empty in Hs. by rewrite Hs. }
  done.
Qed.

(** C2 (amended). When the text is not blank, its key is not in the cache
    and the provider call raises, [translate_text] returns the text as it
    is, the failure is printed, and the cache is left as it was: the key
    still has no entry. *)
Theorem translate_text_failure st s src tgt e :
  has_text (Str s) = true ->
  cache st !! (Str s, src, tgt) = None ->
  provider (calls st) (Str s, src, tgt) = inr e ->
  (translate_text provider st (Str s) src tgt).1 = Str s
  /\ cache (translate_text provider st (Str s) src tgt).2 = cache st
  /\ cache (translate_text provider st (Str s) src tgt).2 !! (Str s, src, tgt)
     = None
  /\ calls (translate_text provider st (Str s) src tgt).2
     = calls st ++ [(Str s, src, tgt)]
  /\ stdout (translate_text provider st (Str s) src tgt).2
     = stdout st ++ ["Error translating text: " +:+ e].
Proof.
  intros Ht Hc Hp. rewrite translate_text_miss by done.
  unfold call_provider; simpl. by rewrite Hp.
Qed.

(** C4 (amended). For a text that is not blank, when the first of two
    calls with the same arguments does not end in a failure of the
    provider (the key is in the cache already, or the provider answers),
    the two calls ask the provider at most once: the second call asks
    nothing, changes nothing, and returns the value the cache holds, which
    is the value the first call returned. When the provider fails in the
    first call, nothing is stored and the second call asks it again. *)
Theorem translate_text_twice st s src tgt :
  has_text (Str s) = true ->
  let k : key := (Str s, src, tgt) in
  let first := translate_text provider st (Str s) src tgt in
  let second := translate_text provider first.2 (Str s) src tgt in
  ((is_Some (cache st !! k) \/ exists v, provider (calls st) k = inl v) ->
     length (calls second.2) <= length (calls st) + 1
     /\ second.2 = first.2
     /\ second.1 = first.1
     /\ exists v, cache first.2 !! k = Some v /\ second.1 = Str v)
  /\ (forall e, cache st !! k = None -> provider (calls st) k = inr e ->
        calls second.2 = calls st ++ [k] ++ [k]).
Proof.
  intros Ht k first second. split.
  - intros Hok. subst first second k.
    destruct (cache st !! (Str s, src, tgt)) as [v|] eqn:Hc.
    + rewrite (translate_text_hit st (Str s) src tgt v) by done. simpl.
      rewrite (translate_text_hit st (Str s) src tgt v) by done. simpl.
      repeat split; [lia|]. by exists v.
    + destruct Hok as [[? ?]|[v Hv]]; [done|].
      rewrite (translate_text_miss st) by done.
      unfold call_provider; simpl. rewrite Hv; simpl.
      erewrite translate_text_hit; [|done|by simpl; apply lookup_insert_eq].
      simpl. repeat split.
      * rewrite length_app; simpl. lia.
      * exists v. split; [apply lookup_insert_eq|done].
  - intros e Hc Hp. subst first second k.
    rewrite (translate_text_miss st) by done.
    unfold call_provider; simpl. rewrite Hp; simpl.
    rewrite translate_text_miss by done.
    unfold call_provider; simpl.
    destruct (provider (calls st ++ _) _); simpl; by rewrite <- app_assoc.
Qed.

End TranslatorFacts.

(** ** The batch translator *)

Lemma Forall2_insert_r {A B} (P : A -> B -> Prop) (l : list A) (k : list B) i x y :
  Forall2 P l k -> l !! i = Some x -> P x y -> Forall2 P l (<[i:=y]> k).
Proof.
  intros HF. revert i. induction HF as [|a b l k Hab HF IH]; intros i Hi Hxy.
  - done.
  - destruct i as [|i]; simpl in *.
    + injection Hi as ->. by constructor.
    + constructor; [done|]. by apply IH.
Qed.

Section PoolFacts.

Variable provider : list key -> key -> response.
Variables src tgt : string.

Lemma answered_mono st0 st st' k r more :
  calls st' = calls st ++ more ->
  answered provider st0 st k r -> answered provider st0 st' k r.
Proof.
  intros Hc (pre & post & Hpre & Hr). exists pre, (post ++ more).
  split; [|done]. rewrite Hc, Hpre. by rewrite <- !app_assoc.
Qed.

Lemma translation_of_mono st0 st st' x res more :
  calls st' = calls st ++ more ->
  translation_of provider st0 st x src tgt res ->
  translation_of provider st0 st' x src tgt res.
Proof.
  intros Hc. unfold translation_of. destruct (has_text x); [|done].
  intros [(v & -> & [H|H])|(-> & e & H)].
  - left. exists v. by split; [|left].
  - left. exists v. split; [done|]. right. by apply (answered_mono _ _ _ _ _ _ Hc).
  - right. split; [done|]. exists e. by apply (answered_mono _ _ _ _ _ _ Hc).
Qed.

Lemma task_inv_mono st0 st st' x t more :
  calls st' = calls st ++ more ->
  task_inv provider st0 st src tgt x t -> task_inv provider st0 st' src tgt x t.
Proof.
  intros Hc. destruct t as [text|text k r|res]; simpl.
  - done.
  - intros (? & ? & ? & ?). repeat split; try done. by apply (answered_mono _ _ _ _ _ _ Hc).
  - by apply (translation_of_mono _ _ _ _ _ _ Hc).
Qed.

Lemma pool_inv_init st0 inputs :
  pool_inv provider st0 inputs src tgt (Queued <$> inputs, st0).
Proof.
  repeat split; simpl.
  - apply Forall2_fmap_r. by apply Forall_Forall2_diag, Forall_forall.
  - exists []. by rewrite app_nil_r.
  - intros k v Hk. by left.
Qed.

Lemma pool_inv_step st0 inputs p p' :
  pool_inv provider st0 inputs src tgt p ->
  pool_step provider src tgt p p' ->
  pool_inv provider st0 inputs src tgt p'.
Proof.
  intros (HF & (new & Hnew & Hasked) & Hcache) Hstep.
  destruct Hstep as [ts st i text t' st' Hi _ _ Hstart
                    |ts st i text k r res st' Hi Hfin]; simpl in *.
  - destruct (Forall2_lookup_r _ _ _ _ _ HF Hi) as (x & Hx & Hinv).
    simpl in Hinv. subst text.
    unfold start_task in Hstart. destruct (has_text x) eqn:Ht.
    + cbv zeta in Hstart.
      destruct (cache st !! (x, src, tgt)) as [v|] eqn:Hc;
        injection Hstart as <- <-.
      * repeat split; [|by exists new|done].
        eapply Forall2_insert_r; [done..|]. simpl.
        unfold translation_of. rewrite Ht. left. exists v. split; [done|].
        by apply Hcache.
      * set (st' := mkState _ _ _).
        assert (calls st' = calls st ++ [(x, src, tgt)]) as Hc' by done.
        assert (answered provider st0 st' (x, src, tgt)
                         (provider (calls st) (x, src, tgt))) as Hans.
        { exists new, []. split; [|by rewrite Hnew].
          rewrite Hc', Hnew. by rewrite <- app_assoc. }
        repeat split; simpl.
        -- eapply Forall2_insert_r; [|done|by simpl].
           eapply Forall2_impl; [done|]. intros ? ?. by apply (task_inv_mono _ _ _ _ _ _ Hc').
        -- exists (new ++ [(x, src, tgt)]). split.
           ++ rewrite Hnew. by rewrite <- app_assoc.
           ++ apply Forall_app. split; [done|]. apply Forall_singleton.
              exists x. split; [|done]. by eapply list_elem_of_lookup_2.
        -- intros k v Hk. destruct (Hcache k v Hk) as [?|?]; [by left|right].
           by apply (answered_mono _ _ _ _ _ _ Hc').
    + injection Hstart as <- <-. repeat split; [|by exists new|done].
      eapply Forall2_insert_r; [done..|]. simpl.
      unfold translation_of. by rewrite Ht.
  - destruct (Forall2_lookup_r _ _ _ _ _ HF Hi) as (x & Hx & Hinv).
    simpl in Hinv. destruct Hinv as (-> & Ht & -> & Hans).
    unfold finish_task in Hfin.
    destruct r as [v|e]; injection Hfin as <- <-; repeat split; simpl.
    + eapply Forall2_insert_r; [|done|].
      * eapply Forall2_impl; [done|]. intros ? ?.
        apply task_inv_mono with []. simpl. by rewrite app_nil_r.
      * simpl. unfold translation_of. rewrite Ht. left. exists v.
        split; [done|]. right. eapply answered_mono; [|done]. simpl.
        by rewrite app_nil_r.
    + by exists new.
    + intros k v'. rewrite lookup_insert. case_decide as Hk.
      * intros [= <-]. subst k. right. eapply answered_mono; [|done]. simpl.
        by rewrite app_nil_r.
      * intros Hk'. destruct (Hcache k v' Hk') as [?|?]; [by left|right].
        eapply answered_mono; [|done]. simpl. by rewrite app_nil_r.
    + eapply Forall2_insert_r; [|done|].
      * eapply Forall2_impl; [done|]. intros ? ?.
        apply task_inv_mono with []. simpl. by rewrite app_nil_r.
      * simpl. unfold translation_of. rewrite Ht. right. split; [done|].
        exists e. eapply answered_mono; [|done]. simpl. by rewrite app_nil_r.
    + by exists new.
    + intros k v' Hk'. destruct (Hcache k v' Hk') as [?|?]; [by left|right].
      eapply answered_mono; [|done]. simpl. by rewrite app_nil_r.
Qed.

Lemma pool_inv_rtc st0 inputs p :
  rtc (pool_step provider src tgt) (Queued <$> inputs, st0) p ->
  pool_inv provider st0 inputs src tgt p.
Proof.
  intros Hrtc.
  eapply (rtc_ind_r (pool_inv provider st0 inputs src tgt)); [| |exact Hrtc].
  - apply pool_inv_init.
  - intros y z _ Hstep IH. by eapply pool_inv_step.
Qed.

Lemma call_provider_phases st text k :
  call_provider provider st text k
  = finish_task (mkState (cache st) (calls st ++ [k]) (stdout st)) text k
                (provider (calls st) k).
Proof. unfold call_provider, finish_task. by destruct (provider (calls st) k). Qed.

Lemma no_in_flight done rest :
  List.filter in_flight ((Finished <$> done) ++ (Queued <$> rest)) = [].
Proof.
  induction done as [|d done IH]; simpl; [|done].
  induction rest as [|r rest IH]; simpl; done.
Qed.

Lemma insert_middle {A} (l1 l2 : list A) x y :
  <[length l1 := y]> (l1 ++ x :: l2) = l1 ++ y :: l2.
Proof. induction l1 as [|a l1 IH]; simpl; [done|]. by rewrite IH. Qed.

(** Taking the texts one at a time is a schedule of the pool. *)
Lemma sequential_steps rest : forall done st,
  rtc (pool_step provider src tgt)
      ((Finished <$> done) ++ (Queued <$> rest), st)
      (Finished <$> (done ++ (translate_each provider st rest src tgt).1),
       (translate_each provider st rest src tgt).2).
Proof.
  induction rest as [|x rest IH]; intros done st; simpl.
  - rewrite !app_nil_r. apply rtc_refl.
  - destruct (translate_text provider st x src tgt) as [r st1] eqn:Htr.
    specialize (IH (done ++ [r]) st1).
    destruct (translate_each provider st1 rest src tgt) as [rs st2] eqn:Hrest.
    simpl in *. rewrite <- app_assoc in IH. simpl in IH.
    eapply rtc_trans; [|exact IH]. clear IH Hrest.
    rewrite fmap_app, <- app_assoc. simpl.
    set (pre := Finished <$> done). set (post := Queued <$> rest).
    assert (forall t st',
               start_task provider st x src tgt = (t, st') ->
               pool_step provider src tgt (pre ++ Queued x :: post, st)
                         (pre ++ t :: post, st')) as Hstart.
    { intros t st' Hs. rewrite <- (insert_middle pre post (Queued x) t).
      eapply pool_start; [| | |exact Hs].
      - by apply list_lookup_middle.
      - intros j t0 Hj Ht0. rewrite lookup_app_l in Ht0 by done.
        unfold pre in Ht0. rewrite list_lookup_fmap in Ht0.
        destruct (done !! j); by simplify_eq/=.
      - change (Queued x :: post) with (Queued <$> (x :: rest)).
        unfold pre. rewrite no_in_flight. simpl. unfold max_workers. lia. }
    unfold translate_text in Htr. unfold start_task in Hstart.
    destruct (has_text x) eqn:Ht.
    + cbv zeta in Htr, Hstart.
      destruct (cache st !! (x, src, tgt)) as [v|] eqn:Hc.
      * injection Htr as <- <-. apply rtc_once. by apply Hstart.
      * eapply rtc_l; [by apply Hstart|]. apply rtc_once.
        rewrite call_provider_phases in Htr.
        rewrite <- (insert_middle pre post (InFlight x (x, src, tgt)
                     (provider (calls st) (x, src, tgt))) (Finished r)).
        eapply pool_finish; [by apply list_lookup_middle|exact Htr].
    + injection Htr as <- <-. apply rtc_once. by apply Hstart.
Qed.

(** [_batch_translate] returns: the pool has a complete run. *)
Lemma batch_translate_returns st texts :
  batch_translate provider st texts src tgt
                  (sequential_batch provider st texts src tgt).
Proof.
  unfold batch_translate, sequential_batch.
  exact (sequential_steps (batch_input texts) [] st).
Qed.

(** What every complete run of the pool gives. *)
Lemma batch_translate_inv st texts out st' :
  batch_translate provider st texts src tgt (out, st') ->
  Forall2 (fun x r => translation_of provider st st' x src tgt r)
          (batch_input texts) out
  /\ exists new, calls st' = calls st ++ new
                 /\ Forall (asked_for (batch_input texts) src tgt) new.
Proof.
  intros Hrun. apply pool_inv_rtc in Hrun. destruct Hrun as (HF & Hnew & _).
  simpl in *. split; [|done].
  apply (Forall2_fmap_r (B:=task) (A:=cell) Finished) in HF.
  eapply Forall2_impl; [exact HF|]. intros x r H. exact H.
Qed.

Lemma translate_text_translation_of st x r st' :
  translate_text provider st x src tgt = (r, st') ->
  translation_of provider st st' x src tgt r.
Proof.
  unfold translate_text, translation_of. destruct (has_text x) eqn:Ht.
  - cbv zeta. destruct (cache st !! (x, src, tgt)) as [v|] eqn:Hc.
    + intros [= <- <-]. left. exists v. split; [done|by left].
    + unfold call_provider.
      destruct (provider (calls st) (x, src, tgt)) as [v|e] eqn:Hp;
        intros [= <- <-].
      * left. exists v. split; [done|]. right. exists [], []. simpl.
        by rewrite !app_nil_r.
      * right. split; [done|]. exists e, [], []. simpl. by rewrite !app_nil_r.
  - by intros [= <- <-].
Qed.

Lemma batch_input_lookup texts i text :
  texts !! i = Some text ->
  batch_input texts !! i = Some (if has_text text then text else Str "").
Proof. intros H. unfold batch_input. by rewrite list_lookup_fmap, H. Qed.

Lemma asked_for_batch_input texts k :
  asked_for (batch_input texts) src tgt k ->
  has_text (key_text k) = true /\ key_text k ∈ texts.
Proof.
  intros (x & Hx & Ht & ->). unfold batch_input in Hx.
  apply list_elem_of_fmap in Hx as (t & -> & Hin).
  by destruct (has_text t) eqn:Ht'.
Qed.

(** C6 (amended). [_batch_translate] returns, and what it returns has the
    length of the input; its i-th element is a result of [translate_text]
    for the i-th input once a text that is missing, empty or made of
    whitespace has been replaced by the empty string. *)
Theorem batch_translate_elementwise st texts :
  (exists out, batch_translate provider st texts src tgt out)
  /\ forall out st',
      batch_translate provider st texts src tgt (out, st') ->
      length out = length texts
      /\ forall i text, texts !! i = Some text ->
           exists result,
             out !! i = Some result
             /\ translation_of provider st st'
                               (if has_text text then text else Str "")
                               src tgt result.
Proof.
  split; [eexists; apply batch_translate_returns|].
  intros out st' Hrun. apply batch_translate_inv in Hrun as [HF _]. split.
  - apply Forall2_length in HF. unfold batch_input in HF.
    by rewrite length_fmap in HF.
  - intros i text Hi. apply batch_input_lookup in Hi.
    destruct (Forall2_lookup_l _ _ _ _ _ HF Hi) as (r & Hr & Htr). by exists r.
Qed.

(** C1 (amended). In what [_batch_translate] returns, the position of a
    text that is empty or made of whitespace holds the empty string (so an
    empty text is unchanged, and a text of whitespace becomes empty), and
    every call made to the provider is for a text of the input that is not
    blank. *)
Theorem batch_translate_blank st texts out st' :
  batch_translate provider st texts src tgt (out, st') ->
  (forall i s, texts !! i = Some (Str s) -> PyStr.all_space s = true ->
               out !! i = Some (Str ""))
  /\ exists new,
       calls st' = calls st ++ new
       /\ Forall (fun k => has_text (key_text k) = true
                            /\ key_text k ∈ texts) new.
Proof.
  intros Hrun. apply batch_translate_inv in Hrun as [HF (new & Hnew & Hasked)].
  split.
  - intros i s Hi Hs. apply batch_input_lookup in Hi.
    rewrite has_text_Str, Hs in Hi. simpl in Hi.
    destruct (Forall2_lookup_l _ _ _ _ _ HF Hi) as (r & Hr & Htr).
    unfold translation_of in Htr. by rewrite Htr in Hr.
  - exists new. split; [done|].
    eapply Forall_impl; [done|]. intros k. apply asked_for_batch_input.
Qed.

End PoolFacts.

(** ** The latest-file locator *)

Section LocatorFacts.

Import Locator.

Lemma datetime_gt_spec a b :
  datetime_gt a b = true <->
  (year b < year a
   \/ (year a = year b
       /\ (month b < month a \/ (month a = month b /\ day b < day a))))%Z.
Proof.
  unfold datetime_gt.
  rewrite !orb_true_iff, !andb_true_iff, !orb_true_iff, !andb_true_iff.
  rewrite !Z.ltb_lt, !Z.eqb_eq. tauto.
Qed.

Lemma datetime_gt_irrefl a : datetime_gt a a = false.
Proof.
  destruct (datetime_gt a a) eqn:H; [|done].
  apply datetime_gt_spec in H. lia.
Qed.

Lemma datetime_gt_trans a b c :
  datetime_gt a b = true -> datetime_gt b c = true -> datetime_gt a c = true.
Proof. rewrite !datetime_gt_spec. lia. Qed.

Lemma datetime_gt_asym a b : datetime_gt a b = true -> datetime_gt b a = false.
Proof.
  intros H. destruct (datetime_gt b a) eqn:H'; [|done].
  pose proof (datetime_gt_trans _ _ _ H H') as Haa.
  by rewrite datetime_gt_irrefl in Haa.
Qed.

(** The loop of [get_latest_file]: it ends with the variables it started
    from when no file beats [latest_date], and otherwise with a file of the
    listing that beats it and that no file of the listing beats. *)
Lemma scan_spec folder names : forall latest_file latest_date,
  dates_valid names ->
  (scan folder names latest_file latest_date = inr latest_file
   /\ forall f d, f ∈ names -> file_date f = Some d -> beats d latest_date = false)
  \/ exists f d,
      f ∈ names /\ file_date f = Some d /\ beats d latest_date = true
      /\ (forall f' d', f' ∈ names -> file_date f' = Some d' ->
                        datetime_gt d' d = false)
      /\ scan folder names latest_file latest_date = inr (Some (join folder f)).
Proof.
  induction names as [|f names IH]; intros lf ld Hvalid.
  - left. split; [done|]. intros f d Hf. by apply elem_of_nil in Hf.
  - apply Forall_cons in Hvalid as [Hf Hvalid]. simpl.
    destruct (re_search f) as [g|] eqn:Hg.
    + destruct (Hf g eq_refl) as [df Hdf]. rewrite Hdf.
      assert (file_date f = Some df) as Hfd by (unfold file_date; by rewrite Hg).
      destruct (beats df ld) eqn:Hb.
      * right.
        destruct (IH (Some (join folder f)) (Some df) Hvalid)
          as [[Hs Hmax]|(f2 & d2 & Hin & Hd2 & Hb2 & Hmax & Hs)].
        -- exists f, df. repeat split; [by left|done|done| |done].
           intros f' d' [->|Hin]%elem_of_cons Hd'.
           ++ rewrite Hfd in Hd'. injection Hd' as <-. apply datetime_gt_irrefl.
           ++ by apply (Hmax f').
        -- exists f2, d2. simpl in Hb2.
           repeat split; [by right|done| | |done].
           ++ destruct ld as [d0|]; [|done]. simpl in *.
              by apply datetime_gt_trans with df.
           ++ intros f' d' [->|Hin']%elem_of_cons Hd'.
              ** rewrite Hfd in Hd'. injection Hd' as <-.
                 by apply datetime_gt_asym.
              ** by apply (Hmax f').
      * destruct (IH lf ld Hvalid)
          as [[Hs Hmax]|(f2 & d2 & Hin & Hd2 & Hb2 & Hmax & Hs)].
        -- left. split; [done|].
           intros f' d' [->|Hin]%elem_of_cons Hd'.
           ++ rewrite Hfd in Hd'. by injection Hd' as <-.
           ++ by apply (Hmax f').
        -- right. exists f2, d2. repeat split; [by right|done|done| |done].
           intros f' d' [->|Hin']%elem_of_cons Hd'.
           ++ rewrite Hfd in Hd'. injection Hd' as <-.
              destruct ld as [d0|]; [|done]. simpl in *.
              destruct (datetime_gt df d2) eqn:Hgt; [|done].
              by rewrite (datetime_gt_trans _ _ _ Hgt Hb2) in Hb.
           ++ by apply (Hmax f').
    + assert (file_date f = None) as Hfd by (unfold file_date; by rewrite Hg).
      destruct (IH lf ld Hvalid)
        as [[Hs Hmax]|(f2 & d2 & Hin & Hd2 & Hb2 & Hmax & Hs)].
      * left. split; [done|].
        intros f' d' [->|Hin]%elem_of_cons Hd'; [congruence|by apply (Hmax f')].
      * right. exists f2, d2. repeat split; [by right|done|done| |done].
        intros f' d' [->|Hin']%elem_of_cons Hd'; [congruence|by apply (Hmax f')].
Qed.

Lemma scan_invalid folder names f g : forall latest_file latest_date,
  f ∈ names -> re_search f = Some g -> strptime g = None ->
  scan folder names latest_file latest_date = inl ValueError.
Proof.
  induction names as [|f0 names IH]; intros lf ld Hin Hg Hs.
  - by apply elem_of_nil in Hin.
  - simpl. apply elem_of_cons in Hin as [<-|Hin].
    + by rewrite Hg, Hs.
    + destruct (re_search f0) as [g0|]; [|by apply IH].
      destruct (strptime g0) as [d0|]; [|done].
      destruct (beats d0 ld); by apply IH.
Qed.

(** What the pattern captures has the shape [strptime] is modelled on. *)
Lemma match_group_shape s g rest :
  match_atoms pattern_group s = Some (g, rest) ->
  exists y1 y2 y3 y4 m1 m2 d1 d2,
    list_ascii_of_string g
    = [y1; y2; y3; y4; "-"; m1; m2; "-"; d1; d2]%char
    /\ forallb is_digit [y1; y2; y3; y4; m1; m2; d1; d2] = true.
Proof.
  unfold pattern_group.
  repeat (cbn [match_atoms atom_matches];
          destruct s as [|? s]; [done|];
          match goal with
          | |- context [if ?b then _ else _] =>
              let E := fresh "E" in destruct b eqn:E; [|done]
          end).
  cbn [match_atoms]. intros [= <- <-].
  repeat match goal with
         | H : Ascii.eqb _ _ = true |- _ => apply Ascii.eqb_eq in H; subst
         end.
  do 8 eexists. split; [done|]. cbn [forallb].
  repeat match goal with H : is_digit _ = true |- _ => rewrite H; clear H end.
  done.
Qed.

Lemma re_search_shape filename g :
  re_search filename = Some g ->
  exists y1 y2 y3 y4 m1 m2 d1 d2,
    list_ascii_of_string g
    = [y1; y2; y3; y4; "-"; m1; m2; "-"; d1; d2]%char
    /\ forallb is_digit [y1; y2; y3; y4; m1; m2; d1; d2] = true.
Proof.
  assert (forall s, match_here s = Some g ->
            exists y1 y2 y3 y4 m1 m2 d1 d2,
              list_ascii_of_string g
              = [y1; y2; y3; y4; "-"; m1; m2; "-"; d1; d2]%char
              /\ forallb is_digit [y1; y2; y3; y4; m1; m2; d1; d2] = true) as Hhere.
  { intros s. unfold match_here.
    destruct (match_atoms pattern_head s) as [[? s1]|]; [|done].
    destruct (match_atoms pattern_group s1) as [[g' s2]|] eqn:Hg; [|done].
    destruct (match_atoms pattern_tail s2); [|done].
    intros [= ->]. by eapply match_group_shape. }
  induction filename as [|c filename IH]; cbn [re_search].
  - destruct (match_here EmptyString) eqn:Hm; [|done].
    intros [= ->]. by eapply Hhere.
  - destruct (match_here (String c filename)) eqn:Hm; [|done].
    intros [= ->]. by eapply Hhere.
Qed.

(** C7 (amended). When the folder does not exist, [get_latest_file]
    returns [None]. When it is a directory in which every name that matches
    the pattern embeds a date that exists: if no name matches, it returns
    [None]; otherwise it returns the path of a name of the listing whose
    embedded date no other matching name exceeds. No exception is raised in
    these cases. *)
Theorem get_latest_file_latest fs folder_path :
  (fs folder_path = Missing ->
   (get_latest_file fs folder_path).2 = inr None)
  /\ forall names,
      fs folder_path = Directory names ->
      dates_valid names ->
      (Forall (fun f => re_search f = None) names ->
       (get_latest_file fs folder_path).2 = inr None)
      /\ (Exists (fun f => is_Some (re_search f)) names ->
          exists f d,
            f ∈ names /\ file_date f = Some d
            /\ (forall f' d', f' ∈ names -> file_date f' = Some d' ->
                              datetime_gt d' d = false)
            /\ (get_latest_file fs folder_path).2
               = inr (Some (join folder_path f))).
Proof.
  split.
  - intros H. unfold get_latest_file. by rewrite H.
  - intros names H Hvalid. unfold get_latest_file. rewrite H.
    destruct (scan_spec folder_path names None None Hvalid)
      as [[Hs Hmax]|(f & d & Hin & Hd & _ & Hmax & Hs)]; rewrite Hs; simpl.
    + split; [done|]. intros (f & Hin & [g Hg])%Exists_exists.
      unfold dates_valid in Hvalid. rewrite Forall_forall in Hvalid.
      destruct (Hvalid f Hin g Hg) as [d Hd].
      assert (file_date f = Some d) as Hfd by (unfold file_date; by rewrite Hg).
      by specialize (Hmax f d Hin Hfd).
    + split.
      * intros Hnone. rewrite Forall_forall in Hnone.
        unfold file_date in Hd. by rewrite (Hnone f Hin) in Hd.
      * intros _. by exists f, d.
Qed.

(** C9. Whenever the listing of the directory has a name that matches the
    pattern and embeds a date that does not exist, such as
    [project_2024-13-01.csv], [get_latest_file] raises the [ValueError] of
    [strptime] instead of returning a path or [None]. *)
Theorem get_latest_file_invalid_date fs folder_path names f g :
  fs folder_path = Directory names ->
  f ∈ names ->
  re_search f = Some g ->
  strptime g = None ->
  get_latest_file fs folder_path = ([], inl ValueError).
Proof.
  intros H Hin Hg Hs. unfold get_latest_file. rewrite H.
  by rewrite (scan_invalid folder_path names f g None None Hin Hg Hs).
Qed.

End LocatorFacts.

(** ** The configuration store *)

Section ConfigFacts.

Import Config.

Lemma stored_save f email credential_file label :
  (label = "email" -> truthy email = false) ->
  (label = "credential_file" -> truthy credential_file = false) ->
  stored (save_config f email credential_file).1.2 label = stored f label.
Proof.
  intros He Hc. unfold save_config, stored.
  destruct (load_config f) as [e|config] eqn:Hl; simpl; [by rewrite Hl|].
  f_equal. unfold store.
  assert (truthy email = true -> "email" <> label) as Hne1.
  { intros Ht <-. specialize (He eq_refl). congruence. }
  assert (truthy credential_file = true -> "credential_file" <> label) as Hne2.
  { intros Ht <-. specialize (Hc eq_refl). congruence. }
  destruct (truthy credential_file), (truthy email);
    rewrite ?lookup_insert_ne by auto; done.
Qed.

(** C10. [save_config] leaves the stored [credential_file] as it was when
    the [credential_file] argument is [None] or the empty string, whatever
    the [email] argument, and leaves the stored [email] as it was when the
    [email] argument is [None] or the empty string; every other field is
    kept as well. So a call with an email only keeps the credential file
    and a call with a credential file only keeps the email. *)
Theorem save_config_frame f email credential_file :
  (truthy credential_file = false ->
   stored (save_config f email credential_file).1.2 "credential_file"
   = stored f "credential_file")
  /\ (truthy email = false ->
      stored (save_config f email credential_file).1.2 "email"
      = stored f "email")
  /\ stored (save_config f email None).1.2 "credential_file"
     = stored f "credential_file"
  /\ stored (save_config f None credential_file).1.2 "email"
     = stored f "email"
  /\ (forall label, label <> "email" -> label <> "credential_file" ->
      stored (save_config f email credential_file).1.2 label = stored f label).
Proof.
  repeat split; intros; by apply stored_save.
Qed.

End ConfigFacts.

(** ** The table processor *)


Lemma cell_leb_total a b : cell_leb a b = true \/ cell_leb b a = true.
Proof.
  destruct a as [|x|x], b as [|y|y]; simpl; auto.
  - apply String.leb_total.
  - destruct (Z.leb_spec x y); [by left|right]. apply Z.leb_le. lia.
Qed.


#[global] Instance by_assignee_total : Total by_assignee.
Proof. intros r1 r2. apply cell_leb_total. Qed.


Lemma bind_inr {A B} (m : M A) (f : A -> M B) st x st' :
  m st = (inr x, st') -> (m ≫= f) st = f x st'.
Proof. intros H. unfold mbind, M_bind. by rewrite H. Qed.

Lemma bind_inl {A B} (m : M A) (f : A -> M B) st e st' :
  m st = (inl e, st') -> (m ≫= f) st = (inl e, st').
Proof. intros H. unfold mbind, M_bind. by rewrite H. Qed.

Lemma column_present df label :
  label ∈ columns df ->
  exists col, length col = length (values df)
              /\ forall st, column df label st = (inr col, st).
Proof.
  intros Hin. unfold column.
  destruct (list_find_elem_of (fun c => c = label) (columns df) label Hin eq_refl)
    as [[i c] Hfind].
  rewrite Hfind. eexists. split; [|done]. by rewrite length_fmap.
Qed.

Lemma column_missing df label st :
  label ∉ columns df -> column df label st = (inl (KeyError label), st).
Proof.
  intros Hnin. unfold column.
  destruct (list_find (fun c => c = label) (columns df)) as [[i c]|] eqn:Hfind;
    [|done].
  apply list_find_Some in Hfind as (Hi & -> & _).
  exfalso. apply Hnin. by eapply list_elem_of_lookup_2.
Qed.

Lemma lift_run {A} (f : state -> A * state) st :
  lift f st = (inr (f st).1, (f st).2).
Proof. unfold lift. by destruct (f st). Qed.

Lemma list_column_ok n col st :
  length col = n -> list_column n col st = (inr col, st).
Proof. intros H. unfold list_column. by rewrite decide_True. Qed.

(** *** Sorting by assignee *)












Lemma filter_notna_filled l : List.filter notna (fill <$> l) = fill <$> l.
Proof.
  induction l as [|c l IH]; [done|]. cbn [fmap list_fmap List.filter].
  rewrite IH. by destruct c.
Qed.

Lemma filled_key_kind c :
  let c' := fill (match c with
                  | Str s => match name_replacements !! s with
                             | Some s' => Str s'
                             | None => c
                             end
                  | _ => c
                  end) in
  is_str c' = negb (is_num c) /\ is_num c' = is_num c.
Proof. destruct c as [|s|n]; simpl; try done. by destruct (name_replacements !! s). Qed.

Lemma filled_keys_str col :
  forallb is_str (fill <$> replace name_replacements col) = no_number col.
Proof.
  unfold replace, no_number. induction col as [|c col IH]; [done|].
  cbn [fmap list_fmap forallb]. rewrite <- IH. f_equal. apply filled_key_kind.
Qed.

Lemma filled_keys_num col :
  forallb is_num (fill <$> replace name_replacements col) = forallb is_num col.
Proof.
  unfold replace. induction col as [|c col IH]; [done|].
  cbn [fmap list_fmap forallb]. rewrite <- IH. f_equal. apply filled_key_kind.
Qed.

(** The keys once the assignees are renamed and the missing ones filled. *)
Lemma filled_keys col :
  comparable (fill <$> replace name_replacements col) = one_kind col
  /\ forallb is_str (fill <$> replace name_replacements col) = no_number col.
Proof.
  split; [|apply filled_keys_str]. unfold comparable, one_kind.
  by rewrite filter_notna_filled, filled_keys_str, filled_keys_num.
Qed.

Lemma frame_rows_field (field : report_row -> cell)
      (pick : list cell -> list cell -> list cell -> list cell -> list cell ->
              list cell -> list cell -> list cell -> list cell -> list cell ->
              list cell -> list cell)
      c1 c2 c3 c4 c5 c6 c7 c8 c9 c10 c11 :
  (forall i a, c1 !! i = Some a ->
     Some (field (mkRow a (c2 !!! i) (c3 !!! i) (c4 !!! i) (c5 !!! i)
                        (c6 !!! i) (c7 !!! i) (c8 !!! i) (c9 !!! i)
                        (c10 !!! i) (c11 !!! i)))
     = pick c1 c2 c3 c4 c5 c6 c7 c8 c9 c10 c11 !! i) ->
  length (pick c1 c2 c3 c4 c5 c6 c7 c8 c9 c10 c11) = length c1 ->
  field <$> frame_rows c1 c2 c3 c4 c5 c6 c7 c8 c9 c10 c11
  = pick c1 c2 c3 c4 c5 c6 c7 c8 c9 c10 c11.
Proof.
  intros Hpick Hlen. apply list_eq. intros i.
  unfold frame_rows. rewrite list_lookup_fmap, list_lookup_imap.
  destruct (c1 !! i) as [a|] eqn:Hi; simpl.
  - by apply Hpick.
  - symmetry. apply lookup_ge_None. apply lookup_ge_None in Hi. lia.
Qed.

Lemma fillna_field (field : report_row -> cell) rows :
  (forall r, field (mkRow (fill (Assignees r)) (fill (Title r))
                          (fill (Title_ja r)) (fill (body r))
                          (fill (body_ja r)) (fill (Repository r))
                          (fill (Status r)) (fill (plan_start r))
                          (fill (plan_finish r)) (fill (real_start r))
                          (fill (real_finish r)))
             = fill (field r)) ->
  field <$> fillna rows = fill <$> (field <$> rows).
Proof.
  intros H. unfold fillna. rewrite <- !list_fmap_compose.
  apply list_fmap_ext. intros i r _. simpl. apply H.
Qed.

Lemma sort_by_assignees_inv sort_values rows st sorted st' :
  sort_by_assignees sort_values rows st = (inr sorted, st') ->
  comparable (Assignees <$> rows) = true
  /\ sorted = sort_values rows /\ st' = st.
Proof.
  unfold sort_by_assignees. destruct (comparable _); [|done].
  by intros [= <- <-].
Qed.

Section PipelineFacts.

Variable provider : list key -> key -> response.
Variable pool : state -> list cell -> string -> string -> list cell * state.

(** The pool follows one of its schedules. *)
Hypothesis pool_runs : forall st texts src tgt,
  batch_translate provider st texts src tgt (pool st texts src tgt).

Lemma pool_length st texts src tgt :
  length (pool st texts src tgt).1 = length texts.
Proof.
  pose proof (pool_runs st texts src tgt) as Hrun.
  destruct (pool st texts src tgt) as [out st'].
  apply batch_translate_inv in Hrun as [HF _]. apply Forall2_length in HF.
  unfold batch_input in HF. by rewrite length_fmap in HF.
Qed.

Ltac present label Hsub H :=
  let Hin := fresh "Hin" in
  assert (label ∈ columns _) as Hin
      by (apply Hsub; unfold required_columns; set_solver);
  let col := fresh "col" in
  let Hlen := fresh "Hlen" in
  let Hcol := fresh "Hcol" in
  destruct (column_present _ label Hin) as (col & Hlen & Hcol);
  rewrite (bind_inr _ _ _ _ _ (Hcol _)) in H.

Ltac translated H :=
  rewrite (bind_inr _ _ _ _ _ (lift_run _ _)) in H;
  erewrite bind_inr in H;
  [|apply list_column_ok; unfold replace;
    rewrite pool_length, ?length_fmap; congruence].

(** Sorting is the last thing [process_data] does. *)
Lemma process_data_sort sort_values df st :
  process_data pool sort_values df st
  = match before_sort pool df st with
    | (inr rows, st') => sort_by_assignees sort_values rows st'
    | (inl e, st') => (inl e, st')
    end.
Proof.
  unfold process_data, mbind, M_bind.
  by destruct (before_sort pool df st) as [[?|?] ?].
Qed.

(** With the columns it reads, [process_data] gets to line 173 with one
    row for each row read, whose key is the renamed assignee. *)
Lemma before_sort_run df st :
  required_columns ⊆ columns df ->
  exists unsorted st' col,
    before_sort pool df st = (inr unsorted, st')
    /\ length unsorted = length (values df)
    /\ is_column df "Assignees" col
    /\ Assignees <$> unsorted = fill <$> replace name_replacements col.
Proof.
  intros Hsub. destruct (before_sort pool df st) as [r st'] eqn:Hrun.
  unfold before_sort in Hrun.
  present "Assignees" Hsub Hrun. present "Title" Hsub Hrun.
  translated Hrun.
  present "body" Hsub Hrun. translated Hrun.
  present "Repository" Hsub Hrun. present "Status" Hsub Hrun.
  present "plan start" Hsub Hrun. present "plan finish" Hsub Hrun.
  present "real start" Hsub Hrun. present "real finish" Hsub Hrun.
  injection Hrun as <- <-. eexists _, _, col. split; [done|].
  split; [|split; [done|]].
  - unfold fillna, frame_rows, replace.
    by rewrite length_fmap, length_imap, length_fmap.
  - rewrite fillna_field by done. f_equal.
    by apply (frame_rows_field Assignees (fun a _ _ _ _ _ _ _ _ _ _ => a)).
Qed.

(** Without a number among its assignees, or with numbers only,
    [process_data] gets through the sort. *)
Lemma before_sort_comparable df st unsorted st' col :
  before_sort pool df st = (inr unsorted, st') ->
  required_columns ⊆ columns df ->
  is_column df "Assignees" col ->
  comparable (Assignees <$> unsorted) = one_kind col
  /\ forallb is_str (Assignees <$> unsorted) = no_number col.
Proof.
  intros Hrun Hsub Hcol.
  destruct (before_sort_run df st Hsub)
    as (unsorted' & st1 & col' & Hrun' & _ & Hcol' & Hkeys).
  rewrite Hrun in Hrun'. injection Hrun' as <- <-.
  pose proof (Hcol empty_state) as H1. rewrite (Hcol' empty_state) in H1.
  injection H1 as ->. rewrite Hkeys. apply filled_keys.
Qed.

(** With a [str] and a number among the keys, the sort raises. *)
Lemma process_data_type_error sort_values df st col :
  required_columns ⊆ columns df ->
  is_column df "Assignees" col ->
  one_kind col = false ->
  exists st', process_data pool sort_values df st = (inl TypeError, st').
Proof.
  intros Hsub Hcol Hkind.
  destruct (before_sort_run df st Hsub)
    as (unsorted & st' & col' & Hrun & _ & _ & _).
  destruct (before_sort_comparable df st unsorted st' col Hrun Hsub Hcol)
    as [Hcmp _].
  exists st'. rewrite process_data_sort, Hrun. unfold sort_by_assignees.
  by rewrite Hcmp, Hkind.
Qed.


Ltac subset_of_present :=
  let l := fresh "l" in
  let Hl := fresh "Hl" in
  intros l Hl; vm_compute in Hl;
  repeat (apply elem_of_cons in Hl as [->|Hl]; [assumption|]);
  by apply elem_of_nil in Hl.

Ltac check df n label H :=
  let Hin := fresh "Hin" in
  destruct (decide (label ∈ columns df)) as [Hin|Hin];
  [ let col := fresh "col" in
    let Hlen := fresh "Hlen" in
    let Hcol := fresh "Hcol" in
    destruct (column_present df label Hin) as (col & Hlen & Hcol);
    rewrite (bind_inr _ _ _ _ _ (Hcol _)) in H
  | rewrite (bind_inl _ _ _ _ _ (column_missing df label _ Hin)) in H;
    simplify_eq;
    exists (take n required_columns), label, (drop (S n) required_columns);
    eexists; repeat split; [by subset_of_present|done] ].

(** Without one of the columns it reads, [process_data] raises the
    [KeyError] of the first one that is missing. *)
Lemma process_data_missing sort_values df st :
  ~ (required_columns ⊆ columns df) ->
  exists pre label post st',
    required_columns = pre ++ label :: post
    /\ (pre ⊆ columns df)
    /\ (label ∉ columns df)
    /\ process_data pool sort_values df st = (inl (KeyError label), st').
Proof.
  intros Hsub. rewrite process_data_sort.
  destruct (before_sort pool df st) as [r st'] eqn:Hrun.
  unfold before_sort in Hrun.
  check df 0 "Assignees" Hrun. check df 1 "Title" Hrun. translated Hrun.
  check df 2 "body" Hrun. translated Hrun.
  check df 3 "Repository" Hrun. check df 4 "Status" Hrun.
  check df 5 "plan start" Hrun. check df 6 "plan finish" Hrun.
  check df 7 "real start" Hrun. check df 8 "real finish" Hrun.
  exfalso. apply Hsub. by subset_of_present.
Qed.

(** C8. When the CSV file cannot be read, [generate_report] prints the
    error and exits with status 1. When the table read lacks one of the
    columns [process_data] reads, the run ends with the [KeyError] naming
    the first missing column, and the status is 1. In both cases nothing is
    sent to the spreadsheet service. *)
Theorem generate_report_fatal sort_values read_csv request
        (upload : list report_row -> list request * (pyexc + unit)) csv_file st :
  (forall e, read_csv csv_file = inl e ->
     generate_report pool sort_values read_csv request upload csv_file st
     = (inl (SystemExit 1),
        mkState (cache st) (calls st)
                (stdout st ++ ["Error loading CSV file: " +:+ e]),
        [])
     /\ exit_status (inl (SystemExit 1)) = 1%Z)
  /\ (forall df, read_csv csv_file = inr df ->
       ~ (required_columns ⊆ columns df) ->
       exists pre label post st',
         required_columns = pre ++ label :: post
         /\ (pre ⊆ columns df)
         /\ (label ∉ columns df)
         /\ generate_report pool sort_values read_csv request upload csv_file st
            = (inl (KeyError label), st', [])
         /\ exit_status (inl (KeyError label)) = 1%Z).
Proof.
  split.
  - intros e He. split; [|done].
    unfold generate_report, load_data. by rewrite He.
  - intros df Hdf Hsub.
    destruct (process_data_missing sort_values df st Hsub)
      as (pre & label & post & st' & Hreq & Hpre & Hlabel & Hrun).
    exists pre, label, post, st'. repeat split; try done.
    unfold generate_report, load_data. rewrite Hdf.
    erewrite bind_inr by done. by rewrite Hrun.
Qed.

End PipelineFacts.

(** ** Instances *)

Section Instances.

Import Samples.

Example translate_hello :
  translate_text ja_provider empty_state (Str "Hello") "en" "ja"
  = (Str "ja:Hello", mkState {[ hello := "ja:Hello" ]} [hello] []).
Proof. vm_compute. reflexivity. Qed.

Example batch_blank :
  sequential_batch ja_provider empty_state [Str "  "; NaN; Str "a"] "en" "ja"
  = ([Str ""; Str ""; Str "ja:a"],
     mkState {[ (Str "a", "en", "ja") := "ja:a" ]} [(Str "a", "en", "ja")] []).
Proof. vm_compute. reflexivity. Qed.

Example process_three_issues :
  before_sort (sequential_batch ja_provider) three_issues empty_state
  = (inr [issue "Prashanti" "first" "api" "Todo";
          issue "Htet" "second" "api" "Done";
          issue "Prashanti" "third" "web" "Todo"], three_issues_state)
  /\ process_data (sequential_batch ja_provider) (quicksort_rows merge_rows)
                  three_issues empty_state
     = (inr [issue "Htet" "second" "api" "Done";
             issue "Prashanti" "first" "api" "Todo";
             issue "Prashanti" "third" "web" "Todo"], three_issues_state).
Proof. split; vm_compute; reflexivity. Qed.

Example locate_three :
  Locator.get_latest_file
    (extract ["project_2024-01-01.csv"; "project_2024-03-15.csv"; "notes.txt";
              "project_2023-12-31.csv"]) "extract"
  = ([], inr (Some "extract/project_2024-03-15.csv")).
Proof. reflexivity. Qed.

Example locate_leap :
  Locator.strptime "2024-02-29" = Some (Locator.mkDate 2024 2 29)
  /\ Locator.strptime "2023-02-29" = None
  /\ Locator.strptime "1900-02-29" = None
  /\ Locator.strptime "0000-01-01" = None.
Proof. repeat split; reflexivity. Qed.

Example rename_assignees :
  replace name_replacements [Str "dhanukakarunasena"; Str "unknown_user"; NaN]
  = [Str "Dhanuka"; Str "unknown_user"; NaN].
Proof. vm_compute. reflexivity. Qed.

Example process_two_issues :
  process_data (sequential_batch ja_provider) merge_rows two_issues empty_state
  = (inr [first_issue; second_issue], two_issues_state).
Proof. vm_compute. reflexivity. Qed.

End Instances.

(** ** The theorems at work *)

Section Witnesses.

Import Samples.

Lemma translate_text_blank_witness :
  PyStr.strip "  " = ""
  /\ translate_text ja_provider empty_state (Str "  ") "en" "ja"
     = (Str "  ", empty_state).
Proof.
  split; [reflexivity|].
  apply (translate_text_blank ja_provider empty_state "  " "en" "ja").
  reflexivity.
Defined.

Lemma translate_text_failure_witness :
  has_text (Str "Hello") = true
  /\ cache empty_state !! hello = None
  /\ down_provider (calls empty_state) hello = inr "connection refused"
  /\ (translate_text down_provider empty_state (Str "Hello") "en" "ja").1
     = Str "Hello"
  /\ cache (translate_text down_provider empty_state (Str "Hello") "en" "ja").2
     = cache empty_state.
Proof.
  split; [reflexivity|]. split; [reflexivity|]. split; [reflexivity|].
  destruct (translate_text_failure down_provider empty_state "Hello" "en" "ja"
              "connection refused" eq_refl eq_refl eq_refl)
    as (H1 & H2 & _).
  split; [exact H1|exact H2].
Defined.

(** C2, as stated, fails: after a failed call the cache has no entry for
    the key, so it does not hold the original text. *)
Lemma failed_call_not_cached :
  has_text (Str "Hello") = true
  /\ down_provider [] hello = inr "connection refused"
  /\ translate_text down_provider empty_state (Str "Hello") "en" "ja"
     = (Str "Hello",
        mkState ∅ [hello] ["Error translating text: connection refused"])
  /\ cache (translate_text down_provider empty_state (Str "Hello") "en" "ja").2
       !! hello <> Some "Hello".
Proof. repeat split; try reflexivity. vm_compute. discriminate. Qed.

Lemma translate_text_twice_witness :
  has_text (Str "Hello") = true
  /\ (exists v, ja_provider (calls empty_state) hello = inl v)
  /\ (translate_text ja_provider
        (translate_text ja_provider empty_state (Str "Hello") "en" "ja").2
        (Str "Hello") "en" "ja").2
     = (translate_text ja_provider empty_state (Str "Hello") "en" "ja").2.
Proof.
  split; [reflexivity|]. split; [by eexists|].
  destruct (translate_text_twice ja_provider empty_state "Hello" "en" "ja"
              eq_refl) as [Hok _].
  destruct Hok as (_ & Hsame & _); [right; by eexists|]. exact Hsame.
Defined.

(** C4, as stated, fails: when the provider is down, two calls with the
    same arguments ask it twice. *)
Lemma down_provider_asked_twice :
  has_text (Str "Hello") = true
  /\ calls (translate_text down_provider
              (translate_text down_provider empty_state (Str "Hello") "en" "ja").2
              (Str "Hello") "en" "ja").2
     = [hello; hello].
Proof. split; reflexivity. Qed.

Lemma batch_translate_blank_witness :
  batch_translate ja_provider empty_state [Str ""; Str " "; Str "a"] "en" "ja"
    ([Str ""; Str ""; Str "ja:a"],
     mkState {[ (Str "a", "en", "ja") := "ja:a" ]} [(Str "a", "en", "ja")] [])
  /\ forall i s, [Str ""; Str " "; Str "a"] !! i = Some (Str s) ->
                 PyStr.all_space s = true ->
                 [Str ""; Str ""; Str "ja:a"] !! i = Some (Str "").
Proof.
  assert (batch_translate ja_provider empty_state [Str ""; Str " "; Str "a"]
            "en" "ja"
            ([Str ""; Str ""; Str "ja:a"],
             mkState {[ (Str "a", "en", "ja") := "ja:a" ]} [(Str "a", "en", "ja")] []))
    as Hrun.
  { assert (sequential_batch ja_provider empty_state
              [Str ""; Str " "; Str "a"] "en" "ja"
            = ([Str ""; Str ""; Str "ja:a"],
               mkState {[ (Str "a", "en", "ja") := "ja:a" ]} [(Str "a", "en", "ja")] []))
      as <- by (vm_compute; reflexivity).
    apply batch_translate_returns. }
  split; [exact Hrun|].
  exact (proj1 (batch_translate_blank ja_provider "en" "ja" _ _ _ _ Hrun)).
Defined.

(** C1, as stated, fails: a text made of whitespace does not come out
    unchanged, it comes out empty. *)
Lemma batch_translate_whitespace_emptied :
  PyStr.all_space "  " = true
  /\ batch_translate ja_provider empty_state [Str "  "] "en" "ja"
                     ([Str ""], empty_state)
  /\ [Str ""] !! 0 <> Some (Str "  ").
Proof.
  split; [reflexivity|]. split; [|discriminate].
  exact (batch_translate_returns ja_provider "en" "ja" empty_state [Str "  "]).
Qed.

Lemma batch_translate_elementwise_witness :
  batch_translate ja_provider empty_state [NaN; Str "a"] "en" "ja"
    (sequential_batch ja_provider empty_state [NaN; Str "a"] "en" "ja")
  /\ length (sequential_batch ja_provider empty_state [NaN; Str "a"] "en" "ja").1
     = length [NaN; Str "a"].
Proof.
  split; [apply batch_translate_returns|].
  destruct (sequential_batch ja_provider empty_state [NaN; Str "a"] "en" "ja")
    as [out st'] eqn:Hseq.
  apply (proj2 (batch_translate_elementwise ja_provider "en" "ja" empty_state
                  [NaN; Str "a"]) out st').
  rewrite <- Hseq. apply batch_translate_returns.
Defined.

(** C6, as stated, fails: for a text made of whitespace the batch gives
    the empty string, which is not what [translate_text] gives for it. *)
Lemma batch_translate_not_elementwise :
  batch_translate ja_provider empty_state [Str "  "] "en" "ja"
                  ([Str ""], empty_state)
  /\ translate_text ja_provider empty_state (Str "  ") "en" "ja"
     = (Str "  ", empty_state)
  /\ [Str ""] !! 0 <> Some (Str "  ").
Proof.
  split; [|split; [reflexivity|discriminate]].
  exact (batch_translate_returns ja_provider "en" "ja" empty_state [Str "  "]).
Qed.

Lemma get_latest_file_latest_witness :
  extract ["project_2024-01-01.csv"; "project_2024-03-15.csv"; "notes.txt"]
          "extract"
  = Locator.Directory
      ["project_2024-01-01.csv"; "project_2024-03-15.csv"; "notes.txt"]
  /\ Locator.dates_valid
       ["project_2024-01-01.csv"; "project_2024-03-15.csv"; "notes.txt"]
  /\ exists f d,
       Locator.file_date f = Some d
       /\ (Locator.get_latest_file
            (extract ["project_2024-01-01.csv"; "project_2024-03-15.csv";
                      "notes.txt"]) "extract").2
          = inr (Some (Locator.join "extract" f)).
Proof.
  assert (Locator.dates_valid
            ["project_2024-01-01.csv"; "project_2024-03-15.csv"; "notes.txt"])
    as Hvalid.
  { repeat constructor; intros g Hg; vm_compute in Hg;
      try discriminate; injection Hg as <-; by eexists. }
  split; [reflexivity|]. split; [exact Hvalid|].
  destruct (proj2 (get_latest_file_latest
                     (extract ["project_2024-01-01.csv";
                               "project_2024-03-15.csv"; "notes.txt"])
                     "extract") _ eq_refl Hvalid) as [_ Hsome].
  destruct Hsome as (f & d & _ & Hd & _ & Hres).
  - apply Exists_cons_hd. by eexists.
  - by exists f, d.
Defined.

(** C7, as stated, fails: in a directory where a name matches the pattern
    but embeds a date that does not exist, neither a path nor [None] is
    returned. *)
Lemma get_latest_file_raises :
  Locator.re_search "project_2024-01-01.csv" = Some "2024-01-01"
  /\ Locator.re_search "project_2024-02-30.csv" = Some "2024-02-30"
  /\ Locator.get_latest_file
       (extract ["project_2024-01-01.csv"; "project_2024-02-30.csv"]) "extract"
     = ([], inl ValueError).
Proof. repeat split; reflexivity. Qed.

Lemma get_latest_file_invalid_date_witness :
  extract ["project_2024-13-01.csv"] "extract"
  = Locator.Directory ["project_2024-13-01.csv"]
  /\ "project_2024-13-01.csv" ∈ ["project_2024-13-01.csv"]
  /\ Locator.re_search "project_2024-13-01.csv" = Some "2024-13-01"
  /\ Locator.strptime "2024-13-01" = None
  /\ Locator.get_latest_file (extract ["project_2024-13-01.csv"]) "extract"
     = ([], inl ValueError).
Proof.
  split; [reflexivity|]. split; [by left|]. split; [reflexivity|].
  split; [reflexivity|].
  apply (get_latest_file_invalid_date (extract ["project_2024-13-01.csv"])
           "extract" ["project_2024-13-01.csv"] "project_2024-13-01.csv"
           "2024-13-01");
    [reflexivity|by left|reflexivity|reflexivity].
Defined.

Lemma save_config_frame_witness :
  Config.truthy (Some "") = false
  /\ Config.stored
       (Config.save_config saved (Some "b@example.org") (Some "")).1.2
       "credential_file"
     = Some (Some (Config.JString "key.json")).
Proof.
  split; [reflexivity|].
  rewrite (proj1 (save_config_frame saved (Some "b@example.org") (Some ""))
                 eq_refl).
  reflexivity.
Defined.



Lemma generate_report_fatal_witness :
  (forall st texts src tgt,
     batch_translate ja_provider st texts src tgt
                     (sequential_batch ja_provider st texts src tgt))
  /\ read_no_body "project_2024-03-15.csv" = inr no_body
  /\ ~ (required_columns ⊆ columns no_body)
  /\ exists label st',
       (label ∉ columns no_body)
       /\ generate_report (sequential_batch ja_provider) merge_rows
                          read_no_body unit upload_ok
                          "project_2024-03-15.csv" empty_state
          = (inl (KeyError label), st', []).
Proof.
  assert (forall st texts src tgt,
            batch_translate ja_provider st texts src tgt
                            (sequential_batch ja_provider st texts src tgt))
    as Hpool by (intros; apply batch_translate_returns).
  assert (~ (required_columns ⊆ columns no_body)) as Hsub.
  { intros H. assert ("body" ∈ columns no_body) as Hin.
    { apply H. unfold required_columns. do 2 right. by left. }
    vm_compute in Hin.
    repeat (apply elem_of_cons in Hin as [Hin|Hin]; [discriminate|]).
    by apply elem_of_nil in Hin. }
  split; [exact Hpool|]. split; [reflexivity|]. split; [exact Hsub|].
  destruct (proj2 (generate_report_fatal ja_provider
                     (sequential_batch ja_provider) Hpool merge_rows
                     read_no_body unit upload_ok "project_2024-03-15.csv"
                     empty_state) no_body eq_refl Hsub)
    as (pre & label & post & st' & _ & _ & Hlabel & Hrun & _).
  by exists label, st'.
Defined.

Example report_without_body :
  generate_report (sequential_batch ja_provider) merge_rows read_no_body unit
                  upload_ok "project_2024-03-15.csv" empty_state
  = (inl (KeyError "body"),
     mkState {[ (Str "first", "en", "ja") := "ja:first" ]}
             [(Str "first", "en", "ja")] [],
     []).
Proof. vm_compute. reflexivity. Qed.

Example report_without_file :
  generate_report (sequential_batch ja_provider) merge_rows read_nothing unit
                  upload_ok "project_2024-03-15.csv" empty_state
  = (inl (SystemExit 1),
     mkState ∅ [] ["Error loading CSV file: No such file or directory"],
     []).
Proof. vm_compute. reflexivity. Qed.

End Witnesses.

(** * Further properties *)

(** ** The translation cache and the pool *)

Section CacheFacts.

Variable provider : list key -> key -> response.
Variables src tgt : string.

(** X1. [translate_text] only adds: an entry of the cache is never removed
    or changed, the log of provider calls is extended by at most the call
    for the key of the text, and what was printed stays. *)
Theorem translate_text_grows st text :
  (forall k v, cache st !! k = Some v ->
               cache (translate_text provider st text src tgt).2 !! k = Some v)
  /\ (calls (translate_text provider st text src tgt).2 = calls st
      \/ calls (translate_text provider st text src tgt).2
         = calls st ++ [(text, src, tgt)])
  /\ exists more,
      stdout (translate_text provider st text src tgt).2 = stdout st ++ more.
Proof.
  unfold translate_text. destruct (has_text text); cbv zeta.
  - destruct (cache st !! (text, src, tgt)) as [v0|] eqn:Hc; simpl.
    + repeat split; [done|by left|]. exists []. by rewrite app_nil_r.
    + unfold call_provider.
      destruct (provider (calls st) (text, src, tgt)) as [v0|e]; simpl.
      * repeat split; [|by right|exists []; by rewrite app_nil_r].
        intros k v Hk. rewrite lookup_insert_ne; [done|]. congruence.
      * repeat split; [done|by right|by eexists].
  - simpl. repeat split; [done|by left|]. exists []. by rewrite app_nil_r.
Qed.

Lemma started_insert P inputs : forall ts i x t t',
  inputs !! i = Some x -> ts !! i = Some t -> queued t = true ->
  started P inputs (<[i:=t']> ts)
  = started P inputs ts + (if P x && negb (queued t') then 1 else 0).
Proof.
  induction inputs as [|x0 inputs IH]; intros [|t0 ts] [|i] x t t' Hx Ht Hq;
    simplify_eq/=.
  - rewrite Hq. simpl. rewrite andb_false_r.
    destruct (P x), (queued t'); simpl; lia.
  - rewrite (IH ts i x t t') by done. lia.
Qed.

Lemma started_insert_same P inputs : forall ts i t t',
  ts !! i = Some t -> queued t = queued t' ->
  started P inputs (<[i:=t']> ts) = started P inputs ts.
Proof.
  induction inputs as [|x0 inputs IH]; intros [|t0 ts] [|i] t t' Ht Hq;
    simplify_eq/=; try done.
  - by rewrite Hq.
  - by rewrite (IH ts i t t').
Qed.

Lemma started_bound P inputs : forall ts,
  started P inputs ts <= length (List.filter P inputs).
Proof.
  induction inputs as [|x inputs IH]; intros [|t ts];
    cbn [started List.filter]; try lia.
  specialize (IH ts).
  destruct (P x), (queued t); cbn [andb negb length]; lia.
Qed.

Lemma batch_input_asks k texts :
  length (List.filter (asks src tgt k) (batch_input texts))
  = length (List.filter (asks src tgt k) texts).
Proof.
  induction texts as [|x texts IH]; [done|].
  unfold batch_input in *. rewrite fmap_cons. cbn [List.filter].
  destruct (has_text x) eqn:Hx; [by destruct (asks src tgt k x); simpl; rewrite IH|].
  assert (asks src tgt k x = false) as -> by (unfold asks; by rewrite Hx).
  assert (asks src tgt k (Str "") = false) as -> by done.
  exact IH.
Qed.

Lemma count_calls_app k l1 l2 :
  count_calls k (l1 ++ l2) = count_calls k l1 + count_calls k l2.
Proof. unfold count_calls. by rewrite List.filter_app, length_app. Qed.

Lemma pool_calls_inv st0 inputs p :
  rtc (pool_step provider src tgt) (Queued <$> inputs, st0) p ->
  forall k, count_calls k (calls p.2)
            <= count_calls k (calls st0) + started (asks src tgt k) inputs p.1.
Proof.
  intros Hrtc.
  cut (pool_inv provider st0 inputs src tgt p
       /\ forall k, count_calls k (calls p.2)
                    <= count_calls k (calls st0)
                       + started (asks src tgt k) inputs p.1);
    [tauto|].
  eapply (rtc_ind_r (fun p => pool_inv provider st0 inputs src tgt p
            /\ forall k, count_calls k (calls p.2)
                         <= count_calls k (calls st0)
                            + started (asks src tgt k) inputs p.1));
    [| |exact Hrtc].
  - split; [apply pool_inv_init|]. intros k. simpl. lia.
  - intros y z _ Hstep [Hinv Hlen].
    split; [by eapply pool_inv_step|]. intros k. specialize (Hlen k).
    destruct Hinv as (HF & _ & _).
    destruct Hstep as [ts st i text t' st' Hi _ _ Hstart
                      |ts st i text k' r res st' Hi Hfin]; simpl in *.
    + destruct (Forall2_lookup_r _ _ _ _ _ HF Hi) as (x & Hx & Hinv).
      simpl in Hinv. subst text.
      rewrite (started_insert _ inputs ts i x (Queued x) t') by done.
      unfold start_task in Hstart. unfold asks at 2.
      destruct (has_text x) eqn:Ht.
      * cbv zeta in Hstart.
        destruct (cache st !! (x, src, tgt)); injection Hstart as <- <-;
          simpl; [lia|]. rewrite count_calls_app.
        unfold count_calls at 2. simpl.
        destruct (bool_decide ((x, src, tgt) = k)); simpl; lia.
      * injection Hstart as <- <-. simpl. lia.
    + rewrite (started_insert_same _ inputs ts i (InFlight text k' r)
                                   (Finished res)) by done.
      unfold finish_task in Hfin. by destruct r; injection Hfin as <- <-.
Qed.

(** X2. A batch asks the provider for a text at most as often as the text
    occurs in it: the calls made for a key are no more than the texts of
    the batch that are not blank and have this key. *)
Theorem batch_calls_bounded st texts out st' :
  batch_translate provider st texts src tgt (out, st') ->
  exists new,
    calls st' = calls st ++ new
    /\ forall k, count_calls k new
                 <= length (List.filter (asks src tgt k) texts).
Proof.
  intros Hrun.
  destruct (batch_translate_inv _ _ _ _ _ _ _ Hrun) as [_ (new & Hnew & _)].
  exists new. split; [done|]. intros k.
  apply pool_calls_inv with (k := k) in Hrun. simpl in Hrun.
  rewrite Hnew, count_calls_app in Hrun.
  pose proof (started_bound (asks src tgt k) (batch_input texts)
                            (Finished <$> out)) as Hb.
  rewrite batch_input_asks in Hb. lia.
Qed.

(** X3. A batch keeps the translations the cache held when it started, and
    does not ask the provider for their keys. *)
Theorem batch_keeps_cached st texts out st' :
  batch_translate provider st texts src tgt (out, st') ->
  (forall k v, cache st !! k = Some v -> cache st' !! k = Some v)
  /\ exists new, calls st' = calls st ++ new
                 /\ Forall (fun k => cache st !! k = None) new.
Proof.
  intros Hrun. unfold batch_translate in Hrun. simpl in Hrun.
  cut ((forall k v, cache st !! k = Some v -> cache st' !! k = Some v)
       /\ (forall i text k r,
             (Finished <$> out) !! i = Some (InFlight text k r) ->
             cache st !! k = None)
       /\ exists new, calls st' = calls st ++ new
                      /\ Forall (fun k => cache st !! k = None) new);
    [tauto|].
  eapply (rtc_ind_r (fun p : list task * state =>
            (forall k v, cache st !! k = Some v -> cache p.2 !! k = Some v)
            /\ (forall i text k r,
                  p.1 !! i = Some (InFlight text k r) -> cache st !! k = None)
            /\ exists new, calls p.2 = calls st ++ new
                           /\ Forall (fun k => cache st !! k = None) new)
          _ _ _ _ Hrun).
  Unshelve.
  - simpl. repeat split; [done| |exists []; by rewrite app_nil_r].
    intros i text k r Hi. rewrite list_lookup_fmap in Hi.
    by destruct (batch_input texts !! i).
  - intros y z _ Hstep (Hkeep & Hfly & new & Hnew & Hnone).
    destruct Hstep as [ts st1 i text t' st1' Hi _ _ Hstart
                      |ts st1 i text k r res st1' Hi Hfin]; simpl in *.
    + unfold start_task in Hstart. destruct (has_text text) eqn:Ht.
      * cbv zeta in Hstart.
        destruct (cache st1 !! (text, src, tgt)) as [v0|] eqn:Hc;
          injection Hstart as <- <-; simpl.
        -- repeat split; [done| |by exists new].
           intros j text' k r Hj.
           destruct (decide (i = j)) as [->|Hne].
           ++ rewrite list_lookup_insert_eq in Hj by (by eapply lookup_lt_Some).
              done.
           ++ rewrite list_lookup_insert_ne in Hj by done. by eapply Hfly.
        -- assert (cache st !! (text, src, tgt) = None) as Hst.
           { destruct (cache st !! (text, src, tgt)) as [v|] eqn:Hv;
               [|done]. apply Hkeep in Hv. congruence. }
           repeat split; [done| |].
           ++ intros j text' k r Hj.
              destruct (decide (i = j)) as [->|Hne].
              ** rewrite list_lookup_insert_eq in Hj
                   by (by eapply lookup_lt_Some).
                 by injection Hj as <- <- <-.
              ** rewrite list_lookup_insert_ne in Hj by done. by eapply Hfly.
           ++ exists (new ++ [(text, src, tgt)]). split.
              ** rewrite Hnew. by rewrite <- app_assoc.
              ** apply Forall_app. split; [done|]. by apply Forall_singleton.
      * injection Hstart as <- <-. repeat split; [done| |by exists new].
        intros j text' k r Hj.
        destruct (decide (i = j)) as [->|Hne].
        -- rewrite list_lookup_insert_eq in Hj by (by eapply lookup_lt_Some).
           done.
        -- rewrite list_lookup_insert_ne in Hj by done. by eapply Hfly.
    + pose proof (Hfly _ _ _ _ Hi) as Hk.
      assert (forall j text' k' r',
                <[i:=Finished res]> ts !! j = Some (InFlight text' k' r') ->
                cache st !! k' = None) as Hfly'.
      { intros j text' k' r' Hj.
        destruct (decide (i = j)) as [->|Hne].
        - rewrite list_lookup_insert_eq in Hj by (by eapply lookup_lt_Some).
          done.
        - rewrite list_lookup_insert_ne in Hj by done. by eapply Hfly. }
      unfold finish_task in Hfin.
      destruct r as [v|e]; injection Hfin as <- <-; simpl;
        (repeat split; [|done|by exists new]); [|done].
      intros k' v' Hk'. rewrite lookup_insert_ne; [by apply Hkeep|].
      congruence.
Qed.

(** X4. When the cache holds a translation for every text of the batch that
    is not blank, the batch returns these translations (and the empty
    string for a blank text) and leaves the state as it was: the provider
    is not asked and nothing is printed. *)
Theorem batch_from_cache st texts out st' :
  (forall text, text ∈ texts -> has_text text = true ->
                is_Some (cache st !! (text, src, tgt))) ->
  batch_translate provider st texts src tgt (out, st') ->
  st' = st /\ out = from_cache (cache st) src tgt <$> texts.
Proof.
  intros Hwarm Hrun. unfold batch_translate in Hrun. simpl in Hrun.
  assert (Forall (fun x => (has_text x = false -> x = Str "")
                           /\ (has_text x = true ->
                               is_Some (cache st !! (x, src, tgt))))
                 (batch_input texts)) as Hin.
  { apply Forall_forall. intros x Hx. unfold batch_input in Hx.
    apply list_elem_of_fmap in Hx as (t & -> & Ht).
    destruct (has_text t) eqn:Htt.
    - split; [congruence|]. intros _. by apply Hwarm.
    - split; [done|]. by rewrite has_text_Str. }
  cut (st' = st
       /\ Forall2 (fun x t => t = Queued x
                              \/ t = Finished (from_cache (cache st) src tgt x))
                  (batch_input texts) (Finished <$> out)).
  { intros [-> HF]. split; [done|].
    apply (Forall2_fmap_r (B:=task) (A:=cell) Finished) in HF.
    apply list_eq. intros i. rewrite list_lookup_fmap.
    destruct (texts !! i) as [t|] eqn:Hti; simpl.
    - pose proof (batch_input_lookup texts i t Hti) as Hbi.
      destruct (Forall2_lookup_l _ _ _ _ _ HF Hbi) as (r & -> & [Hr|Hr]);
        [done|].
      injection Hr as ->. f_equal. unfold from_cache.
      destruct (has_text t) eqn:Htt; [by rewrite Htt|]. by rewrite has_text_Str.
    - apply Forall2_length in HF. unfold batch_input in HF.
      rewrite length_fmap in HF. apply lookup_ge_None.
      apply lookup_ge_None in Hti. lia. }
  eapply (rtc_ind_r (fun p : list task * state =>
            p.2 = st
            /\ Forall2 (fun x t => t = Queued x
                          \/ t = Finished (from_cache (cache st) src tgt x))
                       (batch_input texts) p.1)
          _ _ _ _ Hrun).
  Unshelve.
  - simpl. split; [done|]. apply Forall2_fmap_r.
    apply Forall_Forall2_diag, Forall_forall. intros x _. by left.
  - intros y z _ Hstep [Hst HF].
    destruct Hstep as [ts st1 i text t' st1' Hi _ _ Hstart
                      |ts st1 i text k r res st1' Hi Hfin]; simpl in *.
    + subst st1.
      destruct (Forall2_lookup_r _ _ _ _ _ HF Hi) as (x & Hx & [Hq|Hq]);
        [|done]. injection Hq as ->.
      rewrite Forall_forall in Hin.
      destruct (Hin x (list_elem_of_lookup_2 _ _ _ Hx)) as [Hblank Hcached].
      unfold start_task in Hstart. destruct (has_text x) eqn:Ht.
      * cbv zeta in Hstart. destruct (Hcached eq_refl) as [v Hv].
        rewrite Hv in Hstart. injection Hstart as <- <-. split; [done|].
        eapply Forall2_insert_r; [done..|]. right. unfold from_cache.
        by rewrite Ht, Hv.
      * injection Hstart as <- <-. split; [done|].
        eapply Forall2_insert_r; [done..|]. right. unfold from_cache.
        rewrite Ht. by rewrite Hblank.
    + by destruct (Forall2_lookup_r _ _ _ _ _ HF Hi) as (x & Hx & [Hq|Hq]).
Qed.

End CacheFacts.

(** ** The latest-file locator, further *)

Section LocatorMore.

Import Locator.

Lemma datetime_gt_below a b c :
  datetime_gt a b = false -> datetime_gt c b = true -> datetime_gt c a = true.
Proof.
  intros Hab Hcb. apply datetime_gt_spec. apply datetime_gt_spec in Hcb.
  destruct (datetime_gt a b) eqn:H; [done|].
  assert (~ (year b < year a
             \/ (year a = year b
                 /\ (month b < month a
                     \/ (month a = month b /\ day b < day a))))%Z) as Hn.
  { intros Hc. apply datetime_gt_spec in Hc. congruence. }
  lia.
Qed.

(** The loop, with the position of the file it ends on: the files listed
    before it have a date that is strictly smaller. *)
Lemma scan_first folder names : forall latest_file latest_date,
  dates_valid names ->
  (scan folder names latest_file latest_date = inr latest_file
   /\ forall j f d, names !! j = Some f -> file_date f = Some d ->
                    beats d latest_date = false)
  \/ exists i f d,
      names !! i = Some f /\ file_date f = Some d /\ beats d latest_date = true
      /\ scan folder names latest_file latest_date = inr (Some (join folder f))
      /\ forall j f' d', names !! j = Some f' -> file_date f' = Some d' ->
                         datetime_gt d' d = false
                         /\ (j < i -> datetime_gt d d' = true).
Proof.
  induction names as [|f names IH]; intros lf ld Hvalid.
  - left. split; [done|]. intros j f d Hj. done.
  - apply Forall_cons in Hvalid as [Hf Hvalid]. simpl.
    destruct (re_search f) as [g|] eqn:Hg.
    + destruct (Hf g eq_refl) as [df Hdf]. rewrite Hdf.
      assert (file_date f = Some df) as Hfd by (unfold file_date; by rewrite Hg).
      destruct (beats df ld) eqn:Hb.
      * right.
        destruct (IH (Some (join folder f)) (Some df) Hvalid)
          as [[Hs Hmax]|(i & f2 & d2 & Hi & Hd2 & Hb2 & Hs & Hmax)].
        -- exists 0, f, df.
           split; [done|]. split; [done|]. split; [done|]. split; [done|].
           intros [|j] f' d' Hj Hd'; simpl in *.
           ++ simplify_eq. split; [apply datetime_gt_irrefl|lia].
           ++ split; [by apply (Hmax j f')|lia].
        -- exists (S i), f2, d2. simpl in Hb2.
           split; [done|]. split; [done|]. split.
           { destruct ld as [d0|]; [|done]. simpl in *.
             by apply datetime_gt_trans with df. }
           split; [done|].
           intros [|j] f' d' Hj Hd'; simpl in *.
           ++ simplify_eq. split; [by apply datetime_gt_asym|done].
           ++ destruct (Hmax j f' d' Hj Hd') as [H1 H2].
              split; [done|]. intros Hlt. apply H2. lia.
      * destruct (IH lf ld Hvalid)
          as [[Hs Hmax]|(i & f2 & d2 & Hi & Hd2 & Hb2 & Hs & Hmax)].
        -- left. split; [done|]. intros [|j] f' d' Hj Hd'; simpl in *.
           ++ by simplify_eq.
           ++ by apply (Hmax j f').
        -- right. exists (S i), f2, d2.
           split; [done|]. split; [done|]. split; [done|]. split; [done|].
           destruct ld as [d0|]; [|done]. simpl in *.
           intros [|j] f' d' Hj Hd'; simpl in *.
           ++ simplify_eq. split.
              ** match goal with
                 | |- datetime_gt ?a d2 = false =>
                     destruct (datetime_gt a d2) eqn:Hgt; [|done]
                 end.
                 by rewrite (datetime_gt_trans _ _ _ Hgt Hb2) in Hb.
              ** intros _. by apply datetime_gt_below with d0.
           ++ destruct (Hmax j f' d' Hj Hd') as [H1 H2].
              split; [done|]. intros Hlt. apply H2. lia.
    + assert (file_date f = None) as Hfd by (unfold file_date; by rewrite Hg).
      destruct (IH lf ld Hvalid)
        as [[Hs Hmax]|(i & f2 & d2 & Hi & Hd2 & Hb2 & Hs & Hmax)].
      * left. split; [done|]. intros [|j] f' d' Hj Hd'; simpl in *.
        -- simplify_eq.
        -- by apply (Hmax j f').
      * right. exists (S i), f2, d2.
        split; [done|]. split; [done|]. split; [done|]. split; [done|].
        intros [|j] f' d' Hj Hd'; simpl in *; [simplify_eq|].
        destruct (Hmax j f' d' Hj Hd') as [H1 H2].
        split; [done|]. intros Hlt. apply H2. lia.
Qed.

(** X5. Among the files with the latest date, [get_latest_file] returns the
    one listed first: in a directory whose matching names embed dates that
    exist, the path returned is that of a name whose date no name exceeds
    and which every name listed before it falls short of. *)
Theorem get_latest_file_first fs folder_path names p :
  fs folder_path = Directory names ->
  dates_valid names ->
  (get_latest_file fs folder_path).2 = inr (Some p) ->
  exists i f d,
    names !! i = Some f /\ file_date f = Some d /\ p = join folder_path f
    /\ forall j f' d', names !! j = Some f' -> file_date f' = Some d' ->
                       datetime_gt d' d = false
                       /\ (j < i -> datetime_gt d d' = true).
Proof.
  intros H Hvalid. unfold get_latest_file. rewrite H.
  destruct (scan_first folder_path names None None Hvalid)
    as [[Hs Hmax]|(i & f & d & Hi & Hd & _ & Hs & Hmax)]; rewrite Hs; simpl.
  - done.
  - intros [= <-]. by exists i, f, d.
Qed.

Lemma match_atoms_app p : forall s m rest,
  match_atoms p s = Some (m, rest) -> s = m +:+ rest.
Proof.
  induction p as [|a p IH]; intros s m rest; cbn [match_atoms].
  - by intros [= <- <-].
  - destruct s as [|c s]; [done|]. destruct (atom_matches a c); [|done].
    destruct (match_atoms p s) as [[m' rest']|] eqn:Hm; [|done].
    intros [= <- <-]. by rewrite (IH _ _ _ Hm).
Qed.

Lemma match_lits l : forall s m rest,
  match_atoms (lits l) s = Some (m, rest) -> m = l.
Proof.
  induction l as [|c l IH]; intros s m rest; unfold lits;
    cbn [list_ascii_of_string fmap list_fmap match_atoms atom_matches].
  - by intros [= <- <-].
  - destruct s as [|c' s]; [done|].
    destruct (Ascii.eqb_spec c c') as [<-|]; [|done].
    destruct (match_atoms (Lit <$> list_ascii_of_string l) s)
      as [[m' rest']|] eqn:Hm; [|done].
    intros [= <- <-]. f_equal. by eapply IH.
Qed.

Lemma match_lits_here l rest :
  match_atoms (lits l) (l +:+ rest) = Some (l, rest).
Proof.
  induction l as [|c l IH]; unfold lits in *; [done|].
  change (String c l +:+ rest) with (String c (l +:+ rest)).
  cbn [list_ascii_of_string fmap list_fmap match_atoms atom_matches].
  by rewrite Ascii.eqb_refl, IH.
Qed.

Lemma append_cons c s rest : String c s +:+ rest = String c (s +:+ rest).
Proof. reflexivity. Qed.

Lemma append_empty rest : EmptyString +:+ rest = rest.
Proof. reflexivity. Qed.

Lemma date_shaped_group g rest :
  date_shaped g = true ->
  match_atoms pattern_group (g +:+ rest) = Some (g, rest).
Proof.
  unfold date_shaped. intros H.
  rewrite <- (string_of_list_ascii_of_string g).
  destruct (list_ascii_of_string g)
    as [|y1 [|y2 [|y3 [|y4 [|s1 [|m1 [|m2 [|s2 [|d1 [|d2 [|]]]]]]]]]]];
    try done.
  apply andb_prop in H as [H Hs2]. apply andb_prop in H as [H Hs1].
  cbn [forallb] in H.
  repeat match type of H with
         | (_ && _) = true =>
             let E := fresh "E" in apply andb_prop in H as [E H]
         end.
  apply Ascii.eqb_eq in Hs1, Hs2. subst.
  unfold pattern_group. cbn [string_of_list_ascii].
  rewrite !append_cons, append_empty.
  cbn [match_atoms atom_matches].
  repeat match goal with E : is_digit _ = true |- _ => rewrite E; clear E end.
  by rewrite !Ascii.eqb_refl.
Qed.

Lemma group_date_shaped s g rest :
  match_atoms pattern_group s = Some (g, rest) -> date_shaped g = true.
Proof.
  intros H. apply match_group_shape in H
    as (y1 & y2 & y3 & y4 & m1 & m2 & d1 & d2 & Hg & Hd).
  unfold date_shaped. rewrite Hg, Hd. done.
Qed.

Lemma match_here_inv s g :
  match_here s = Some g ->
  date_shaped g = true
  /\ exists post, s = "project_" +:+ g +:+ ".csv" +:+ post.
Proof.
  unfold match_here.
  destruct (match_atoms pattern_head s) as [[m1 s1]|] eqn:H1; [|done].
  destruct (match_atoms pattern_group s1) as [[g' s2]|] eqn:H2; [|done].
  destruct (match_atoms pattern_tail s2) as [[m3 s3]|] eqn:H3; [|done].
  intros [= ->]. split; [by eapply group_date_shaped|]. exists s3.
  pose proof (match_lits _ _ _ _ H1) as ->.
  pose proof (match_lits _ _ _ _ H3) as ->.
  apply match_atoms_app in H1, H2, H3. by subst.
Qed.

Lemma match_here_complete g post :
  date_shaped g = true ->
  match_here ("project_" +:+ g +:+ ".csv" +:+ post) = Some g.
Proof.
  intros Hg. unfold match_here, pattern_head, pattern_tail.
  rewrite match_lits_here, (date_shaped_group g _ Hg).
  by rewrite match_lits_here.
Qed.

Lemma re_search_here s g : match_here s = Some g -> re_search s = Some g.
Proof. intros H. destruct s; cbn [re_search]; by rewrite H. Qed.

(** X6. The pattern is searched for anywhere in the name: a name matches
    exactly when it contains [project_], a date of the shape
    [dddd-dd-dd] and [.csv] in a row, whatever stands before and after. *)
Theorem re_search_anywhere filename :
  is_Some (re_search filename) <->
  exists pre g post,
    date_shaped g = true
    /\ filename = pre +:+ "project_" +:+ g +:+ ".csv" +:+ post.
Proof.
  split.
  - intros [g Hg]. revert Hg.
    induction filename as [|c filename IH]; cbn [re_search].
    + destruct (match_here EmptyString) as [g'|] eqn:Hm; [|done].
      intros _. apply match_here_inv in Hm as [Hs [post Hp]].
      by exists EmptyString, g', post.
    + destruct (match_here (String c filename)) as [g'|] eqn:Hm.
      * intros _. apply match_here_inv in Hm as [Hs [post Hp]].
        by exists EmptyString, g', post.
      * intros Hg. destruct (IH Hg) as (pre & g' & post & Hs & ->).
        by exists (String c pre), g', post.
  - intros (pre & g & post & Hs & ->).
    induction pre as [|c pre IH].
    + rewrite append_empty. eexists.
      apply re_search_here, match_here_complete, Hs.
    + rewrite append_cons. cbn [re_search].
      destruct (match_here _); [by eexists|done].
Qed.

Lemma dates_valid_dec names :
  dates_valid names
  \/ exists f g, f ∈ names /\ re_search f = Some g /\ strptime g = None.
Proof.
  induction names as [|f names [IH|(f' & g & Hin & Hg & Hs)]].
  - left. constructor.
  - destruct (re_search f) as [g|] eqn:Hg.
    + destruct (strptime g) as [d|] eqn:Hs.
      * left. constructor; [|done]. intros g' Hg'. simplify_eq. by eexists.
      * right. exists f, g. split; [by left|done].
    + left. constructor; [|done]. intros g' Hg'. congruence.
  - right. exists f', g. split; [by right|done].
Qed.

(** X7. On a directory, [get_latest_file] raises only when some listed name
    matches the pattern with a date that does not exist, and then always;
    the exception is the [ValueError] of [strptime]. *)
Theorem get_latest_file_raises_iff fs folder_path names :
  fs folder_path = Directory names ->
  ((exists e, (get_latest_file fs folder_path).2 = inl e)
   <-> exists f g, f ∈ names /\ re_search f = Some g /\ strptime g = None)
  /\ forall e, (get_latest_file fs folder_path).2 = inl e -> e = ValueError.
Proof.
  intros H. unfold get_latest_file. rewrite H.
  destruct (dates_valid_dec names) as [Hvalid|(f & g & Hin & Hg & Hs)].
  - destruct (scan_spec folder_path names None None Hvalid)
      as [[Hscan _]|(f & d & _ & _ & _ & _ & Hscan)]; rewrite Hscan; simpl.
    + split; [|done]. split; [by intros [e ?]|].
      intros (f & g & Hin & Hg & Hs). unfold dates_valid in Hvalid.
      rewrite Forall_forall in Hvalid.
      destruct (Hvalid f Hin g Hg) as [d Hd]. congruence.
    + split; [|done]. split; [by intros [e ?]|].
      intros (f' & g & Hin & Hg & Hs). unfold dates_valid in Hvalid.
      rewrite Forall_forall in Hvalid.
      destruct (Hvalid f' Hin g Hg) as [d' Hd']. congruence.
  - rewrite (scan_invalid folder_path names f g None None Hin Hg Hs). simpl.
    split; [|by intros e [= <-]]. split; [|by eexists].
    intros _. by exists f, g.
Qed.

End LocatorMore.

(** ** Naming the worksheet *)

Section NamingFacts.

Import Locator Sheets.

Lemma digit_cases d :
  (0 <= d <= 9)%Z ->
  d = 0%Z \/ d = 1%Z \/ d = 2%Z \/ d = 3%Z \/ d = 4%Z \/ d = 5%Z \/ d = 6%Z
  \/ d = 7%Z \/ d = 8%Z \/ d = 9%Z.
Proof. lia. Qed.

Lemma digit_value_char d :
  (0 <= d <= 9)%Z -> digit_value (digit_char d) = d.
Proof.
  intros H. destruct (digit_cases d H) as [->|[->|[->|[->|[->|[->|[->|[->|[->| ->]]]]]]]]];
    reflexivity.
Qed.

Lemma is_digit_char d : (0 <= d <= 9)%Z -> is_digit (digit_char d) = true.
Proof.
  intros H. destruct (digit_cases d H) as [->|[->|[->|[->|[->|[->|[->|[->|[->| ->]]]]]]]]];
    reflexivity.
Qed.

Lemma days_in_month_le y m : (days_in_month y m <= 31)%Z.
Proof.
  unfold days_in_month.
  destruct (m =? 2)%Z; [destruct (is_leap y); lia|].
  destruct ((m =? 4) || (m =? 6) || (m =? 9) || (m =? 11))%Z; lia.
Qed.

Lemma strftime_shaped now : calendar_date now -> date_shaped (strftime now) = true.
Proof.
  intros (Hy & Hm & Hd). pose proof (days_in_month_le (year now) (month now)).
  unfold date_shaped, strftime. cbn [list_ascii_of_string forallb].
  rewrite !is_digit_char; [done|..]; Z.div_mod_to_equations; lia.
Qed.

(** X8. The name given to the worksheet on a date, followed by [.csv], is a
    file name the locator recognises, and the date read back from it by
    [strptime] is the date it was made from. *)
Theorem worksheet_name_round_trip now :
  calendar_date now ->
  strptime (strftime now) = Some now
  /\ re_search (worksheet_name now +:+ ".csv") = Some (strftime now)
  /\ file_date (worksheet_name now +:+ ".csv") = Some now.
Proof.
  intros Hcal.
  assert (strptime (strftime now) = Some now) as Hparse.
  { destruct Hcal as (Hy & Hm & Hd).
    pose proof (days_in_month_le (year now) (month now)).
    destruct now as [y m d]. simpl in *.
    unfold strptime, strftime. cbn [list_ascii_of_string year month day].
    rewrite !digit_value_char by (Z.div_mod_to_equations; lia).
    assert (1000 * (y / 1000) + 100 * (y / 100 mod 10) + 10 * (y / 10 mod 10)
            + y mod 10 = y)%Z as -> by (Z.div_mod_to_equations; lia).
    assert (10 * (m / 10) + m mod 10 = m)%Z as ->
        by (Z.div_mod_to_equations; lia).
    assert (10 * (d / 10) + d mod 10 = d)%Z as ->
        by (Z.div_mod_to_equations; lia).
    assert (((1 <=? y) && (1 <=? m) && (m <=? 12) && (1 <=? d)
             && (d <=? days_in_month y m))%Z = true) as ->; [|done].
    rewrite !andb_true_iff, !Z.leb_le. lia. }
  assert (re_search (worksheet_name now +:+ ".csv") = Some (strftime now))
    as Hsearch.
  { apply re_search_here.
    exact (match_here_complete (strftime now) EmptyString
                               (strftime_shaped now Hcal)). }
  split; [done|]. split; [done|].
  unfold file_date. by rewrite Hsearch.
Qed.

End NamingFacts.

(** ** The configuration store and the prompts, further *)

Section PromptFacts.

Import Config Prompt.

Lemma truthy_strip_cases s : PyStr.truthy s = false <-> s = EmptyString.
Proof. destruct s; simpl; split; congruence. Qed.

(** X9. What [save_config] is given is what [load_config] finds afterwards:
    a non-empty email, or a non-empty credential file, saved to a readable
    configuration is the value stored under its key. *)
Theorem save_config_stored f email credential_file config :
  load_config f = inr config ->
  (forall e, email = Some e -> PyStr.truthy e = true ->
     stored (save_config f email credential_file).1.2 "email"
     = Some (Some (JString e)))
  /\ (forall c, credential_file = Some c -> PyStr.truthy c = true ->
        stored (save_config f email credential_file).1.2 "credential_file"
        = Some (Some (JString c))).
Proof.
  intros Hl. unfold save_config, stored. rewrite Hl. simpl. split.
  - intros e -> He. simpl. rewrite He. f_equal. unfold store.
    destruct (truthy credential_file).
    + rewrite lookup_insert_ne by done. apply lookup_insert_eq.
    + apply lookup_insert_eq.
  - intros c -> Hc. simpl. rewrite Hc. f_equal. unfold store.
    apply lookup_insert_eq.
Qed.

(** X10. Saving the same values a second time changes nothing. *)
Theorem save_config_twice f email credential_file :
  (save_config (save_config f email credential_file).1.2
               email credential_file).1.2
  = (save_config f email credential_file).1.2.
Proof.
  unfold save_config.
  destruct (load_config f) as [e|config] eqn:Hl; simpl; [by rewrite Hl|].
  f_equal. unfold store. apply map_eq. intros k.
  destruct (truthy email), (truthy credential_file);
    rewrite ?lookup_insert; repeat case_decide; congruence.
Qed.

Lemma get_email_asks f typed config :
  load_config f = inr config ->
  unset (config !! "email") = true ->
  get_email f typed
  = (inr (PyStr.strip typed),
     (save_config f (Some (PyStr.strip typed)) None).1.2,
     "Please enter your email address: "
       :: (save_config f (Some (PyStr.strip typed)) None).2).
Proof.
  intros Hl Hu. unfold get_email. rewrite Hl.
  assert (save_config f (Some (PyStr.strip typed)) None
          = (inr tt, (save_config f (Some (PyStr.strip typed)) None).1.2,
             (save_config f (Some (PyStr.strip typed)) None).2)) as Hs.
  { unfold save_config. by rewrite Hl. }
  destruct (config !! "email") as [[|s]|] eqn:He; simpl in Hu.
  - by rewrite Hs.
  - destruct (PyStr.truthy s); [done|]. by rewrite Hs.
  - by rewrite Hs.
Qed.

(** X11. [get_email] asks once: when no email is stored in a readable
    configuration and the user enters one that is not blank, it is
    returned stripped, and every later call returns it again without
    asking and without writing the file. *)
Theorem get_email_remembers f typed config :
  load_config f = inr config ->
  unset (config !! "email") = true ->
  PyStr.strip typed <> EmptyString ->
  (get_email f typed).1.1 = inr (PyStr.strip typed)
  /\ forall typed',
      get_email (get_email f typed).1.2 typed'
      = (inr (PyStr.strip typed), (get_email f typed).1.2, []).
Proof.
  intros Hl Hu Hne. rewrite (get_email_asks f typed config Hl Hu). simpl.
  split; [done|]. intros typed'.
  assert (PyStr.truthy (PyStr.strip typed) = true) as Ht.
  { destruct (PyStr.truthy (PyStr.strip typed)) eqn:E; [done|].
    by apply truthy_strip_cases in E. }
  unfold get_email, save_config. rewrite Hl. simpl. rewrite Ht. simpl.
  unfold store. rewrite lookup_insert_eq. by rewrite Ht.
Qed.

(** X12. A blank answer is taken as it is: [get_email] then returns the
    empty string, the email stored is what it was, and the next call asks
    again. *)
Theorem get_email_blank f typed config :
  load_config f = inr config ->
  unset (config !! "email") = true ->
  PyStr.strip typed = EmptyString ->
  (get_email f typed).1.1 = inr EmptyString
  /\ stored (get_email f typed).1.2 "email" = stored f "email"
  /\ forall typed',
      (get_email (get_email f typed).1.2 typed').1.1
      = inr (PyStr.strip typed').
Proof.
  intros Hl Hu Hs. rewrite (get_email_asks f typed config Hl Hu). simpl.
  rewrite Hs. split; [done|].
  assert (save_config f (Some EmptyString) None
          = (inr tt, JsonObject config, ["Configuration saved successfully!"]))
    as Hsave by (unfold save_config; by rewrite Hl).
  rewrite Hsave. simpl. split.
  - unfold stored. by rewrite Hl.
  - intros typed'.
    by rewrite (get_email_asks (JsonObject config) typed' config eq_refl Hu).
Qed.

(** X13. [get_credential_file] returns [None] only when the dialog was
    needed (nothing usable stored, or the stored file is gone) and the user
    cancelled it; the configuration file is then left as it was. *)
Theorem get_credential_file_none f exists_ chosen config :
  load_config f = inr config ->
  ((get_credential_file f exists_ chosen).1.1 = inr None
   <-> dialog_needed (config !! "credential_file") exists_ = true
       /\ chosen = EmptyString)
  /\ ((get_credential_file f exists_ chosen).1.1 = inr None ->
      (get_credential_file f exists_ chosen).1.2 = f).
Proof.
  intros Hl. unfold get_credential_file. rewrite Hl. cbv zeta.
  destruct (dialog_needed (config !! "credential_file") exists_) eqn:Hd.
  - destruct (PyStr.truthy chosen) eqn:Hc.
    + unfold save_config. rewrite Hl. simpl. split; [|done].
      split; [done|]. intros [_ ->]. done.
    + apply truthy_strip_cases in Hc as ->. simpl. by split.
  - simpl. unfold dialog_needed in Hd.
    destruct (config !! "credential_file") as [[|s]|]; simpl in Hd; try done.
    split; [|done]. split; [done|]. by intros [? _].
Qed.

(** X14. [get_credential_file] asks once: a file chosen in the dialog is
    returned and stored, and as long as that file exists every later call
    returns it without opening the dialog or writing the configuration. *)
Theorem get_credential_file_remembers f exists_ chosen config :
  load_config f = inr config ->
  dialog_needed (config !! "credential_file") exists_ = true ->
  chosen <> EmptyString ->
  (get_credential_file f exists_ chosen).1.1 = inr (Some chosen)
  /\ stored (get_credential_file f exists_ chosen).1.2 "credential_file"
     = Some (Some (JString chosen))
  /\ (exists_ chosen = true ->
      forall chosen',
        get_credential_file (get_credential_file f exists_ chosen).1.2
                            exists_ chosen'
        = (inr (Some chosen), (get_credential_file f exists_ chosen).1.2, [])).
Proof.
  intros Hl Hd Hne.
  assert (PyStr.truthy chosen = true) as Ht.
  { destruct (PyStr.truthy chosen) eqn:E; [done|].
    by apply truthy_strip_cases in E. }
  assert (get_credential_file f exists_ chosen
          = (inr (Some chosen),
             JsonObject (store "credential_file" (Some chosen) config),
             ["Please select the credential file.";
              "Configuration saved successfully!"])) as ->.
  { unfold get_credential_file. rewrite Hl. cbv zeta. rewrite Hd, Ht.
    unfold save_config. rewrite Hl. simpl. by rewrite Ht. }
  simpl. split; [done|]. split.
  { unfold stored, store. simpl. by rewrite lookup_insert_eq. }
  intros Hex chosen'. unfold get_credential_file. simpl.
  unfold store. rewrite lookup_insert_eq.
  unfold dialog_needed. simpl. by rewrite Ht, Hex.
Qed.

End PromptFacts.

(** ** The table processor, further *)

Lemma yields_bind {A B} (P : A -> Prop) (P' : B -> Prop) Q
      (m : M A) (f : A -> M B) :
  yields P Q m -> (forall x, P x -> yields P' Q (f x)) ->
  yields P' Q (m ≫= f).
Proof.
  intros Hm Hf st r st'. unfold mbind, M_bind.
  destruct (m st) as [[e|x] st1] eqn:Hrun.
  - intros [= <- <-]. destruct (Hm _ _ _ Hrun) as [Hcalls _].
    split; [done|]. intros x [=].
  - intros Hrun'. destruct (Hm _ _ _ Hrun) as [(new1 & Hc1 & HQ1) HP].
    destruct (Hf x (HP x eq_refl) _ _ _ Hrun') as [(new2 & Hc2 & HQ2) HP'].
    split; [|done]. exists (new1 ++ new2). split.
    + rewrite Hc2, Hc1. by rewrite <- app_assoc.
    + apply Forall_app. by split.
Qed.

Lemma yields_ret {A} (P : A -> Prop) Q x : P x -> yields P Q (mret x).
Proof.
  intros HP st r st' [= <- <-]. split.
  - exists []. by rewrite app_nil_r.
  - by intros ? [= <-].
Qed.

Lemma yields_column df label Q : yields (is_column df label) Q (column df label).
Proof.
  intros st r st'. unfold column.
  destruct (list_find (fun c => c = label) (columns df)) as [[i c]|] eqn:Hfind.
  - intros [= <- <-]. split; [exists []; by rewrite app_nil_r|].
    intros x [= <-] st0. unfold column. by rewrite Hfind.
  - intros [= <- <-]. split; [exists []; by rewrite app_nil_r|]. by intros x [=].
Qed.

Lemma yields_list_column n col Q :
  yields (fun c => c = col /\ length col = n) Q (list_column n col).
Proof.
  intros st r st'. unfold list_column. case_decide.
  - intros [= <- <-]. split; [exists []; by rewrite app_nil_r|].
    by intros x [= <-].
  - intros [= <- <-]. split; [exists []; by rewrite app_nil_r|]. by intros x [=].
Qed.

Lemma yields_sort sort_values rows Q :
  yields (fun _ => True) Q (sort_by_assignees sort_values rows).
Proof.
  intros st r st'. unfold sort_by_assignees.
  destruct (comparable _); intros [= <- <-];
    (split; [exists []; by rewrite app_nil_r|done]).
Qed.

Section TableFacts.

Variable provider : list key -> key -> response.
Variable pool : state -> list cell -> string -> string -> list cell * state.

Hypothesis pool_runs : forall st texts src tgt,
  batch_translate provider st texts src tgt (pool st texts src tgt).

Lemma yields_pool df label col :
  (label = "Title" \/ label = "body") ->
  is_column df label col ->
  yields (fun out => length out = length col) (title_or_body df)
         (lift (fun st => pool st col "en" "ja")).
Proof.
  intros Hlabel Hcol st r st'. rewrite lift_run. intros [= <- <-].
  pose proof (pool_runs st col "en" "ja") as Hrun.
  destruct (pool st col "en" "ja") as [out st1] eqn:Hp. simpl.
  destruct (batch_translate_inv _ _ _ _ _ _ _ Hrun) as [HF (new & Hnew & Hask)].
  split.
  - exists new. split; [done|]. eapply Forall_impl; [exact Hask|].
    intros k Hk. pose proof Hk as (x & _ & _ & ->).
    apply asked_for_batch_input in Hk as [Hs Hin].
    split; [done|]. split; [done|]. by exists label, col.
  - intros x [= <-]. apply Forall2_length in HF. unfold batch_input in HF.
    by rewrite length_fmap in HF.
Qed.

(** X15. Whatever [process_data] does with a table, the only texts it
    sends to the translation provider are cells of the [Title] and [body]
    columns that are not blank, and it asks for English to Japanese. *)
Theorem process_data_asks sort_values df st r st' :
  process_data pool sort_values df st = (r, st') ->
  exists new, calls st' = calls st ++ new /\ Forall (title_or_body df) new.
Proof.
  intros Hrun.
  cut (yields (fun _ => True) (title_or_body df)
              (process_data pool sort_values df)).
  { intros Hy. by destruct (Hy _ _ _ Hrun). }
  unfold process_data.
  eapply yields_bind; [|intros rows _; apply yields_sort].
  unfold before_sort.
  eapply yields_bind; [apply yields_column|]. intros colA _.
  eapply yields_bind; [apply yields_column|]. intros colT HT.
  eapply yields_bind; [by apply (yields_pool df "Title"); [left|]|].
  intros title_ja _.
  eapply yields_bind; [apply yields_list_column|]. intros ? _.
  eapply yields_bind; [apply yields_column|]. intros colB HB.
  eapply yields_bind; [by apply (yields_pool df "body"); [right|]|].
  intros body_ja _.
  eapply yields_bind; [apply yields_list_column|]. intros ? _.
  do 6 (eapply yields_bind; [apply yields_column|]; intros ? _).
  by apply (yields_ret (fun _ => True)).
Qed.

End TableFacts.

Lemma bind_inv {A B} (m : M A) (f : A -> M B) st y st' :
  (m ≫= f) st = (inr y, st') ->
  exists x st1, m st = (inr x, st1) /\ f x st1 = (inr y, st').
Proof.
  unfold mbind, M_bind. destruct (m st) as [[e|x] st1]; [done|].
  intros H. by exists x, st1.
Qed.

Lemma column_inv df label st col st1 :
  column df label st = (inr col, st1) -> st1 = st /\ is_column df label col.
Proof.
  intros H. destruct (yields_column df label (fun _ => True) _ _ _ H) as [_ HP].
  split; [|by apply HP]. unfold column, mret, M_ret, raise in H.
  destruct (list_find _ _) as [[i c]|]; by simplify_eq.
Qed.

Lemma list_column_inv n col st c st1 :
  list_column n col st = (inr c, st1) -> c = col /\ length col = n /\ st1 = st.
Proof.
  unfold list_column, mret, M_ret, raise. case_decide; intros [= <- <-]; done.
Qed.

Lemma is_column_length df label col :
  is_column df label col -> length col = length (values df).
Proof.
  intros H. specialize (H empty_state).
  unfold column, mret, M_ret, raise in H.
  destruct (list_find _ _) as [[i c]|]; [|done].
  injection H as <-. by rewrite length_fmap.
Qed.

Lemma lookup_total_aligned (c1 c : list cell) i a :
  length c = length c1 -> c1 !! i = Some a -> Some (c !!! i) = c !! i.
Proof.
  intros Hlen Hi. apply lookup_lt_Some in Hi.
  destruct (lookup_lt_is_Some_2 c i ltac:(lia)) as [x Hx].
  by rewrite (list_lookup_total_correct _ _ _ Hx).
Qed.

Lemma frame_rows_fields c1 c2 c3 c4 c5 c6 c7 c8 c9 c10 c11 :
  Forall (fun c : list cell => length c = length c1)
         [c2; c3; c4; c5; c6; c7; c8; c9; c10; c11] ->
  let rows := frame_rows c1 c2 c3 c4 c5 c6 c7 c8 c9 c10 c11 in
  Assignees <$> rows = c1 /\ Title <$> rows = c2 /\ Title_ja <$> rows = c3
  /\ body <$> rows = c4 /\ body_ja <$> rows = c5 /\ Repository <$> rows = c6
  /\ Status <$> rows = c7 /\ plan_start <$> rows = c8
  /\ plan_finish <$> rows = c9 /\ real_start <$> rows = c10
  /\ real_finish <$> rows = c11.
Proof.
  intros Hlen rows. subst rows.
  repeat (apply Forall_cons in Hlen as [? Hlen]).
  repeat split.
  - by apply (frame_rows_field Assignees (fun a _ _ _ _ _ _ _ _ _ _ => a)).
  - apply (frame_rows_field Title (fun _ a _ _ _ _ _ _ _ _ _ => a)); [|done].
    intros i a Hi. simpl. by eapply lookup_total_aligned.
  - apply (frame_rows_field Title_ja (fun _ _ a _ _ _ _ _ _ _ _ => a)); [|done].
    intros i a Hi. simpl. by eapply lookup_total_aligned.
  - apply (frame_rows_field body (fun _ _ _ a _ _ _ _ _ _ _ => a)); [|done].
    intros i a Hi. simpl. by eapply lookup_total_aligned.
  - apply (frame_rows_field body_ja (fun _ _ _ _ a _ _ _ _ _ _ => a)); [|done].
    intros i a Hi. simpl. by eapply lookup_total_aligned.
  - apply (frame_rows_field Repository (fun _ _ _ _ _ a _ _ _ _ _ => a)); [|done].
    intros i a Hi. simpl. by eapply lookup_total_aligned.
  - apply (frame_rows_field Status (fun _ _ _ _ _ _ a _ _ _ _ => a)); [|done].
    intros i a Hi. simpl. by eapply lookup_total_aligned.
  - apply (frame_rows_field plan_start (fun _ _ _ _ _ _ _ a _ _ _ => a)); [|done].
    intros i a Hi. simpl. by eapply lookup_total_aligned.
  - apply (frame_rows_field plan_finish (fun _ _ _ _ _ _ _ _ a _ _ => a)); [|done].
    intros i a Hi. simpl. by eapply lookup_total_aligned.
  - apply (frame_rows_field real_start (fun _ _ _ _ _ _ _ _ _ a _ => a)); [|done].
    intros i a Hi. simpl. by eapply lookup_total_aligned.
  - apply (frame_rows_field real_finish (fun _ _ _ _ _ _ _ _ _ _ a => a)); [|done].
    intros i a Hi. simpl. by eapply lookup_total_aligned.
Qed.

Section TableMore.

Variable pool : state -> list cell -> string -> string -> list cell * state.

(** What [process_data] has built when it gets to line 173. *)
Lemma before_sort_inv df st unsorted st' :
  before_sort pool df st = (inr unsorted, st') ->
  exists cA cT cB cR cS c1 c2 c3 c4,
    is_column df "Assignees" cA /\ is_column df "Title" cT
    /\ is_column df "body" cB /\ is_column df "Repository" cR
    /\ is_column df "Status" cS /\ is_column df "plan start" c1
    /\ is_column df "plan finish" c2 /\ is_column df "real start" c3
    /\ is_column df "real finish" c4
    /\ length (pool st cT "en" "ja").1 = length cA
    /\ length (pool (pool st cT "en" "ja").2 cB "en" "ja").1 = length cA
    /\ st' = (pool (pool st cT "en" "ja").2 cB "en" "ja").2
    /\ unsorted
       = fillna (frame_rows (replace name_replacements cA) cT
                   (pool st cT "en" "ja").1 cB
                   (pool (pool st cT "en" "ja").2 cB "en" "ja").1
                   cR cS c1 c2 c3 c4).
Proof.
  unfold before_sort. intros H.
  apply bind_inv in H as (cA & s1 & HA & H). apply column_inv in HA as [-> HA].
  apply bind_inv in H as (cT & s1 & HT & H). apply column_inv in HT as [-> HT].
  apply bind_inv in H as (jt & s1 & Hjt & H). rewrite lift_run in Hjt.
  injection Hjt as <- <-.
  apply bind_inv in H as (jt' & s1 & Hl1 & H).
  apply list_column_inv in Hl1 as (-> & Hlen1 & ->).
  apply bind_inv in H as (cB & s1 & HB & H). apply column_inv in HB as [-> HB].
  apply bind_inv in H as (jb & s1 & Hjb & H). rewrite lift_run in Hjb.
  injection Hjb as <- <-.
  apply bind_inv in H as (jb' & s1 & Hl2 & H).
  apply list_column_inv in Hl2 as (-> & Hlen2 & ->).
  apply bind_inv in H as (cR & s1 & HR & H). apply column_inv in HR as [-> HR].
  apply bind_inv in H as (cS & s1 & HS & H). apply column_inv in HS as [-> HS].
  apply bind_inv in H as (c1 & s1 & H1 & H). apply column_inv in H1 as [-> H1].
  apply bind_inv in H as (c2 & s1 & H2 & H). apply column_inv in H2 as [-> H2].
  apply bind_inv in H as (c3 & s1 & H3 & H). apply column_inv in H3 as [-> H3].
  apply bind_inv in H as (c4 & s1 & H4 & H). apply column_inv in H4 as [-> H4].
  injection H as <- <-.
  unfold replace in Hlen1, Hlen2. rewrite length_fmap in Hlen1, Hlen2.
  exists cA, cT, cB, cR, cS, c1, c2, c3, c4. by repeat split.
Qed.

Lemma before_sort_assignees df st unsorted st' :
  before_sort pool df st = (inr unsorted, st') ->
  exists col, is_column df "Assignees" col
              /\ Assignees <$> unsorted = fill <$> replace name_replacements col.
Proof.
  intros H. apply before_sort_inv in H
    as (cA & cT & cB & cR & cS & c1 & c2 & c3 & c4 & HA & HT & HB & HR & HS
        & H1 & H2 & H3 & H4 & Hjt & Hjb & -> & ->).
  exists cA. split; [done|]. rewrite fillna_field by done. f_equal.
  by apply (frame_rows_field Assignees (fun a _ _ _ _ _ _ _ _ _ _ => a)).
Qed.

(** X16. Up to the sort, the published table is the table read, row for
    row: each copied column is the column of the same name with missing
    values replaced by the empty string, the assignees are the renamed
    [Assignees] column, and the two added columns are what the batch
    translator returns for the [Title] and the [body] column. *)
Theorem before_sort_columns df st unsorted st' :
  before_sort pool df st = (inr unsorted, st') ->
  Forall (fun lf : string * (report_row -> cell) =>
            exists col, is_column df lf.1 col
                        /\ lf.2 <$> unsorted = fill <$> col) passed_through
  /\ (exists col, is_column df "Assignees" col
                  /\ Assignees <$> unsorted
                     = fill <$> replace name_replacements col)
  /\ exists cT cB,
      is_column df "Title" cT /\ is_column df "body" cB
      /\ Title_ja <$> unsorted = fill <$> (pool st cT "en" "ja").1
      /\ body_ja <$> unsorted
         = fill <$> (pool (pool st cT "en" "ja").2 cB "en" "ja").1.
Proof.
  intros H. apply before_sort_inv in H
    as (cA & cT & cB & cR & cS & c1 & c2 & c3 & c4 & HA & HT & HB & HR & HS
        & H1 & H2 & H3 & H4 & Hjt & Hjb & -> & ->).
  pose proof (is_column_length _ _ _ HA). pose proof (is_column_length _ _ _ HT).
  pose proof (is_column_length _ _ _ HB). pose proof (is_column_length _ _ _ HR).
  pose proof (is_column_length _ _ _ HS). pose proof (is_column_length _ _ _ H1).
  pose proof (is_column_length _ _ _ H2). pose proof (is_column_length _ _ _ H3).
  pose proof (is_column_length _ _ _ H4).
  assert (length (replace name_replacements cA) = length cA) as HlA
      by (unfold replace; by rewrite length_fmap).
  destruct (frame_rows_fields (replace name_replacements cA) cT
              (pool st cT "en" "ja").1 cB
              (pool (pool st cT "en" "ja").2 cB "en" "ja").1 cR cS c1 c2 c3 c4)
    as (EA & ET & Ejt & EB & Ejb & ER & ES & E1 & E2 & E3 & E4).
  { repeat constructor; congruence. }
  split; [|split].
  - unfold passed_through.
    repeat constructor; simpl; eexists; (split; [eassumption|]);
      rewrite fillna_field by done; congruence.
  - exists cA. split; [done|]. rewrite fillna_field by done. congruence.
  - exists cT, cB. split; [done|]. split; [done|].
    rewrite !fillna_field by done. split; congruence.
Qed.

Lemma fill_filled c : fill c <> NaN.
Proof. by destruct c. Qed.

Lemma fillna_filled rows :
  Forall (fun r => NaN ∉ cells_of r) (fillna rows).
Proof.
  unfold fillna. apply Forall_fmap, Forall_forall. intros r _. simpl.
  unfold cells_of. simpl. rewrite !not_elem_of_cons.
  repeat split; try (apply not_eq_sym, fill_filled). apply not_elem_of_nil.
Qed.

(** X17. No cell of the table [process_data] returns is a missing value. *)
Theorem process_data_filled sort_values df st rows st' :
  (forall l, sort_values l ≡ₚ l) ->
  process_data pool sort_values df st = (inr rows, st') ->
  Forall (fun r => NaN ∉ cells_of r) rows.
Proof.
  intros Hperm H. rewrite process_data_sort in H.
  destruct (before_sort pool df st) as [[e|unsorted] st1] eqn:Hb; [done|].
  apply sort_by_assignees_inv in H as (_ & -> & ->). rewrite Hperm.
  apply before_sort_inv in Hb
    as (? & ? & ? & ? & ? & ? & ? & ? & ? & _ & _ & _ & _ & _ & _ & _ & _ & _
        & _ & _ & _ & ->).
  apply fillna_filled.
Qed.

Lemma renamed_once s v :
  name_replacements !! s = Some v -> name_replacements !! v = None.
Proof.
  intros H. unfold name_replacements in H.
  apply elem_of_list_to_map_2 in H.
  repeat (apply elem_of_cons in H as [[= -> ->]|H]; [by vm_compute|]).
  by apply elem_of_nil in H.
Qed.

Lemma replace_renamed col :
  Forall (fun c => forall s, fill c = Str s -> name_replacements !! s = None)
         (replace name_replacements col).
Proof.
  unfold replace. apply Forall_fmap, Forall_forall. intros c _. simpl.
  destruct c as [|s|n]; simpl.
  - intros s [= <-]. by vm_compute.
  - destruct (name_replacements !! s) as [v|] eqn:Hs; simpl; intros s' [= <-].
    + by eapply renamed_once.
    + done.
  - by intros s [=].
Qed.

(** X18. After [process_data] no assignee is one of the identifiers that
    [name_replacements] renames: each has been replaced by its display
    name, and no display name is itself an identifier to rename. *)
Theorem process_data_renamed sort_values df st rows st' :
  (forall l, sort_values l ≡ₚ l) ->
  process_data pool sort_values df st = (inr rows, st') ->
  Forall (fun r => forall s, Assignees r = Str s ->
                             name_replacements !! s = None) rows.
Proof.
  intros Hperm H. rewrite process_data_sort in H.
  destruct (before_sort pool df st) as [[e|unsorted] st1] eqn:Hb; [done|].
  apply sort_by_assignees_inv in H as (_ & -> & ->). rewrite Hperm.
  destruct (before_sort_assignees df st unsorted _ Hb) as (col & _ & Hcol).
  pose proof (replace_renamed col) as Hren.
  apply Forall_forall. intros r Hr s Hs.
  assert (Assignees r ∈ Assignees <$> unsorted) as Hin
      by (by apply list_elem_of_fmap_2).
  rewrite Hcol in Hin. apply list_elem_of_fmap in Hin as (c & Hc & Hcin).
  rewrite Forall_forall in Hren. apply (Hren c Hcin). congruence.
Qed.

End TableMore.

(** ** The spreadsheet service *)

Section SheetFacts.

Import Locator Sheets.

Variable service : list request -> request -> option remote_exc.

Lemma W_bind_inl {A B} (m : W A) (f : A -> W B) w e w' :
  m w = (inl e, w') -> (m ≫= f) w = (inl e, w').
Proof. intros H. unfold mbind, W_bind. by rewrite H. Qed.

Lemma W_bind_inr {A B} (m : W A) (f : A -> W B) w x w' :
  m w = (inr x, w') -> (m ≫= f) w = f x w'.
Proof. intros H. unfold mbind, W_bind. by rewrite H. Qed.

Lemma W_bind_inv {A B} (m : W A) (f : A -> W B) w y w' :
  (m ≫= f) w = (inr y, w') ->
  exists x w1, m w = (inr x, w1) /\ f x w1 = (inr y, w').
Proof.
  unfold mbind, W_bind. destruct (m w) as [[e|x] w1]; [done|].
  intros H. by exists x, w1.
Qed.

Lemma orderly_bind {A B} (m : W A) (f : A -> W B) :
  orderly service m -> (forall x, orderly service (f x)) ->
  orderly service (m ≫= f).
Proof.
  intros Hm Hf w r w'. unfold mbind, W_bind.
  destruct (m w) as [[e|x] w1] eqn:Hrun.
  - intros [= <- <-]. destruct (Hm _ _ _ Hrun) as (new & Hs & Hb).
    exists new. split; [done|]. intros i q Hi [Hlt|[x [=]]].
    apply Hb; [done|by left].
  - intros Hrun'. destruct (Hm _ _ _ Hrun) as (new1 & Hs1 & Hb1).
    destruct (Hf x _ _ _ Hrun') as (new2 & Hs2 & Hb2).
    exists (new1 ++ new2). split.
    { rewrite Hs2, Hs1. by rewrite <- app_assoc. }
    intros i q Hi Hcond.
    destruct (decide (i < length new1)) as [Hlt|Hge].
    + rewrite lookup_app_l in Hi by done.
      rewrite take_app_le by lia. apply Hb1; [done|]. right. by exists x.
    + rewrite lookup_app_r in Hi by lia.
      rewrite take_app_ge by lia. rewrite app_assoc, <- Hs1.
      apply Hb2; [done|]. destruct Hcond as [Hc|Hc]; [left|by right].
      rewrite length_app in Hc. lia.
Qed.

Lemma orderly_silent {A} (m : W A) :
  (forall w, sent (m w).2 = sent w) -> orderly service m.
Proof.
  intros Hm w r w' Hrun. exists []. split.
  - specialize (Hm w). rewrite Hrun in Hm. simpl in Hm.
    by rewrite app_nil_r.
  - intros i q Hi. done.
Qed.

Lemma orderly_call r : orderly service (call service r).
Proof.
  intros w res w'. unfold call.
  destruct (service (sent w) r) as [e|] eqn:Hr; intros [= <- <-]; simpl;
    exists [r]; (split; [done|]); intros [|i] q Hi Hcond; simplify_eq/=.
  - destruct Hcond as [?|[x [=]]]. lia.
  - rewrite app_nil_r. by left.
Qed.

Lemma orderly_authenticate creds :
  orderly service (authenticate service creds).
Proof.
  intros w res w'. unfold authenticate, call.
  destruct (service (sent w) (Authorize creds scope)) as [e|] eqn:Hr;
    intros [= <- <-]; simpl; exists [Authorize creds scope];
    (split; [done|]); intros [|i] q Hi Hcond; simplify_eq/=.
  - destruct Hcond as [?|[x [=]]]. lia.
  - rewrite app_nil_r. by left.
Qed.

Lemma orderly_spreadsheet name :
  orderly service (get_or_create_spreadsheet service name).
Proof.
  intros w res w'. unfold get_or_create_spreadsheet.
  unfold call at 1.
  destruct (service (sent w) (Open name)) as [[msg|msg|msg]|] eqn:Hr.
  - unfold mbind, W_bind, call. simpl.
    destruct (service (sent w ++ [Open name]) (Create name)) as [e|] eqn:Hc;
      intros [= <- <-]; simpl; exists [Open name; Create name];
      (split; [by rewrite <- app_assoc|]);
      intros [|[|i]] q Hi Hcond; simplify_eq/=.
    + rewrite app_nil_r. right. left. by exists name, msg.
    + destruct Hcond as [?|[x [=]]]. lia.
    + rewrite app_nil_r. right. left. by exists name, msg.
    + by left.
  - intros [= <- <-]. simpl. exists [Open name]. split; [done|].
    intros [|i] q Hi Hcond; simplify_eq/=.
    destruct Hcond as [?|[x [=]]]. lia.
  - intros [= <- <-]. simpl. exists [Open name]. split; [done|].
    intros [|i] q Hi Hcond; simplify_eq/=.
    destruct Hcond as [?|[x [=]]]. lia.
  - intros [= <- <-]. simpl. exists [Open name]. split; [done|].
    intros [|i] q Hi Hcond; simplify_eq/=. rewrite app_nil_r. by left.
Qed.

Lemma orderly_worksheet name :
  orderly service (get_or_create_worksheet service name).
Proof.
  intros w res w'. unfold get_or_create_worksheet.
  unfold call at 1.
  destruct (service (sent w) (Worksheet name)) as [[msg|msg|msg]|] eqn:Hr.
  - intros [= <- <-]. simpl. exists [Worksheet name]. split; [done|].
    intros [|i] q Hi Hcond; simplify_eq/=.
    destruct Hcond as [?|[x [=]]]. lia.
  - unfold mbind, W_bind, call. simpl.
    destruct (service (sent w ++ [Worksheet name])
                      (AddWorksheet name "1000" "20")) as [e|] eqn:Hc;
      intros [= <- <-]; simpl;
      exists [Worksheet name; AddWorksheet name "1000" "20"];
      (split; [by rewrite <- app_assoc|]);
      intros [|[|i]] q Hi Hcond; simplify_eq/=.
    + rewrite app_nil_r. right. right. by exists name, msg.
    + destruct Hcond as [?|[x [=]]]. lia.
    + rewrite app_nil_r. right. right. by exists name, msg.
    + by left.
  - intros [= <- <-]. simpl. exists [Worksheet name]. split; [done|].
    intros [|i] q Hi Hcond; simplify_eq/=.
    destruct Hcond as [?|[x [=]]]. lia.
  - intros [= <- <-]. simpl. exists [Worksheet name]. split; [done|].
    intros [|i] q Hi Hcond; simplify_eq/=. rewrite app_nil_r. by left.
Qed.

Lemma orderly_widths widths :
  orderly service (set_column_widths service widths).
Proof.
  induction widths as [|[col width] widths IH]; cbn [set_column_widths].
  - by apply orderly_silent.
  - apply orderly_bind; [apply orderly_call|]. by intros _.
Qed.

Lemma orderly_publish creds name email now rows :
  orderly service (publish service creds name email now rows).
Proof.
  unfold publish, share_spreadsheet, update_data, apply_formatting.
  apply orderly_bind; [apply orderly_authenticate|]. intros _.
  apply orderly_bind; [apply orderly_spreadsheet|]. intros _.
  apply orderly_bind; [apply orderly_call|]. intros _.
  apply orderly_bind; [apply orderly_worksheet|]. intros _.
  apply orderly_bind.
  { apply orderly_bind; [apply orderly_call|]. intros _.
    apply orderly_bind; [apply orderly_call|]. intros _.
    by apply orderly_silent. }
  intros _. apply orderly_bind; [apply orderly_call|]. intros _.
  apply orderly_widths.
Qed.

Lemma call_ok r w x w' :
  call service r w = (inr x, w') ->
  service (sent w) r = None /\ sent w' = sent w ++ [r].
Proof.
  unfold call. destruct (service (sent w) r); [done|]. by intros [= <- <-].
Qed.

Lemma authenticate_ok creds w x w' :
  authenticate service creds w = (inr x, w') ->
  sent w' = sent w ++ [Authorize creds scope].
Proof.
  unfold authenticate, call.
  destruct (service (sent w) (Authorize creds scope)); [done|].
  by intros [= <- <-].
Qed.

Lemma spreadsheet_ok name w x w' :
  get_or_create_spreadsheet service name w = (inr x, w') ->
  exists created : bool,
    sent w' = sent w ++ Open name :: (if created then [Create name] else [])
    /\ (created = true
        <-> exists msg, service (sent w) (Open name)
                        = Some (SpreadsheetNotFound msg)).
Proof.
  unfold get_or_create_spreadsheet. unfold call at 1.
  destruct (service (sent w) (Open name)) as [[msg|msg|msg]|] eqn:Hr;
    try done.
  - unfold mbind, W_bind, call. simpl.
    destruct (service (sent w ++ [Open name]) (Create name)); [done|].
    intros [= <- <-]. simpl. exists true. split.
    + by rewrite <- app_assoc.
    + split; [by eexists|done].
  - intros [= <- <-]. simpl. exists false. split; [done|].
    split; [done|]. by intros [msg [=]].
Qed.

Lemma worksheet_ok name w x w' :
  get_or_create_worksheet service name w = (inr x, w') ->
  exists added : bool,
    sent w' = sent w ++ Worksheet name
                        :: (if added then [AddWorksheet name "1000" "20"]
                            else [])
    /\ (added = true
        <-> exists msg, service (sent w) (Worksheet name)
                        = Some (WorksheetNotFound msg)).
Proof.
  unfold get_or_create_worksheet. unfold call at 1.
  destruct (service (sent w) (Worksheet name)) as [[msg|msg|msg]|] eqn:Hr;
    try done.
  - unfold mbind, W_bind, call. simpl.
    destruct (service (sent w ++ [Worksheet name])
                      (AddWorksheet name "1000" "20")); [done|].
    intros [= <- <-]. simpl. exists true. split.
    + by rewrite <- app_assoc.
    + split; [by eexists|done].
  - intros [= <- <-]. simpl. exists false. split; [done|].
    split; [done|]. by intros [msg [=]].
Qed.

Lemma update_data_ok rows w x w' :
  update_data service rows w = (inr x, w') ->
  sent w' = sent w ++ [Clear; Update ((Str <$> header) :: (row_cells <$> rows))
                                     "A1"].
Proof.
  unfold update_data. intros H.
  apply W_bind_inv in H as (? & w1 & H1 & H). apply call_ok in H1 as [_ H1].
  apply W_bind_inv in H as (? & w2 & H2 & H). apply call_ok in H2 as [_ H2].
  unfold say in H. simplify_eq/=. rewrite H2, H1. by rewrite <- app_assoc.
Qed.

Lemma widths_ok widths : forall w x w',
  set_column_widths service widths w = (inr x, w') ->
  sent w' = sent w
            ++ ((fun cw : string * Z => SetColumnWidth cw.1 cw.2) <$> widths).
Proof.
  induction widths as [|[col width] widths IH]; intros w x w';
    cbn [set_column_widths].
  - intros H. unfold mret, W_ret in H. simplify_eq. by rewrite app_nil_r.
  - intros H. apply W_bind_inv in H as (? & w1 & H1 & H).
    apply call_ok in H1 as [_ H1]. apply IH in H. rewrite H, H1. simpl.
    by rewrite <- app_assoc.
Qed.

(** The requests of a call of [publish] that returns. *)
Lemma publish_trace creds name email now rows w w' :
  publish service creds name email now rows w = (inr tt, w') ->
  exists created added : bool,
    sent w' = sent w ++ success_trace creds name email now rows created added
    /\ (created = true
        <-> exists msg,
            service (sent w ++ [Authorize creds scope]) (Open name)
            = Some (SpreadsheetNotFound msg))
    /\ (added = true
        <-> exists msg,
            service (sent w ++ [Authorize creds scope; Open name]
                     ++ (if created then [Create name] else [])
                     ++ [Share email "user" "writer"])
                    (Worksheet (worksheet_name now))
            = Some (WorksheetNotFound msg)).
Proof.
  unfold publish, share_spreadsheet, apply_formatting. intros H.
  apply W_bind_inv in H as (? & w1 & H1 & H). apply authenticate_ok in H1.
  apply W_bind_inv in H as (? & w2 & H2 & H).
  apply spreadsheet_ok in H2 as (created & H2 & Hcreated).
  apply W_bind_inv in H as (? & w3 & H3 & H). apply call_ok in H3 as [_ H3].
  apply W_bind_inv in H as (? & w4 & H4 & H).
  apply worksheet_ok in H4 as (added & H4 & Hadded).
  apply W_bind_inv in H as (? & w5 & H5 & H). apply update_data_ok in H5.
  apply W_bind_inv in H as (? & w6 & H6 & H). apply call_ok in H6 as [_ H6].
  apply widths_ok in H.
  exists created, added. split; [|split].
  - rewrite H, H6, H5, H4, H3, H2, H1. unfold success_trace.
    rewrite <- !app_assoc. by destruct created, added.
  - by rewrite <- H1.
  - rewrite Hadded. rewrite H3, H2, H1.
    rewrite <- !app_assoc. by destruct created.
Qed.

End SheetFacts.

(** ** The run *)

Lemma is_column_elem df label col : is_column df label col -> label ∈ columns df.
Proof.
  intros H. specialize (H empty_state). unfold column, raise in H.
  destruct (list_find (fun c => c = label) (columns df)) as [[i c]|] eqn:Hf;
    [|done].
  apply list_find_Some in Hf as (Hi & -> & _). by eapply list_elem_of_lookup_2.
Qed.

Section RunFacts.

Import Locator Sheets.

Variable service : list request -> request -> option remote_exc.
Variable pool : state -> list cell -> string -> string -> list cell * state.
Variable sort_values : list report_row -> list report_row.
Variable read_csv : string -> string + dataframe.

Lemma in_process_sent {A} (m : M A) w : sent (in_process m w).2 = sent w.
Proof. unfold in_process. by destruct (m (proc w)) as [[?|?] ?]. Qed.

(** X19. Nothing is sent after a request the service refuses: in the
    requests of [generate_report], every request but the last was accepted
    by the service, or was the lookup of a spreadsheet or of a worksheet
    that does not exist yet; when [generate_report] returns, so was the
    last. *)
Theorem generate_report_stops csv creds name email now w r w' :
  Sheets.generate_report service pool sort_values read_csv csv creds name
                         email now w = (r, w') ->
  exists new,
    sent w' = sent w ++ new
    /\ forall i q, new !! i = Some q ->
                   (S i < length new \/ exists x, r = inr x) ->
                   benign service (sent w ++ take i new) q.
Proof.
  apply (orderly_bind service).
  - apply orderly_silent. intros w0. apply in_process_sent.
  - intros rows. apply orderly_publish.
Qed.

(** X20. When authentication fails, [publish] prints the error and exits
    with status 1 after that single request: no spreadsheet is opened,
    created or written. *)
Theorem publish_auth_failure creds name email now rows w e :
  service (sent w) (Authorize creds scope) = Some e ->
  publish service creds name email now rows w
  = (inl (Python (SystemExit 1)),
     mkWorld (mkState (cache (proc w)) (calls (proc w))
                      (stdout (proc w)
                       ++ ["Error during authentication: " +:+ message e]))
             (sent w ++ [Authorize creds scope]) (config w)).
Proof.
  intros H. unfold publish. apply W_bind_inl.
  unfold authenticate, call. by rewrite H.
Qed.

(** X21. When [publish] returns, what it has sent is the fixed sequence of
    [success_trace]: the spreadsheet is created exactly when looking it up
    raised [SpreadsheetNotFound], the worksheet is added, with 1000 rows
    and 20 columns, exactly when looking it up raised [WorksheetNotFound],
    and the worksheet is cleared and then written once, from [A1], with
    the header followed by one row of eleven cells for each row. *)
Theorem publish_requests creds name email now rows w w' :
  publish service creds name email now rows w = (inr tt, w') ->
  (exists created added : bool,
     sent w' = sent w ++ success_trace creds name email now rows created added
     /\ (created = true
         <-> exists msg,
             service (sent w ++ [Authorize creds scope]) (Open name)
             = Some (SpreadsheetNotFound msg))
     /\ (added = true
         <-> exists msg,
             service (sent w ++ [Authorize creds scope; Open name]
                      ++ (if created then [Create name] else [])
                      ++ [Share email "user" "writer"])
                     (Worksheet (worksheet_name now))
             = Some (WorksheetNotFound msg)))
  /\ length ((Str <$> header) :: (row_cells <$> rows)) = S (length rows)
  /\ Forall (fun row : list cell => length row = 11)
            ((Str <$> header) :: (row_cells <$> rows)).
Proof.
  intros H. split; [by apply publish_trace|]. split.
  - simpl. by rewrite length_fmap.
  - constructor; [done|]. apply Forall_fmap, Forall_forall. by intros r _.
Qed.

(** X22. A run of [generate_report] that returns has read a table with the
    columns [process_data] needs and has written one row for each row of
    that table, below the header. *)
Theorem generate_report_uploads csv creds name email now w w' :
  (forall l, sort_values l ≡ₚ l) ->
  Sheets.generate_report service pool sort_values read_csv csv creds name
                         email now w = (inr tt, w') ->
  exists df rows created added,
    read_csv csv = inr df
    /\ required_columns ⊆ columns df
    /\ length rows = length (values df)
    /\ sent w' = sent w ++ success_trace creds name email now rows created added.
Proof.
  intros Hperm H. unfold Sheets.generate_report in H.
  apply W_bind_inv in H as (rows & w1 & Hproc & Hpub).
  unfold in_process in Hproc.
  destruct ((load_data read_csv csv ≫= process_data pool sort_values) (proc w))
    as [[e|rows'] st1] eqn:Hrun; [done|].
  injection Hproc as <- <-.
  apply bind_inv in Hrun as (df & st0 & Hload & Hrun).
  unfold load_data in Hload.
  destruct (read_csv csv) as [msg|df'] eqn:Hcsv; [done|].
  unfold mret, M_ret in Hload. injection Hload as <- <-.
  rewrite process_data_sort in Hrun.
  destruct (before_sort pool df' (proc w)) as [[e|unsorted] st2] eqn:Hb; [done|].
  apply sort_by_assignees_inv in Hrun as (_ & -> & ->).
  apply before_sort_inv in Hb
    as (cA & cT & cB & cR & cS & c1 & c2 & c3 & c4 & HA & HT & HB & HR & HS
        & H1 & H2 & H3 & H4 & Hjt & Hjb & -> & ->).
  apply publish_trace in Hpub as (created & added & Hsent & _).
  exists df', (sort_values
                 (fillna (frame_rows (replace name_replacements cA) cT
                            (pool (proc w) cT "en" "ja").1 cB
                            (pool (pool (proc w) cT "en" "ja").2 cB "en" "ja").1
                            cR cS c1 c2 c3 c4))), created, added.
  split; [done|]. split; [|split; [|done]].
  - intros l Hl. unfold required_columns in Hl.
    repeat (apply elem_of_cons in Hl as [->|Hl]; [by eapply is_column_elem|]).
    by apply elem_of_nil in Hl.
  - rewrite Hperm. unfold fillna, frame_rows, replace.
    rewrite length_fmap, length_imap, length_fmap.
    by apply is_column_length in HA.
Qed.

Lemma authenticate_sent creds w r w1 :
  authenticate service creds w = (r, w1) ->
  sent w1 = sent w ++ [Authorize creds scope].
Proof.
  unfold authenticate, call.
  destruct (service (sent w) (Authorize creds scope)); by intros [= <- <-].
Qed.

Lemma publish_starts creds name email now rows w r w' :
  publish service creds name email now rows w = (r, w') ->
  exists rest, sent w' = sent w ++ Authorize creds scope :: rest.
Proof.
  unfold publish. intros H.
  destruct (authenticate service creds w) as [[e|x] w1] eqn:Ha.
  - rewrite (W_bind_inl _ _ _ _ _ Ha) in H. injection H as <- <-.
    exists []. by eapply authenticate_sent.
  - rewrite (W_bind_inr _ _ _ _ _ Ha) in H.
    apply authenticate_sent in Ha.
    assert (exists new, sent w' = sent w1 ++ new) as [new Hnew].
    { revert H. generalize w1 r w'. clear.
      intros w r w' H.
      assert (orderly service
                (_ ← get_or_create_spreadsheet service name;
                 _ ← share_spreadsheet service email "writer";
                 _ ← get_or_create_worksheet service (worksheet_name now);
                 _ ← update_data service rows;
                 _ ← apply_formatting service "A1:K1";
                 set_column_widths service column_widths)) as Ho.
      { unfold share_spreadsheet, update_data, apply_formatting.
        apply orderly_bind; [apply orderly_spreadsheet|]. intros _.
        apply orderly_bind; [apply orderly_call|]. intros _.
        apply orderly_bind; [apply orderly_worksheet|]. intros _.
        apply orderly_bind.
        { apply orderly_bind; [apply orderly_call|]. intros _.
          apply orderly_bind; [apply orderly_call|]. intros _.
          by apply orderly_silent. }
        intros _. apply orderly_bind; [apply orderly_call|]. intros _.
        apply orderly_widths. }
      destruct (Ho _ _ _ H) as (new & Hnew & _). by exists new. }
    exists new. rewrite Hnew, Ha. by rewrite <- app_assoc.
Qed.

Variable fs : string -> node.
Variables typed chosen : string.

Lemma say_sent lines w : sent (say lines w).2 = sent w.
Proof. done. Qed.

(** X23. Without an input file the script stops at once: when
    [get_latest_file] returns nothing, [main] prints that a CSV file is
    required and exits with status 1; the configuration file is not read,
    nobody is asked anything, and nothing is translated or sent. *)
Theorem main_without_file exe_path now w latest :
  (get_latest_file fs (join (join exe_path "..") "extract")).2 = inr latest ->
  falsy latest = true ->
  main service pool sort_values read_csv fs typed chosen exe_path now w
  = (inl (Python (SystemExit 1)),
     mkWorld (mkState (cache (proc w)) (calls (proc w))
                (stdout (proc w)
                 ++ (get_latest_file fs (join (join exe_path "..") "extract")).1
                 ++ ["CSV file is required."]))
             (sent w) (config w)).
Proof.
  intros Hr Hf. unfold main, locate.
  destruct (get_latest_file fs (join (join exe_path "..") "extract"))
    as [out r]. simpl in *. subst r.
  unfold mbind, W_bind, mret, W_ret, say, exit1, throw. simpl.
  destruct latest as [p|]; simpl in *.
  - destruct (PyStr.truthy p); [done|]. simpl. by rewrite <- app_assoc.
  - by rewrite <- app_assoc.
Qed.

Lemma locate_inv folder w r w1 :
  locate fs folder w = (r, w1) ->
  sent w1 = sent w /\ config w1 = config w
  /\ forall l, r = inr l -> (get_latest_file fs folder).2 = inr l.
Proof.
  unfold locate. destruct (get_latest_file fs folder) as [out [e|l]];
    unfold mbind, W_bind, mret, W_ret, say, throw; simpl;
    intros [= <- <-]; simpl; repeat split; congruence.
Qed.

Lemma with_config_inv {A}
      (op : Config.file -> (pyexc + A) * Config.file * list string) w r w1 :
  with_config op w = (r, w1) ->
  sent w1 = sent w /\ forall x, r = inr x -> (op (config w)).1.1 = inr x.
Proof.
  unfold with_config. destruct (op (config w)) as [[[e|x] f'] out]; simpl;
    intros [= <- <-]; simpl; split; congruence.
Qed.

Lemma in_process_inv {A} (m : M A) w x w1 :
  in_process m w = (inr x, w1) ->
  m (proc w) = (inr x, proc w1) /\ sent w1 = sent w.
Proof.
  unfold in_process. destruct (m (proc w)) as [[e|y] st1]; [done|].
  by intros [= <- <-].
Qed.

Lemma stops_silent lines w r w' :
  (_ ← say lines; exit1) w = (r : exc + unit, w') -> sent w' = sent w.
Proof.
  unfold mbind, W_bind, say, exit1, throw. simpl. by intros [= <- <-].
Qed.

(** X24. The script talks to the spreadsheet service only when everything
    before went well: if [main] has sent any request, then a CSV file was
    found, a credential file was resolved, the table was read and has the
    columns [process_data] needs; and the first request is the
    authentication with that credential file. *)
Theorem main_requests exe_path now w r w' :
  main service pool sort_values read_csv fs typed chosen exe_path now w
  = (r, w') ->
  sent w' <> sent w ->
  exists csv creds df rest,
    (get_latest_file fs (join (join exe_path "..") "extract")).2
    = inr (Some csv)
    /\ (Prompt.get_credential_file (config w) (path_exists fs) chosen).1.1
       = inr (Some creds)
    /\ read_csv csv = inr df
    /\ required_columns ⊆ columns df
    /\ sent w' = sent w ++ Authorize creds scope :: rest.
Proof.
  unfold main. intros H Hsent.
  destruct (locate fs (join (join exe_path "..") "extract") w)
    as [[e|latest] w1] eqn:Hloc.
  { rewrite (W_bind_inl _ _ _ _ _ Hloc) in H. injection H as <- <-.
    apply locate_inv in Hloc as [? _]. done. }
  rewrite (W_bind_inr _ _ _ _ _ Hloc) in H.
  apply locate_inv in Hloc as (Hs1 & Hc1 & Hfile).
  specialize (Hfile latest eq_refl).
  destruct latest as [csv|];
    [|apply stops_silent in H; congruence].
  destruct (PyStr.truthy csv); [|apply stops_silent in H; congruence].
  destruct (with_config
              (fun f => Prompt.get_credential_file f (path_exists fs) chosen)
              w1) as [[e|credentials] w2] eqn:Hcred.
  { rewrite (W_bind_inl _ _ _ _ _ Hcred) in H. injection H as <- <-.
    apply with_config_inv in Hcred as [? _]. congruence. }
  rewrite (W_bind_inr _ _ _ _ _ Hcred) in H.
  apply with_config_inv in Hcred as [Hs2 Hcreds].
  specialize (Hcreds credentials eq_refl). rewrite Hc1 in Hcreds.
  destruct credentials as [creds|];
    [|unfold exit1, throw in H; injection H as <- <-; congruence].
  destruct (PyStr.truthy creds);
    [|unfold exit1, throw in H; injection H as <- <-; congruence].
  destruct (with_config (fun f => Prompt.get_email f typed) w2)
    as [[e|email] w3] eqn:Hmail.
  { rewrite (W_bind_inl _ _ _ _ _ Hmail) in H. injection H as <- <-.
    apply with_config_inv in Hmail as [? _]. congruence. }
  rewrite (W_bind_inr _ _ _ _ _ Hmail) in H.
  apply with_config_inv in Hmail as [Hs3 _].
  unfold Sheets.generate_report in H.
  destruct (in_process
              (load_data read_csv csv ≫= process_data pool sort_values) w3)
    as [[e|rows] w4] eqn:Hproc.
  { rewrite (W_bind_inl _ _ _ _ _ Hproc) in H. injection H as <- <-.
    pose proof (in_process_sent
                  (load_data read_csv csv ≫= process_data pool sort_values)
                  w3) as Hs4.
    rewrite Hproc in Hs4. simpl in Hs4. congruence. }
  rewrite (W_bind_inr _ _ _ _ _ Hproc) in H.
  apply in_process_inv in Hproc as [Hrun Hs4].
  apply publish_starts in H as [rest Hrest].
  apply bind_inv in Hrun as (df & st0 & Hload & Hrun).
  unfold load_data in Hload.
  destruct (read_csv csv) as [msg|df'] eqn:Hcsv; [done|].
  unfold mret, M_ret in Hload. injection Hload as <- <-.
  rewrite process_data_sort in Hrun.
  destruct (before_sort pool df' (proc w3)) as [[e|unsorted] st2] eqn:Hb;
    [done|].
  apply before_sort_inv in Hb
    as (cA & cT & cB & cR & cS & c1 & c2 & c3 & c4 & HA & HT & HB & HR & HS
        & H1 & H2 & H3 & H4 & _).
  exists csv, creds, df', rest.
  split; [done|]. split; [done|]. split; [done|]. split.
  - intros l Hl. unfold required_columns in Hl.
    repeat (apply elem_of_cons in Hl as [->|Hl]; [by eapply is_column_elem|]).
    by apply elem_of_nil in Hl.
  - rewrite Hrest. congruence.
Qed.

End RunFacts.

(** ** The further properties at work *)

Section MoreWitnesses.

Import Samples MoreSamples.

Lemma three_texts_run :
  batch_translate ja_provider empty_state three_texts "en" "ja"
                  ([Str ""; Str ""; Str "ja:a"], three_texts_state).
Proof.
  assert (sequential_batch ja_provider empty_state three_texts "en" "ja"
          = ([Str ""; Str ""; Str "ja:a"], three_texts_state)) as <-
      by (vm_compute; reflexivity).
  apply batch_translate_returns.
Qed.

Lemma warm_run :
  batch_translate ja_provider warm_state [Str "Hello"] "en" "ja"
                  ([Str "konnichiwa"], warm_state).
Proof.
  assert (sequential_batch ja_provider warm_state [Str "Hello"] "en" "ja"
          = ([Str "konnichiwa"], warm_state)) as <-
      by (vm_compute; reflexivity).
  apply batch_translate_returns.
Qed.

Lemma sequential_runs st texts src tgt :
  batch_translate ja_provider st texts src tgt
                  (sequential_batch ja_provider st texts src tgt).
Proof. apply batch_translate_returns. Qed.

Lemma two_issues_before :
  before_sort (sequential_batch ja_provider) two_issues empty_state
  = (inr [first_issue; second_issue], two_issues_state).
Proof. vm_compute. reflexivity. Qed.

Lemma two_issues_processed :
  process_data (sequential_batch ja_provider) merge_rows two_issues empty_state
  = (inr [first_issue; second_issue], two_issues_state).
Proof. vm_compute. reflexivity. Qed.

Lemma merge_rows_perm l : merge_rows l ≡ₚ l.
Proof. apply merge_sort_Permutation. Qed.

Lemma two_issues_published :
  Sheets.generate_report ok_service (sequential_batch ja_provider) merge_rows
    read_two_issues "project_2024-03-15.csv" "key.json" "project_report"
    "a@example.org" today fresh_world
  = (inr tt, published_world).
Proof. vm_compute. reflexivity. Qed.

Lemma main_published :
  Sheets.main ok_service (sequential_batch ja_provider) merge_rows
              read_two_issues disk "" "" "" today fresh_world
  = (inr tt, published_world).
Proof. vm_compute. reflexivity. Qed.

Lemma translate_text_grows_witness :
  calls (translate_text ja_provider warm_state (Str "Bye") "en" "ja").2
  = calls warm_state ++ [(Str "Bye", "en", "ja")]
  /\ cache (translate_text ja_provider warm_state (Str "Bye") "en" "ja").2
       !! hello = Some "konnichiwa".
Proof.
  split; [reflexivity|].
  apply (proj1 (translate_text_grows ja_provider "en" "ja" warm_state
                  (Str "Bye"))).
  reflexivity.
Defined.

Lemma batch_calls_bounded_witness :
  batch_translate ja_provider empty_state three_texts "en" "ja"
                  ([Str ""; Str ""; Str "ja:a"], three_texts_state)
  /\ exists new,
      calls three_texts_state = calls empty_state ++ new
      /\ forall k, count_calls k new
                   <= length (List.filter (asks "en" "ja" k) three_texts).
Proof.
  split; [exact three_texts_run|].
  exact (batch_calls_bounded ja_provider "en" "ja" _ _ _ _ three_texts_run).
Defined.

Lemma batch_keeps_cached_witness :
  batch_translate ja_provider warm_state [Str "Hello"] "en" "ja"
                  ([Str "konnichiwa"], warm_state)
  /\ (forall k v, cache warm_state !! k = Some v ->
                  cache warm_state !! k = Some v).
Proof.
  split; [exact warm_run|].
  exact (proj1 (batch_keeps_cached ja_provider "en" "ja" _ _ _ _ warm_run)).
Defined.

Lemma batch_from_cache_witness :
  (forall text, text ∈ [Str "Hello"] -> has_text text = true ->
                is_Some (cache warm_state !! (text, "en", "ja")))
  /\ batch_translate ja_provider warm_state [Str "Hello"] "en" "ja"
                     ([Str "konnichiwa"], warm_state)
  /\ [Str "konnichiwa"] = from_cache (cache warm_state) "en" "ja"
                           <$> [Str "Hello"].
Proof.
  assert (forall text, text ∈ [Str "Hello"] -> has_text text = true ->
                       is_Some (cache warm_state !! (text, "en", "ja")))
    as Hwarm.
  { intros text Hin _. apply list_elem_of_singleton in Hin as ->.
    by eexists. }
  split; [exact Hwarm|]. split; [exact warm_run|].
  exact (proj2 (batch_from_cache ja_provider "en" "ja" _ _ _ _ Hwarm warm_run)).
Defined.

Lemma get_latest_file_first_witness :
  extract ["project_2024-03-15.csv"; "copy_project_2024-03-15.csv"] "extract"
  = Locator.Directory
      ["project_2024-03-15.csv"; "copy_project_2024-03-15.csv"]
  /\ Locator.dates_valid
       ["project_2024-03-15.csv"; "copy_project_2024-03-15.csv"]
  /\ (Locator.get_latest_file
        (extract ["project_2024-03-15.csv"; "copy_project_2024-03-15.csv"])
        "extract").2
     = inr (Some "extract/project_2024-03-15.csv")
  /\ exists i f,
      ["project_2024-03-15.csv"; "copy_project_2024-03-15.csv"] !! i = Some f
      /\ "extract/project_2024-03-15.csv" = Locator.join "extract" f.
Proof.
  assert (Locator.dates_valid
            ["project_2024-03-15.csv"; "copy_project_2024-03-15.csv"])
    as Hvalid.
  { repeat constructor; intros g Hg; vm_compute in Hg;
      try discriminate; injection Hg as <-; by eexists. }
  split; [reflexivity|]. split; [exact Hvalid|]. split; [reflexivity|].
  destruct (get_latest_file_first
              (extract ["project_2024-03-15.csv"; "copy_project_2024-03-15.csv"])
              "extract" _ "extract/project_2024-03-15.csv"
              eq_refl Hvalid eq_refl) as (i & f & d & Hi & _ & Hp & _).
  by exists i, f.
Defined.

Lemma re_search_anywhere_witness :
  is_Some (Locator.re_search "old_project_2024-03-15.csv.bak").
Proof.
  apply (proj2 (re_search_anywhere "old_project_2024-03-15.csv.bak")).
  exists "old_", "2024-03-15", ".bak". split; reflexivity.
Defined.

Lemma get_latest_file_raises_iff_witness :
  extract ["project_2024-13-01.csv"] "extract"
  = Locator.Directory ["project_2024-13-01.csv"]
  /\ exists e,
      (Locator.get_latest_file (extract ["project_2024-13-01.csv"])
                               "extract").2 = inl e.
Proof.
  split; [reflexivity|].
  apply (proj1 (get_latest_file_raises_iff
                  (extract ["project_2024-13-01.csv"]) "extract"
                  ["project_2024-13-01.csv"] eq_refl)).
  exists "project_2024-13-01.csv", "2024-13-01".
  split; [by left|]. split; reflexivity.
Defined.

Lemma worksheet_name_round_trip_witness :
  Sheets.calendar_date today
  /\ Locator.strptime (Sheets.strftime today) = Some today
  /\ Sheets.worksheet_name today = "project_2024-03-15".
Proof.
  assert (Sheets.calendar_date today) as Hcal.
  { unfold Sheets.calendar_date, today. simpl. vm_compute. intuition congruence. }
  split; [exact Hcal|]. split; [|reflexivity].
  exact (proj1 (worksheet_name_round_trip today Hcal)).
Defined.

Lemma save_config_stored_witness :
  Config.load_config Config.NoFile
  = inr (<["email" := Config.JNull]> (<["credential_file" := Config.JNull]> ∅))
  /\ Config.stored
       (Config.save_config Config.NoFile (Some "a@example.org") None).1.2
       "email"
     = Some (Some (Config.JString "a@example.org")).
Proof.
  split; [reflexivity|].
  exact (proj1 (save_config_stored Config.NoFile (Some "a@example.org") None
                  _ eq_refl) "a@example.org" eq_refl eq_refl).
Defined.

Lemma get_email_remembers_witness :
  PyStr.strip "  a@example.org " = "a@example.org"
  /\ (Prompt.get_email Config.NoFile "  a@example.org ").1.1
     = inr "a@example.org"
  /\ Prompt.get_email (Prompt.get_email Config.NoFile "  a@example.org ").1.2
                      "b@example.org"
     = (inr "a@example.org",
        (Prompt.get_email Config.NoFile "  a@example.org ").1.2, []).
Proof.
  split; [reflexivity|].
  destruct (get_email_remembers Config.NoFile "  a@example.org " _ eq_refl)
    as [H1 H2]; [by vm_compute|by vm_compute|].
  split; [exact H1|]. exact (H2 "b@example.org").
Defined.

Lemma get_email_blank_witness :
  PyStr.strip "   " = EmptyString
  /\ (Prompt.get_email Config.NoFile "   ").1.1 = inr EmptyString
  /\ (Prompt.get_email (Prompt.get_email Config.NoFile "   ").1.2
                       " a@example.org").1.1
     = inr "a@example.org".
Proof.
  split; [reflexivity|].
  destruct (get_email_blank Config.NoFile "   " _ eq_refl)
    as (H1 & _ & H3); [by vm_compute|reflexivity|].
  split; [exact H1|]. exact (H3 " a@example.org").
Defined.

Lemma get_credential_file_none_witness :
  Prompt.dialog_needed
    ((<["email" := Config.JNull]> (<["credential_file" := Config.JNull]> ∅)
      : gmap string Config.json) !! "credential_file") (fun _ => false)
  = true
  /\ (Prompt.get_credential_file Config.NoFile (fun _ => false)
                                 EmptyString).1.1 = inr None.
Proof.
  split; [by vm_compute|].
  apply (proj1 (get_credential_file_none Config.NoFile (fun _ => false)
                  EmptyString _ eq_refl)).
  split; [by vm_compute|reflexivity].
Defined.

Lemma get_credential_file_remembers_witness :
  (Prompt.get_credential_file Config.NoFile (fun p => String.eqb p "key.json")
                              "key.json").1.1 = inr (Some "key.json")
  /\ Prompt.get_credential_file
       (Prompt.get_credential_file Config.NoFile
          (fun p => String.eqb p "key.json") "key.json").1.2
       (fun p => String.eqb p "key.json") "other.json"
     = (inr (Some "key.json"),
        (Prompt.get_credential_file Config.NoFile
           (fun p => String.eqb p "key.json") "key.json").1.2, []).
Proof.
  destruct (get_credential_file_remembers Config.NoFile
              (fun p => String.eqb p "key.json") "key.json" _ eq_refl)
    as (H1 & _ & H3); [by vm_compute|discriminate|].
  split; [exact H1|]. exact (H3 eq_refl "other.json").
Defined.

Lemma process_data_asks_witness :
  (forall st texts src tgt,
     batch_translate ja_provider st texts src tgt
                     (sequential_batch ja_provider st texts src tgt))
  /\ process_data (sequential_batch ja_provider) merge_rows two_issues
                  empty_state
     = (inr [first_issue; second_issue], two_issues_state)
  /\ exists new, calls two_issues_state = calls empty_state ++ new
                 /\ Forall (title_or_body two_issues) new.
Proof.
  split; [exact sequential_runs|]. split; [exact two_issues_processed|].
  exact (process_data_asks ja_provider (sequential_batch ja_provider)
           sequential_runs merge_rows two_issues empty_state _ _
           two_issues_processed).
Defined.

Lemma before_sort_columns_witness :
  before_sort (sequential_batch ja_provider) two_issues empty_state
  = (inr [first_issue; second_issue], two_issues_state)
  /\ exists col, is_column two_issues "Assignees" col
                 /\ Assignees <$> [first_issue; second_issue]
                    = fill <$> replace name_replacements col.
Proof.
  split; [exact two_issues_before|].
  exact (proj1 (proj2 (before_sort_columns (sequential_batch ja_provider)
                         two_issues empty_state _ _ two_issues_before))).
Defined.

Lemma process_data_filled_witness :
  (forall l, merge_rows l ≡ₚ l)
  /\ process_data (sequential_batch ja_provider) merge_rows two_issues
                  empty_state
     = (inr [first_issue; second_issue], two_issues_state)
  /\ Forall (fun r => NaN ∉ cells_of r) [first_issue; second_issue].
Proof.
  split; [exact merge_rows_perm|]. split; [exact two_issues_processed|].
  exact (process_data_filled (sequential_batch ja_provider) merge_rows
           two_issues empty_state _ _ merge_rows_perm two_issues_processed).
Defined.

Lemma process_data_renamed_witness :
  (forall l, merge_rows l ≡ₚ l)
  /\ process_data (sequential_batch ja_provider) merge_rows two_issues
                  empty_state
     = (inr [first_issue; second_issue], two_issues_state)
  /\ Forall (fun r => forall s, Assignees r = Str s ->
                                name_replacements !! s = None)
            [first_issue; second_issue].
Proof.
  split; [exact merge_rows_perm|]. split; [exact two_issues_processed|].
  exact (process_data_renamed (sequential_batch ja_provider) merge_rows
           two_issues empty_state _ _ merge_rows_perm two_issues_processed).
Defined.

Lemma generate_report_stops_witness :
  Sheets.generate_report ok_service (sequential_batch ja_provider) merge_rows
    read_two_issues "project_2024-03-15.csv" "key.json" "project_report"
    "a@example.org" today fresh_world
  = (inr tt, published_world)
  /\ exists new,
      Sheets.sent published_world = Sheets.sent fresh_world ++ new
      /\ forall i q, new !! i = Some q ->
                     (S i < length new
                      \/ exists x, @inr Sheets.exc () tt = inr x) ->
                     Sheets.benign ok_service
                                   (Sheets.sent fresh_world ++ take i new) q.
Proof.
  split; [exact two_issues_published|].
  exact (generate_report_stops ok_service (sequential_batch ja_provider)
           merge_rows read_two_issues _ _ _ _ _ _ _ _ two_issues_published).
Defined.

Lemma publish_auth_failure_witness :
  no_auth (Sheets.sent fresh_world) (Sheets.Authorize "key.json" Sheets.scope)
  = Some (Sheets.OtherError "invalid key")
  /\ (Sheets.publish no_auth "key.json" "project_report" "a@example.org"
                     today [first_issue] fresh_world).1
     = inl (Sheets.Python (SystemExit 1))
  /\ Sheets.sent
       (Sheets.publish no_auth "key.json" "project_report" "a@example.org"
                       today [first_issue] fresh_world).2
     = [Sheets.Authorize "key.json" Sheets.scope].
Proof.
  split; [reflexivity|].
  rewrite (publish_auth_failure no_auth "key.json" "project_report"
             "a@example.org" today [first_issue] fresh_world
             (Sheets.OtherError "invalid key") eq_refl).
  split; reflexivity.
Defined.

Lemma two_issues_sent :
  Sheets.publish ok_service "key.json" "project_report" "a@example.org" today
                 [first_issue; second_issue] fresh_world
  = (inr tt,
     Sheets.mkWorld (mkState ∅ [] said)
       (Sheets.success_trace "key.json" "project_report" "a@example.org"
                             today [first_issue; second_issue] false false)
       saved).
Proof. vm_compute. reflexivity. Qed.

Lemma publish_requests_witness :
  Sheets.publish ok_service "key.json" "project_report" "a@example.org" today
                 [first_issue; second_issue] fresh_world
  = (inr tt,
     Sheets.mkWorld (mkState ∅ [] said)
       (Sheets.success_trace "key.json" "project_report" "a@example.org"
                             today [first_issue; second_issue] false false)
       saved)
  /\ length ((Str <$> Sheets.header)
             :: (Sheets.row_cells <$> [first_issue; second_issue])) = 3.
Proof.
  split; [exact two_issues_sent|].
  exact (proj1 (proj2 (publish_requests ok_service _ _ _ _ _ _ _
                         two_issues_sent))).
Defined.

Lemma generate_report_uploads_witness :
  (forall l, merge_rows l ≡ₚ l)
  /\ Sheets.generate_report ok_service (sequential_batch ja_provider)
       merge_rows read_two_issues "project_2024-03-15.csv" "key.json"
       "project_report" "a@example.org" today fresh_world
     = (inr tt, published_world)
  /\ exists df rows created added,
      read_two_issues "project_2024-03-15.csv" = inr df
      /\ length rows = length (values df)
      /\ Sheets.sent published_world
         = Sheets.sent fresh_world
           ++ Sheets.success_trace "key.json" "project_report" "a@example.org"
                                   today rows created added.
Proof.
  split; [exact merge_rows_perm|]. split; [exact two_issues_published|].
  destruct (generate_report_uploads ok_service (sequential_batch ja_provider)
              merge_rows read_two_issues _ _ _ _ _ _ _ merge_rows_perm
              two_issues_published)
    as (df & rows & created & added & H1 & _ & H3 & H4).
  by exists df, rows, created, added.
Defined.

Lemma main_without_file_witness :
  (Locator.get_latest_file empty_disk
     (Locator.join (Locator.join "" "..") "extract")).2 = inr None
  /\ Locator.falsy None = true
  /\ (Sheets.main ok_service (sequential_batch ja_provider) merge_rows
                  read_two_issues empty_disk "" "" "" today fresh_world).1
     = inl (Sheets.Python (SystemExit 1)).
Proof.
  split; [reflexivity|]. split; [reflexivity|].
  by rewrite (main_without_file ok_service (sequential_batch ja_provider)
                merge_rows read_two_issues empty_disk "" "" "" today
                fresh_world None eq_refl eq_refl).
Defined.

Lemma main_requests_witness :
  Sheets.main ok_service (sequential_batch ja_provider) merge_rows
              read_two_issues disk "" "" "" today fresh_world
  = (inr tt, published_world)
  /\ Sheets.sent published_world <> Sheets.sent fresh_world
  /\ exists csv creds df rest,
      (Locator.get_latest_file disk
         (Locator.join (Locator.join "" "..") "extract")).2 = inr (Some csv)
      /\ read_two_issues csv = inr df
      /\ Sheets.sent published_world
         = Sheets.sent fresh_world
           ++ Sheets.Authorize creds Sheets.scope :: rest.
Proof.
  assert (Sheets.sent published_world <> Sheets.sent fresh_world) as Hne
      by (vm_compute; discriminate).
  split; [exact main_published|]. split; [exact Hne|].
  destruct (main_requests ok_service (sequential_batch ja_provider) merge_rows
              read_two_issues disk "" "" "" today fresh_world _ _
              main_published Hne)
    as (csv & creds & df & rest & H1 & _ & H3 & _ & H5).
  by exists csv, creds, df, rest.
Defined.

End MoreWitnesses.
